(** * vite-plugin-vize: precompilation cache and virtual-module bridge

    A shallow embedding of the plugin sources
    ([compiler.ts], [index.ts], [utils.ts] of npm/vite-plugin-vize) and the
    properties of its cache, its virtual-module registry and its output
    synthesizer.

    JavaScript strings are embedded as [string]: the sequence of bytes of the
    UTF-8 encoding of the text.  Every pattern the plugin searches for is
    ASCII, so prefix, suffix, substring search and cutting at a found index
    agree with the UTF-16 view of the same text.

    The two routines the output synthesizer emits are JavaScript text.  What
    they do in the browser is obtained by reading and running that text
    ([MiniJs]) on a model of the page. *)

From Stdlib Require Import ZArith List Ascii String Bool Lia.
From stdpp Require Import base option gmap strings list fin_maps.
Import ListNotations.

Local Open Scope string_scope.

(** ** The string methods the plugin calls *)

Module JsString.

  (** [s.slice(n)] for [0 <= n]. *)
Fixpoint drop (n : nat) (s : string) : string :=
    match n, s with
    | O, _ => s
    | S _, EmptyString => EmptyString
    | S n', String _ s' => drop n' s'
    end.

Fixpoint take (n : nat) (s : string) : string :=
    match n, s with
    | O, _ => EmptyString
    | S _, EmptyString => EmptyString
    | S n', String c s' => String c (take n' s')
    end.

  (** [s.slice(a, b)] for [0 <= a <= b]. *)
Definition slice (s : string) (a b : nat) : string := take (b - a) (drop a s).

Definition sliceFrom (s : string) (a : nat) : string := drop a s.

  (** [s.startsWith(p)] *)
Definition startsWith (s p : string) : bool := String.prefix p s.

  (** [s.endsWith(p)] *)
Definition endsWith (s p : string) : bool :=
    (String.length p <=? String.length s)%nat
    && String.eqb (drop (String.length s - String.length p) s) p.

  (** [s.indexOf(p)], [None] standing for -1. *)
Fixpoint indexOf (s p : string) : option nat :=
    if String.prefix p s then Some O
    else match s with
         | EmptyString => None
         | String _ s' => option_map S (indexOf s' p)
         end.

  (** [s.includes(p)] *)
Definition includes (s p : string) : bool :=
    match indexOf s p with Some _ => true | None => false end.

  (** [s.replace(p, r)] with a string pattern: the first occurrence only.
      The replacement text is taken literally, which is what JavaScript does
      when it holds no dollar sign; the single call site passes such a
      constant. *)
Definition replace (s p r : string) : string :=
    match indexOf s p with
    | None => s
    | Some i => take i s +:+ r +:+ drop (i + String.length p) s
    end.

  (** [s.split(c)[0]]: the text before the first [c], all of [s] without. *)
Fixpoint beforeFirst (c : ascii) (s : string) : string :=
    match s with
    | EmptyString => EmptyString
    | String a s' => if Ascii.eqb a c then EmptyString else String a (beforeFirst c s')
    end.

  (** Truthiness of a possibly undefined string. *)
Definition truthy (o : option string) : bool :=
    match o with
    | Some (String _ _) => true
    | _ => false
    end.

Definition hexDigit (n : Z) : ascii :=
    match n with
    | 0 => "0" | 1 => "1" | 2 => "2" | 3 => "3" | 4 => "4" | 5 => "5"
    | 6 => "6" | 7 => "7" | 8 => "8" | 9 => "9" | 10 => "a" | 11 => "b"
    | 12 => "c" | 13 => "d" | 14 => "e" | _ => "f"
    end%Z%char.

Definition isHexDigit (c : ascii) : bool :=
    let n := nat_of_ascii c in
    ((48 <=? n) && (n <=? 57) || (97 <=? n) && (n <=? 102))%nat.

Fixpoint allChars (f : ascii -> bool) (s : string) : bool :=
    match s with
    | EmptyString => true
    | String c s' => f c && allChars f s'
    end.

Definition backslash : ascii := ascii_of_nat 92.

  (** [JSON.stringify] of a string: quoted, with the quote, the backslash
      and the control characters below U+0020 escaped. *)
Definition jsonEscape (c : ascii) : string :=
    let n := Z.of_nat (nat_of_ascii c) in
    match n with
    | 8 => "\b" | 9 => "\t" | 10 => "\n" | 12 => "\f" | 13 => "\r"
    | 34 => String backslash (String c EmptyString)
    | 92 => String backslash (String backslash EmptyString)
    | _ => if (n <? 32)%Z
           then "\u00" +:+ String (hexDigit (n / 16)) (String (hexDigit (n mod 16)) EmptyString)
           else String c EmptyString
    end%Z.

Fixpoint jsonEscapeAll (s : string) : string :=
    match s with
    | EmptyString => EmptyString
    | String c s' => jsonEscape c +:+ jsonEscapeAll s'
    end.

Definition dquote : ascii := ascii_of_nat 34.

Definition JSON_stringify (s : string) : string :=
    String dquote (jsonEscapeAll s +:+ String dquote EmptyString).

End JsString.

(** ** SHA-256 (FIPS 180-4), as [createHash('sha256')] of node:crypto *)

Module Sha256.
Local Open Scope Z_scope.

Definition w32 (x : Z) : Z := x mod 2 ^ 32.
Definition rotr (n x : Z) : Z := Z.lor (Z.shiftr x n) (w32 (Z.shiftl x (32 - n))).
Definition shr (n x : Z) : Z := Z.shiftr x n.
Definition Ch (x y z : Z) : Z :=
    Z.lxor (Z.land x y) (Z.land (Z.lxor x 0xffffffff) z).
Definition Maj (x y z : Z) : Z :=
    Z.lxor (Z.lxor (Z.land x y) (Z.land x z)) (Z.land y z).
Definition bsig0 (x : Z) : Z := Z.lxor (Z.lxor (rotr 2 x) (rotr 13 x)) (rotr 22 x).
Definition bsig1 (x : Z) : Z := Z.lxor (Z.lxor (rotr 6 x) (rotr 11 x)) (rotr 25 x).
Definition ssig0 (x : Z) : Z := Z.lxor (Z.lxor (rotr 7 x) (rotr 18 x)) (shr 3 x).
Definition ssig1 (x : Z) : Z := Z.lxor (Z.lxor (rotr 17 x) (rotr 19 x)) (shr 10 x).

(** The round constants: the first 32 bits of the fractional parts of the
      cube roots of the first 64 primes, in decimal. *)
Definition K : list Z :=
    [ 1116352408; 1899447441; 3049323471; 3921009573; 961987163; 1508970993;
      2453635748; 2870763221; 3624381080; 310598401; 607225278; 1426881987;
      1925078388; 2162078206; 2614888103; 3248222580; 3835390401; 4022224774;
      264347078; 604807628; 770255983; 1249150122; 1555081692; 1996064986;
      2554220882; 2821834349; 2952996808; 3210313671; 3336571891; 3584528711;
      113926993; 338241895; 666307205; 773529912; 1294757372; 1396182291;
      1695183700; 1986661051; 2177026350; 2456956037; 2730485921; 2820302411;
      3259730800; 3345764771; 3516065817; 3600352804; 4094571909; 275423344;
      430227734; 506948616; 659060556; 883997877; 958139571; 1322822218;
      1537002063; 1747873779; 1955562222; 2024104815; 2227730452; 2361852424;
      2428436474; 2756734187; 3204031479; 3329325298 ].

  (** The eight working words. *)
Record state := State { ha : Z; hb : Z; hc : Z; hd : Z; he : Z; hf : Z; hg : Z; hh : Z }.

Definition H0 : state :=
    State 0x6a09e667 0xbb67ae85 0x3c6ef372 0xa54ff53a
          0x510e527f 0x9b05688c 0x1f83d9ab 0x5be0cd19.

Definition bytesOf (s : string) : list Z :=
    List.map (fun c => Z.of_nat (nat_of_ascii c)) (list_ascii_of_string s).

  (** Big-endian bytes of [x], [n] of them. *)
Fixpoint bigEndian (n : nat) (x : Z) : list Z :=
    match n with
    | O => []
    | S n' => (x / 256 ^ Z.of_nat n') mod 256 :: bigEndian n' x
    end.

Definition pad (msg : list Z) : list Z :=
    let len := Z.of_nat (List.length msg) in
    msg ++ [0x80] ++ List.repeat 0 (Z.to_nat ((55 - len) mod 64)) ++ bigEndian 8 (8 * len).

Fixpoint toWords (bs : list Z) : list Z :=
    match bs with
    | b0 :: b1 :: b2 :: b3 :: rest =>
        (((b0 * 256 + b1) * 256 + b2) * 256 + b3) :: toWords rest
    | _ => []
    end.

Fixpoint toBlocks (fuel : nat) (ws : list Z) : list (list Z) :=
    match fuel, ws with
    | O, _ => []
    | _, [] => []
    | S fuel', _ => firstn 16 ws :: toBlocks fuel' (skipn 16 ws)
    end.

Fixpoint schedule (n : nat) (w : list Z) : list Z :=
    match n with
    | O => w
    | S n' =>
        let t := List.length w in
        let at_ (k : nat) := nth (t - k) w 0 in
        schedule n' (w ++ [w32 (ssig1 (at_ 2%nat) + at_ 7%nat + ssig0 (at_ 15%nat) + at_ 16%nat)])
    end.

Definition round (s : state) (kw : Z * Z) : state :=
    let '(k, w) := kw in
    let t1 := w32 (hh s + bsig1 (he s) + Ch (he s) (hf s) (hg s) + k + w) in
    let t2 := w32 (bsig0 (ha s) + Maj (ha s) (hb s) (hc s)) in
    State (w32 (t1 + t2)) (ha s) (hb s) (hc s) (w32 (hd s + t1)) (he s) (hf s) (hg s).

Definition compress (h : state) (block : list Z) : state :=
    let w := schedule 48 block in
    let s := fold_left round (combine K w) h in
    State (w32 (ha h + ha s)) (w32 (hb h + hb s)) (w32 (hc h + hc s)) (w32 (hd h + hd s))
          (w32 (he h + he s)) (w32 (hf h + hf s)) (w32 (hg h + hg s)) (w32 (hh h + hh s)).

Definition hash (s : string) : state :=
    let ws := toWords (pad (bytesOf s)) in
    fold_left compress (toBlocks (List.length ws) ws) H0.

  (** Eight lowercase hexadecimal digits of a word. *)
Definition hex8 (x : Z) : string :=
    let d (i : Z) := JsString.hexDigit ((x / 16 ^ i) mod 16) in
    String (d 7) (String (d 6) (String (d 5) (String (d 4)
      (String (d 3) (String (d 2) (String (d 1) (String (d 0) EmptyString))))))).

  (** [.digest('hex')] *)
Definition hexDigest (s : string) : string :=
    let h := hash s in
    hex8 (ha h) +:+ hex8 (hb h) +:+ hex8 (hc h) +:+ hex8 (hd h) +:+
    hex8 (he h) +:+ hex8 (hf h) +:+ hex8 (hg h) +:+ hex8 (hh h).

End Sha256.

(** ** utils.ts *)

Definition generateScopeId (filename : string) : string :=
  let hash := Sha256.hexDigest filename in
  JsString.slice hash 0 8.


(** ** node:path, POSIX flavour

    The plugin reaches the file system only through the host (see [Host]
    below); this module is the POSIX implementation of the four path
    functions it calls, used to run the plugin on concrete inputs. *)

Module NodePath.
Import JsString.

Definition slash : ascii := "/"%char.

  (** The text between the separators. *)
Fixpoint segments (s : string) : list string :=
    match s with
    | EmptyString => [EmptyString]
    | String c s' =>
        if Ascii.eqb c slash then EmptyString :: segments s'
        else match segments s' with
             | [] => [String c EmptyString]
             | seg :: rest => String c seg :: rest
             end
    end.

  (** [normalizeString]: the stack of kept segments, innermost first. *)
Fixpoint normalizeSegments (allowAboveRoot : bool) (stack : list string)
      (segs : list string) : list string :=
    match segs with
    | [] => rev stack
    | seg :: rest =>
        if String.eqb seg EmptyString || String.eqb seg "." then
          normalizeSegments allowAboveRoot stack rest
        else if String.eqb seg ".." then
          match stack with
          | top :: below =>
              if String.eqb top ".."
              then normalizeSegments allowAboveRoot
                     (if allowAboveRoot then seg :: stack else stack) rest
              else normalizeSegments allowAboveRoot below rest
          | [] =>
              normalizeSegments allowAboveRoot
                (if allowAboveRoot then [seg] else []) rest
          end
        else normalizeSegments allowAboveRoot (seg :: stack) rest
    end.

Definition normalizeString (path : string) (allowAboveRoot : bool) : string :=
    String.concat "/" (normalizeSegments allowAboveRoot [] (segments path)).

Definition isAbsolute (path : string) : bool := startsWith path "/".

Definition normalize (path : string) : string :=
    if String.eqb path EmptyString then "."
    else
      let isAbs := isAbsolute path in
      let trailingSeparator := endsWith path "/" in
      let path' := normalizeString path (negb isAbs) in
      if String.eqb path' EmptyString then
        if isAbs then "/" else if trailingSeparator then "./" else "."
      else
        let path'' := if trailingSeparator then path' +:+ "/" else path' in
        if isAbs then "/" +:+ path'' else path''.

  (** [resolve(...args)] walks the arguments from the right until the
      accumulated path is absolute, the working directory coming last. *)
Fixpoint resolveLoop (revArgs : list string) (resolvedPath : string) : string * bool :=
    match revArgs with
    | [] => (resolvedPath, false)
    | path :: rest =>
        if String.eqb path EmptyString then resolveLoop rest resolvedPath
        else
          let resolvedPath' := path +:+ "/" +:+ resolvedPath in
          if isAbsolute path then (resolvedPath', true)
          else resolveLoop rest resolvedPath'
    end.

Definition resolve (cwd : string) (args : list string) : string :=
    let '(resolvedPath, resolvedAbsolute) := resolveLoop (rev (cwd :: args)) EmptyString in
    let resolvedPath' := normalizeString resolvedPath (negb resolvedAbsolute) in
    if resolvedAbsolute then "/" +:+ resolvedPath'
    else if String.eqb resolvedPath' EmptyString then "." else resolvedPath'.

  (** [dirname]: scan from the end, down to index 1, for the first separator
      that follows a non-separator.  [go rest n seen] looks at the characters
      of index [n], [n-1], ... given in that order; [seen] tells that a
      non-separator was met. *)
Fixpoint dirnameEnd (revTail : list ascii) (i : nat) (seen : bool) : option nat :=
    match revTail, i with
    | c :: rest, S i' =>
        if Ascii.eqb c slash then
          if seen then Some i else dirnameEnd rest i' seen
        else dirnameEnd rest i' true
    | _, _ => None
    end.

Definition dirname (path : string) : string :=
    if String.eqb path EmptyString then "."
    else
      let hasRoot := isAbsolute path in
      match dirnameEnd (rev (list_ascii_of_string path)) (String.length path - 1) false with
      | None => if hasRoot then "/" else "."
      | Some e => if hasRoot && Nat.eqb e 1 then "//" else slice path 0 e
      end.

End NodePath.

(** ** types.ts and the host *)

(** The result of a call that may throw; a thrown value is kept as its
    message. *)
Inductive outcome (A : Type) : Type :=
| Ok (a : A)
| Throw (e : string).
Arguments Ok {A} a.
Arguments Throw {A} e.

Record CompiledModule := {
  code : string;
  css : option string;
  scopeId : string;
  hasScoped : bool }.

Record SfcCompileOptionsNapi := {
  filename : string;
  opt_sourceMap : bool;
  opt_ssr : bool;
  opt_scopeId : option string }.

Record SfcCompileResultNapi := {
  res_code : string;
  res_css : option string;
  errors : list string;
  warnings : list string }.

Definition CompileSfcFn : Type :=
  string -> SfcCompileOptionsNapi -> outcome SfcCompileResultNapi.

Inductive Pattern :=
| PString (s : string)
| PRegExp (test : string -> bool).

Inductive PatternArg :=
| POne (p : Pattern)
| PMany (ps : list Pattern).

Record VizeOptions := {
  include : option PatternArg;
  exclude : option PatternArg;
  scanPatterns : option (list string);
  ignorePatterns : option (list string);
  sourceMap : option bool;
  ssr : option bool;
  vo_isProduction : option bool;
  vo_root : option string }.

Record ResolvedConfig := {
  rc_isProduction : bool;
  rc_root : string }.

Inductive ModuleNode := ModuleNodeOf (url : string).

(** [server.moduleGraph.getModulesByFile] is all the plugin asks of a dev
    server. *)
Record ViteDevServer := {
  getModulesByFile : string -> option (list ModuleNode) }.

Record HmrContext := {
  ctx_file : string;
  ctx_server : ViteDevServer;
  ctx_read : outcome string }.

(** What the plugin prints, one constructor per [console] call. *)
Inductive LogEvent :=
| CompilationError (filePath errorMsg : string)
| CompileWarning (filePath warning : string)
| PreCompiling (count : nat)
| FailedToCompile (file e : string)
| PreCompilationComplete (successCount errorCount : nat)
| ReCompiled (root file : string)
| ReCompilationFailed (file e : string).

(** The world outside the plugin at the time of one hook call: the native
    binding, the file system, the glob library and node:path. *)
Record Host := {
  require_native : outcome CompileSfcFn;
  readFileSync : string -> outcome string;
  glob : list string -> option string -> list string -> outcome (list string);
  path_isAbsolute : string -> bool;
  path_resolve : string -> string -> string;
  path_dirname : string -> string;
  path_normalize : string -> string }.

(** The mutable variables: [compileSfc] of compiler.ts and the variables
    closed over by the hooks of one plugin instance. *)
Record Session := {
  compileSfc : option CompileSfcFn;
  cache : gmap string CompiledModule;
  virtualToReal : gmap string string;
  isProduction : option bool;
  root : option string;
  server : option ViteDevServer;
  console : list LogEvent }.

Definition initial : Session :=
  {| compileSfc := None; cache := ∅; virtualToReal := ∅;
     isProduction := None; root := None; server := None; console := [] |}.

Definition set_compileSfc (f : CompileSfcFn) (s : Session) : Session :=
  {| compileSfc := Some f; cache := cache s; virtualToReal := virtualToReal s;
     isProduction := isProduction s; root := root s; server := server s;
     console := console s |}.

Definition set_cache (c : gmap string CompiledModule) (s : Session) : Session :=
  {| compileSfc := compileSfc s; cache := c; virtualToReal := virtualToReal s;
     isProduction := isProduction s; root := root s; server := server s;
     console := console s |}.

Definition set_virtualToReal (v : gmap string string) (s : Session) : Session :=
  {| compileSfc := compileSfc s; cache := cache s; virtualToReal := v;
     isProduction := isProduction s; root := root s; server := server s;
     console := console s |}.

Definition set_config (p : bool) (r : string) (s : Session) : Session :=
  {| compileSfc := compileSfc s; cache := cache s; virtualToReal := virtualToReal s;
     isProduction := Some p; root := Some r; server := server s;
     console := console s |}.

Definition set_server (d : ViteDevServer) (s : Session) : Session :=
  {| compileSfc := compileSfc s; cache := cache s; virtualToReal := virtualToReal s;
     isProduction := isProduction s; root := root s; server := Some d;
     console := console s |}.

Definition add_log (e : LogEvent) (s : Session) : Session :=
  {| compileSfc := compileSfc s; cache := cache s; virtualToReal := virtualToReal s;
     isProduction := isProduction s; root := root s; server := server s;
     console := console s ++ [e] |}.

(** ** Computations over the session: state and exceptions *)

Definition M (A : Type) : Type := Session -> Session * outcome A.

Definition ret {A} (a : A) : M A := fun s => (s, Ok a).
Definition throw {A} (e : string) : M A := fun s => (s, Throw e).
Definition bind {A B} (m : M A) (k : A -> M B) : M B :=
  fun s => match m s with
           | (s', Ok a) => k a s'
           | (s', Throw e) => (s', Throw e)
           end.
Definition tryCatch {A} (m : M A) (handler : string -> M A) : M A :=
  fun s => match m s with
           | (s', Ok a) => (s', Ok a)
           | (s', Throw e) => handler e s'
           end.
Definition get : M Session := fun s => (s, Ok s).
Definition modify (f : Session -> Session) : M unit := fun s => (f s, Ok tt).
Definition lift {A} (o : outcome A) : M A := fun s => (s, o).
Definition log (e : LogEvent) : M unit := modify (add_log e).

Notation "x <- m ;; k" := (bind m (fun x => k))
  (at level 100, m at next level, right associativity).
Notation "m ;;; k" := (bind m (fun _ => k))
  (at level 100, right associativity).

Fixpoint forEach {A} (l : list A) (body : A -> M unit) : M unit :=
  match l with
  | [] => ret tt
  | x :: l' => body x ;;; forEach l' body
  end.

Definition LF : string := String (ascii_of_nat 10) EmptyString.

(** ** compiler.ts *)

Definition loadNative (h : Host) : M CompileSfcFn :=
  s <- get ;;
  match compileSfc s with
  | Some f => ret f
  | None =>
      match require_native h with
      | Ok f => modify (set_compileSfc f) ;;; ret f
      | Throw e =>
          throw ("Failed to load @vize/native. Make sure it's installed and built:"
                 +:+ LF +:+ e)
      end
  end.

(** The regular expression [/<style[^>]*\bscoped\b/]. *)
Module ScopedRegex.
Import JsString.

  (** [\w] *)
Definition isWord (c : ascii) : bool :=
    let n := nat_of_ascii c in
    ((48 <=? n) && (n <=? 57) || (65 <=? n) && (n <=? 90)
     || (97 <=? n) && (n <=? 122) || (n =? 95))%nat.

  (** [\b] between the end of [scoped] and the rest of the input. *)
Definition boundaryAfter (rest : string) : bool :=
    match rest with
    | EmptyString => true
    | String c _ => negb (isWord c)
    end.

  (** [[^>]*\bscoped\b] from a position whose preceding character is
      [prev]. *)
Fixpoint scopedAfter (prev : ascii) (s : string) : bool :=
    (negb (isWord prev) && startsWith s "scoped" && boundaryAfter (drop 6 s))
    || match s with
       | EmptyString => false
       | String c s' => if Ascii.eqb c ">" then false else scopedAfter c s'
       end.

Fixpoint test (s : string) : bool :=
    (startsWith s "<style" && scopedAfter "e" (drop 6 s))
    || match s with
       | EmptyString => false
       | String _ s' => test s'
       end.
End ScopedRegex.

Record CompileFileOptions := {
  cf_sourceMap : bool;
  cf_ssr : bool }.

(** [source ?? fs.readFileSync(filePath, 'utf-8')] *)
Definition readSource (h : Host) (filePath : string) (source : option string)
    : outcome string :=
  match source with
  | Some text => Ok text
  | None => readFileSync h filePath
  end.

(** The options object handed to the native compiler. *)
Definition napiOptions (filePath : string) (options : CompileFileOptions)
    (content : string) : SfcCompileOptionsNapi :=
  let scopeId_ := generateScopeId filePath in
  let hasScoped_ := ScopedRegex.test content in
  {| filename := filePath;
     opt_sourceMap := cf_sourceMap options;
     opt_ssr := cf_ssr options;
     opt_scopeId := if hasScoped_ then Some ("data-v-" +:+ scopeId_) else None |}.

(** [compileFile(filePath, cache, options, source?)]: the [cache] argument is
    the plugin's map, held in the session. *)
Definition compileFile (h : Host) (filePath : string) (options : CompileFileOptions)
    (source : option string) : M CompiledModule :=
  compile <- loadNative h ;;
  content <- lift (readSource h filePath source) ;;
  let scopeId_ := generateScopeId filePath in
  let hasScoped_ := ScopedRegex.test content in
  result <- lift (compile content (napiOptions filePath options content)) ;;
  (if (0 <? List.length (errors result))%nat
   then log (CompilationError filePath (String.concat LF (errors result)))
   else ret tt) ;;;
  (if (0 <? List.length (warnings result))%nat
   then forEach (warnings result) (fun warning => log (CompileWarning filePath warning))
   else ret tt) ;;;
  let compiled := {| code := res_code result;
                     css := res_css result;
                     scopeId := scopeId_;
                     hasScoped := hasScoped_ |} in
  modify (fun s => set_cache (<[filePath := compiled]> (cache s)) s) ;;;
  ret compiled.

(** ** utils.ts *)

Definition patternsOf (arg : option PatternArg) (fallback : list Pattern) : list Pattern :=
  match arg with
  | None => fallback
  | Some (POne (PString EmptyString)) => fallback
  | Some (POne p) => [p]
  | Some (PMany ps) => ps
  end.

Definition matchPattern (id : string) (pattern : Pattern) : bool :=
  match pattern with
  | PString s => JsString.includes id s
  | PRegExp test => test id
  end.

Definition createFilter (include_ exclude_ : option PatternArg) : string -> bool :=
  let includePatterns :=
    patternsOf include_ [PRegExp (fun id => JsString.endsWith id ".vue")] in
  let excludePatterns :=
    patternsOf exclude_ [PRegExp (fun id => JsString.includes id "node_modules")] in
  fun id =>
    let matchInclude := existsb (matchPattern id) includePatterns in
    let matchExclude := existsb (matchPattern id) excludePatterns in
    matchInclude && negb matchExclude.

(** The style-injection preamble, up to and including the line break that
    precedes the module text. *)
Definition styleInjection (cssCode cssId : string) : string :=
"
const __vize_css__ = " +:+ cssCode +:+ ";
const __vize_css_id__ = " +:+ cssId +:+ ";
(function() {
  if (typeof document !== 'undefined') {
    let style = document.getElementById(__vize_css_id__);
    if (!style) {
      style = document.createElement('style');
      style.id = __vize_css_id__;
      style.textContent = __vize_css__;
      document.head.appendChild(style);
    } else {
      style.textContent = __vize_css__;
    }
  }
})();
".

(** The hot-reload postscript. *)
Definition hmrBlock (hmrId : string) : string :=
"
if (import.meta.hot) {
  _sfc_main.__hmrId = " +:+ hmrId +:+ ";
  import.meta.hot.accept((mod) => {
    if (!mod) return;
    const { default: updated } = mod;
    if (typeof __VUE_HMR_RUNTIME__ !== 'undefined') {
      __VUE_HMR_RUNTIME__.reload(_sfc_main.__hmrId, updated);
    }
  });
  if (typeof __VUE_HMR_RUNTIME__ !== 'undefined') {
    __VUE_HMR_RUNTIME__.createRecord(_sfc_main.__hmrId, _sfc_main);
  }
}".

Definition generateOutput (compiled : CompiledModule) (isProduction_ isDev : bool) : string :=
  let output := code compiled in
  let hasExportDefault := JsString.includes output "export default" in
  let output :=
    if hasExportDefault
    then JsString.replace output "export default" "const _sfc_main ="
         +:+ LF +:+ "export default _sfc_main;"
    else output in
  let output :=
    if JsString.truthy (css compiled) then
      let cssCode := JsString.JSON_stringify (default EmptyString (css compiled)) in
      let cssId := JsString.JSON_stringify ("vize-style-" +:+ scopeId compiled) in
      styleInjection cssCode cssId +:+ output
    else output in
  let output :=
    if negb isProduction_ && isDev && hasExportDefault
    then output +:+ hmrBlock (JsString.JSON_stringify (scopeId compiled))
    else output in
  output.

(** ** index.ts *)

Definition VIRTUAL_PREFIX : string := String (ascii_of_nat 0) "vize:".

Inductive LoadResult :=
| LoadModule (code_ : string)
| LoadText (text : string)
| LoadNull.

Section Vize.
Import JsString.

  (** The [options] argument of [vize(options)]. *)
Variable options : VizeOptions.

Definition filter : string -> bool :=
    createFilter (include options) (exclude options).

Definition scanPatterns_ : list string :=
    default ["**/*.vue"] (scanPatterns options).

Definition ignorePatterns_ : list string :=
    default ["node_modules/**"; "dist/**"; ".git/**"] (ignorePatterns options).

  (** [{ sourceMap: options.sourceMap ?? !isProduction,
         ssr: options.ssr ?? false }] *)
Definition compileOptions (s : Session) : CompileFileOptions :=
    {| cf_sourceMap := default (negb (default false (isProduction s))) (sourceMap options);
       cf_ssr := default false (ssr options) |}.

Fixpoint compileAllLoop (h : Host) (files : list string)
      (successCount errorCount : nat) : M (nat * nat) :=
    match files with
    | [] => ret (successCount, errorCount)
    | file :: rest =>
        counts <- tryCatch
          (s <- get ;;
           compileFile h file (compileOptions s) None ;;;
           ret (S successCount, errorCount))
          (fun e =>
             log (FailedToCompile file e) ;;;
             ret (successCount, S errorCount)) ;;
        compileAllLoop h rest (fst counts) (snd counts)
    end.

Definition compileAll (h : Host) : M unit :=
    s <- get ;;
    files <- lift (glob h scanPatterns_ (root s) ignorePatterns_) ;;
    log (PreCompiling (List.length files)) ;;;
    counts <- compileAllLoop h files 0 0 ;;
    log (PreCompilationComplete (fst counts) (snd counts)).

  (** [virtualToReal.get(id) ?? id.slice(VIRTUAL_PREFIX.length)] *)
Definition realPathOf (table : gmap string string) (id : string) : string :=
    default (sliceFrom id (String.length VIRTUAL_PREFIX)) (table !! id).

  (** [id.startsWith(VIRTUAL_PREFIX) ? virtualToReal.get(id) ?? id.slice(...) : id] *)
Definition toRealPath (table : gmap string string) (id : string) : string :=
    if startsWith id VIRTUAL_PREFIX then realPathOf table id else id.

Definition resolveVuePath (h : Host) (id : string) (importer : option string) : M string :=
    s <- get ;;
    resolved <-
      (if path_isAbsolute h id then ret id
       else if truthy importer then
         let importer_ := default EmptyString importer in
         let realImporter := toRealPath (virtualToReal s) importer_ in
         ret (path_resolve h (path_dirname h realImporter) id)
       else
         match root s with
         | Some r => ret (path_resolve h r id)
         | None => throw "TypeError [ERR_INVALID_ARG_TYPE]"
         end) ;;
    ret (path_normalize h resolved).

  (** *** The hooks *)

Definition configResolved (resolvedConfig : ResolvedConfig) : M unit :=
    modify (set_config
              (default (rc_isProduction resolvedConfig) (vo_isProduction options))
              (default (rc_root resolvedConfig) (vo_root options))).

Definition configureServer (devServer : ViteDevServer) : M unit :=
    modify (set_server devServer).

Definition buildStart (h : Host) : M unit := compileAll h.

  (** [null] is [None]. *)
Definition resolveId (h : Host) (id : string) (importer : option string)
      : M (option string) :=
    if includes id "?vue&type=style" then ret (Some id)
    else if endsWith id ".vue" then
      resolved <- resolveVuePath h id importer ;;
      s <- get ;;
      match cache s !! resolved with
      | Some _ =>
          let virtualId := VIRTUAL_PREFIX +:+ resolved in
          modify (set_virtualToReal (<[virtualId := resolved]> (virtualToReal s))) ;;;
          ret (Some virtualId)
      | None => ret None
      end
    else ret None.

  (** [load] reads the session and changes nothing. *)
Definition load (s : Session) (id : string) : LoadResult :=
    if includes id "?vue&type=style" then
      let filename_ := beforeFirst "?" id in
      let realPath := toRealPath (virtualToReal s) filename_ in
      match cache s !! realPath with
      | Some compiled =>
          if truthy (css compiled) then LoadText (default EmptyString (css compiled))
          else LoadText EmptyString
      | None => LoadText EmptyString
      end
    else if startsWith id VIRTUAL_PREFIX then
      let realPath := realPathOf (virtualToReal s) id in
      match cache s !! realPath with
      | Some compiled =>
          LoadModule (generateOutput compiled (default false (isProduction s))
                        (match server s with Some _ => true | None => false end))
      | None => LoadNull
      end
    else LoadNull.

  (** [undefined] is [None]. *)
Definition handleHotUpdate (h : Host) (ctx : HmrContext)
      : M (option (list ModuleNode)) :=
    let file := ctx_file ctx in
    if endsWith file ".vue" && filter file then
      tryCatch
        (source <- lift (ctx_read ctx) ;;
         s <- get ;;
         compileFile h file (compileOptions s) (Some source) ;;;
         s' <- get ;;
         match root s' with
         | Some r => log (ReCompiled r file)
         | None => throw "TypeError [ERR_INVALID_ARG_TYPE]"
         end)
        (fun e => log (ReCompilationFailed file e)) ;;;
      let virtualId := VIRTUAL_PREFIX +:+ file in
      let modules :=
        match getModulesByFile (ctx_server ctx) virtualId with
        | Some ms => Some ms
        | None => getModulesByFile (ctx_server ctx) file
        end in
      ret modules
    else ret None.

  (** *** Sessions a host can drive the plugin into *)

Inductive HookCall :=
  | CallConfigResolved (resolvedConfig : ResolvedConfig)
  | CallConfigureServer (devServer : ViteDevServer)
  | CallBuildStart
  | CallResolveId (id : string) (importer : option string)
  | CallLoad (id : string)
  | CallHandleHotUpdate (ctx : HmrContext).

Definition runHook (h : Host) (c : HookCall) (s : Session) : Session :=
    match c with
    | CallConfigResolved rc => fst (configResolved rc s)
    | CallConfigureServer d => fst (configureServer d s)
    | CallBuildStart => fst (buildStart h s)
    | CallResolveId id importer => fst (resolveId h id importer s)
    | CallLoad _ => s
    | CallHandleHotUpdate ctx => fst (handleHotUpdate h ctx s)
    end.

Inductive reachable : Session -> Prop :=
  | reachable_initial : reachable initial
  | reachable_step h c s : reachable s -> reachable (runHook h c s).

End Vize.

(** ** The page the emitted routines run on

    [generateOutput] emits two small routines as text, which the browser
    runs.  The document of the page is reduced to its elements, in document
    order. *)

Module Emitted.

Record Element := {
    tagName : string;
    elementId : string;
    textContent : string }.

Definition Document : Type := list Element.




End Emitted.

(** ** A project to run the plugin on *)

Module Sample.
Import JsString.

Definition compileSfc_ : CompileSfcFn := fun content opts =>
    if String.eqb content EmptyString then Throw "empty input"
    else Ok {| res_code := "export default { name: 'C' }";
               res_css := if includes content "<style" then Some ".a{color:red}" else None;
               errors := if includes content "<div" then ["Element is missing end tag."] else [];
               warnings := [] |}.

Definition files : list (string * string) :=
    [ ("/app/src/A.vue", "<template><p/></template>");
      ("/app/src/B.vue", "<template><p/></template><style scoped>.a{color:red}</style>");
      ("/app/src/Broken.vue", "<template><div></template>") ].

Fixpoint readFile (fs : list (string * string)) (p : string) : outcome string :=
    match fs with
    | [] => Throw ("ENOENT: no such file or directory, open '" +:+ p +:+ "'")
    | (q, text) :: rest => if String.eqb p q then Ok text else readFile rest p
    end.

Definition host (fs : list (string * string)) (found : list string) : Host :=
    {| require_native := Ok compileSfc_;
       readFileSync := readFile fs;
       glob := fun _ _ _ => Ok found;
       path_isAbsolute := NodePath.isAbsolute;
       path_resolve := fun a b => NodePath.resolve "/app" [a; b];
       path_dirname := NodePath.dirname;
       path_normalize := NodePath.normalize |}.

Definition options : VizeOptions :=
    {| include := None; exclude := None; scanPatterns := None; ignorePatterns := None;
       sourceMap := None; ssr := None; vo_isProduction := None; vo_root := None |}.

Definition config : ResolvedConfig := {| rc_isProduction := false; rc_root := "/app" |}.

Definition configured : Session := fst (configResolved options config initial).

Definition artifact : CompiledModule :=
    {| code := "export default { name: 'C' }"; css := Some ".a{color:red}";
       scopeId := "c0cc6f12"; hasScoped := true |}.

Definition found : list string :=
  ["/app/src/A.vue"; "/app/src/B.vue"; "/app/src/Broken.vue"; "/app/src/Gone.vue"].

(** The project as the startup pass finds it; [Gone.vue] is listed by the
    scan and cannot be read. *)
Definition project : Host := host files found.

Definition brokenResult : SfcCompileResultNapi :=
  {| res_code := "export default { name: 'C' }"; res_css := None;
     errors := ["Element is missing end tag."]; warnings := [] |}.

Definition twoExports : CompiledModule :=
  {| code := "const a = 1; export default { note: 'export default' }";
     css := None; scopeId := "c0cc6f12"; hasScoped := false |}.


Definition page : Emitted.Document :=
  [ {| Emitted.tagName := "div"; Emitted.elementId := "app"; Emitted.textContent := EmptyString |} ].

Definition devOptions : CompileFileOptions := {| cf_sourceMap := true; cf_ssr := false |}.

(** A project of two files, one of which the compiler reports an error
    for. *)
Definition smallProject : Host := host files ["/app/src/A.vue"; "/app/src/Broken.vue"].

(** The session after the startup pass. *)
Definition started : Session := fst (buildStart options project configured).

(** The session a host reaches by configuring, scanning and resolving the
    import of [./B.vue] from [A.vue]. *)
Definition resolved : Session :=
  runHook options project (CallResolveId "./B.vue" (Some "/app/src/A.vue"))
    (runHook options project CallBuildStart
       (runHook options project (CallConfigResolved config) initial)).

Definition styleRequest : string := "/app/src/B.vue?vue&type=style&index=0&lang.css".

End Sample.

(** ** Vocabulary of the statements *)

(** The compiler function [loadNative] hands out in session [s]. *)
Definition nativeOf (h : Host) (s : Session) : outcome CompileSfcFn :=
  snd (loadNative h s).

(** What one successful call of [compileFile] prints. *)
Definition compileLogs (filePath : string) (result : SfcCompileResultNapi) : list LogEvent :=
  ((if (0 <? List.length (errors result))%nat
    then [CompilationError filePath (String.concat LF (errors result))]
    else [])
   ++ List.map (CompileWarning filePath) (warnings result))%list.

(** The artifact [compileFile] builds from a compiler result. *)
Definition artifactOf (filePath content : string) (result : SfcCompileResultNapi)
    : CompiledModule :=
  {| code := res_code result;
     css := res_css result;
     scopeId := generateScopeId filePath;
     hasScoped := ScopedRegex.test content |}.

(** The startup pass's compile attempt on [file] throws. *)
Definition attemptThrows (options : VizeOptions) (h : Host) (s : Session)
    (file : string) : bool :=
  match snd (compileFile h file (compileOptions options s) None s) with
  | Throw _ => true
  | Ok _ => false
  end.

(** Every key of the table carries the prefix and maps to the rest of the
    key. *)
Definition registryInvariant (table : gmap string string) : Prop :=
  forall id path,
    table !! id = Some path ->
    JsString.startsWith id VIRTUAL_PREFIX = true
    /\ path = JsString.sliceFrom id (String.length VIRTUAL_PREFIX).

Definition isCompilationError (e : LogEvent) : bool :=
  match e with CompilationError _ _ => true | _ => false end.

(** What compiling never touches: the registry, the configuration and the
    compiler binding in use. *)
Definition sameSetup (h : Host) (s s' : Session) : Prop :=
  virtualToReal s' = virtualToReal s /\ isProduction s' = isProduction s
  /\ root s' = root s /\ server s' = server s /\ nativeOf h s' = nativeOf h s.

(** The three parts of the text [generateOutput] returns: the module text
    after the default-export step, what is put before it and what is put
    after it. *)
Definition moduleBody (compiled : CompiledModule) : string :=
  if JsString.includes (code compiled) "export default"
  then JsString.replace (code compiled) "export default" "const _sfc_main ="
       +:+ LF +:+ "export default _sfc_main;"
  else code compiled.

Definition stylePreamble (compiled : CompiledModule) : string :=
  if JsString.truthy (css compiled)
  then styleInjection (JsString.JSON_stringify (default EmptyString (css compiled)))
         (JsString.JSON_stringify ("vize-style-" +:+ scopeId compiled))
  else EmptyString.


Definition hmrPostscript (compiled : CompiledModule) (isProduction_ isDev : bool) : string :=
  if negb isProduction_ && isDev && JsString.includes (code compiled) "export default"
  then hmrBlock (JsString.JSON_stringify (scopeId compiled))
  else EmptyString.

(** ** Reading a string literal back

    The value of a double-quoted JavaScript string literal, for the escapes
    [JSON.stringify] writes: the single-character escapes and [\u] followed
    by four hexadecimal digits.  A raw line break, a missing closing quote
    or another escape has no value here. *)

Module JsLiteral.
Import JsString.

Definition hexValue (c : ascii) : option nat :=
  let n := nat_of_ascii c in
  (if (48 <=? n) && (n <=? 57) then Some (n - 48)
   else if (97 <=? n) && (n <=? 102) then Some (n - 87)
   else if (65 <=? n) && (n <=? 70) then Some (n - 55)
   else None)%nat.

Definition singleEscape (e : ascii) : option ascii :=
  match nat_of_ascii e with
  | 98 => Some (ascii_of_nat 8)
  | 116 => Some (ascii_of_nat 9)
  | 110 => Some (ascii_of_nat 10)
  | 102 => Some (ascii_of_nat 12)
  | 114 => Some (ascii_of_nat 13)
  | 34 => Some dquote
  | 92 => Some backslash
  | _ => None
  end.

Fixpoint valueOfBody (s : string) : option string :=
  match s with
  | EmptyString => None
  | String c rest =>
      if Ascii.eqb c dquote then
        match rest with EmptyString => Some EmptyString | String _ _ => None end
      else if Ascii.eqb c backslash then
        match rest with
        | EmptyString => None
        | String e rest' =>
            if Ascii.eqb e "u" then
              match rest' with
              | String h1 (String h2 (String h3 (String h4 rest''))) =>
                  match hexValue h1, hexValue h2, hexValue h3, hexValue h4 with
                  | Some a, Some b, Some c', Some d =>
                      let n := (((a * 16 + b) * 16 + c') * 16 + d)%nat in
                      if (n <? 128)%nat then option_map (String (ascii_of_nat n)) (valueOfBody rest'')
                      else None
                  | _, _, _, _ => None
                  end
              | _ => None
              end
            else
              match singleEscape e with
              | Some v => option_map (String v) (valueOfBody rest')
              | None => None
              end
        end
      else if ((nat_of_ascii c =? 10) || (nat_of_ascii c =? 13))%nat then None
      else option_map (String c) (valueOfBody rest)
  end.

Definition valueOf (literal : string) : option string :=
  match literal with
  | EmptyString => None
  | String c rest => if Ascii.eqb c dquote then valueOfBody rest else None
  end.

End JsLiteral.

(** ** Running the emitted routines

    The style preamble and the hot-reload postscript are JavaScript text.
    This module reads such text (a lexer and a parser for the statements and
    expressions the two templates are written in) and runs it on a model of
    the page: the elements of the document, the elements created and not
    yet attached, plain objects with their properties, the callbacks handed
    to [import.meta.hot.accept] and the calls that reached the framework's
    hot-reload runtime.  Text outside the fragment has no reading, and a
    program that throws, leaves the fragment or nests deeper than the run allows has no
    result. *)

Module MiniJs.

(** *** Tokens *)

Inductive keyword := KConst | KLet | KIf | KElse | KFunction | KReturn | KTypeof.

Inductive punct :=
| PLParen | PRParen | PLBrace | PRBrace | PSemi | PComma | PDot | PColon
| PAssign | PNot | PStrictNe | PArrow.

Inductive token :=
| TStr (value : string)
| TIdent (name : string)
| TKeyword (k : keyword)
| TPunct (p : punct).

Definition wordToken (w : string) : token :=
  if String.eqb w "const" then TKeyword KConst
  else if String.eqb w "let" then TKeyword KLet
  else if String.eqb w "if" then TKeyword KIf
  else if String.eqb w "else" then TKeyword KElse
  else if String.eqb w "function" then TKeyword KFunction
  else if String.eqb w "return" then TKeyword KReturn
  else if String.eqb w "typeof" then TKeyword KTypeof
  else TIdent w.

Definition opToken (o : string) : option token :=
  if String.eqb o "=" then Some (TPunct PAssign)
  else if String.eqb o "!" then Some (TPunct PNot)
  else if String.eqb o "!==" then Some (TPunct PStrictNe)
  else if String.eqb o "=>" then Some (TPunct PArrow)
  else None.

Definition singlePunct (c : ascii) : option punct :=
  match nat_of_ascii c with
  | 40 => Some PLParen
  | 41 => Some PRParen
  | 123 => Some PLBrace
  | 125 => Some PRBrace
  | 59 => Some PSemi
  | 44 => Some PComma
  | 46 => Some PDot
  | 58 => Some PColon
  | _ => None
  end.

Definition isSpace (c : ascii) : bool :=
  let n := nat_of_ascii c in
  ((n =? 32) || (n =? 10) || (n =? 13) || (n =? 9))%nat.

Definition isIdentStart (c : ascii) : bool :=
  let n := nat_of_ascii c in
  ((65 <=? n) && (n <=? 90) || (97 <=? n) && (n <=? 122) || (n =? 95) || (n =? 36))%nat.

Definition isIdentPart (c : ascii) : bool :=
  let n := nat_of_ascii c in
  (isIdentStart c || (48 <=? n) && (n <=? 57))%nat.

Definition isOpChar (c : ascii) : bool :=
  let n := nat_of_ascii c in
  ((n =? 33) || (n =? 61) || (n =? 62))%nat.

Definition isQuote (c : ascii) : bool :=
  let n := nat_of_ascii c in
  ((n =? 34) || (n =? 39))%nat.

(** The character an escape stands for inside a string literal. *)
Definition escaped (e : ascii) : option ascii :=
  if (nat_of_ascii e =? 39)%nat then Some e else JsLiteral.singleEscape e.

(** *** The lexer: one character at a time *)

Inductive mode :=
| MNormal
| MWord (acc : string)
| MOp (acc : string)
| MString (quote : ascii) (acc : string)
| MEscape (quote : ascii) (acc : string)
| MUnicode (quote : ascii) (acc : string) (digits : list nat).

(** The tokens read so far and what is being read; [None] after a character
    that fits nowhere. *)
Definition lexer : Type := option (list token * mode).

Definition snoc (s : string) (c : ascii) : string := s +:+ String c EmptyString.

Definition startChar (toks : list token) (c : ascii) : lexer :=
  if isSpace c then Some (toks, MNormal)
  else if isIdentStart c then Some (toks, MWord (String c EmptyString))
  else if isOpChar c then Some (toks, MOp (String c EmptyString))
  else if isQuote c then Some (toks, MString c EmptyString)
  else match singlePunct c with
       | Some p => Some ((toks ++ [TPunct p])%list, MNormal)
       | None => None
       end.

Definition step (l : lexer) (c : ascii) : lexer :=
  match l with
  | None => None
  | Some (toks, MNormal) => startChar toks c
  | Some (toks, MWord acc) =>
      if isIdentPart c then Some (toks, MWord (snoc acc c))
      else startChar (toks ++ [wordToken acc])%list c
  | Some (toks, MOp acc) =>
      if isOpChar c then Some (toks, MOp (snoc acc c))
      else match opToken acc with
           | Some t => startChar (toks ++ [t])%list c
           | None => None
           end
  | Some (toks, MString q acc) =>
      if Ascii.eqb c q then Some ((toks ++ [TStr acc])%list, MNormal)
      else if Ascii.eqb c JsString.backslash then Some (toks, MEscape q acc)
      else if ((nat_of_ascii c =? 10) || (nat_of_ascii c =? 13))%nat then None
      else Some (toks, MString q (snoc acc c))
  | Some (toks, MEscape q acc) =>
      if Ascii.eqb c "u" then Some (toks, MUnicode q acc [])
      else match escaped c with
           | Some v => Some (toks, MString q (snoc acc v))
           | None => None
           end
  | Some (toks, MUnicode q acc digits) =>
      match JsLiteral.hexValue c with
      | None => None
      | Some d =>
          match digits with
          | [d1; d2; d3] =>
              let n := (((d1 * 16 + d2) * 16 + d3) * 16 + d)%nat in
              if (n <? 128)%nat then Some (toks, MString q (snoc acc (ascii_of_nat n)))
              else None
          | _ => Some (toks, MUnicode q acc (digits ++ [d])%list)
          end
      end
  end.

Fixpoint feed (l : lexer) (s : string) : lexer :=
  match s with
  | EmptyString => l
  | String c s' => feed (step l c) s'
  end.

Definition finish (l : lexer) : option (list token) :=
  match l with
  | Some (toks, MNormal) => Some toks
  | Some (toks, MWord acc) => Some (toks ++ [wordToken acc])%list
  | Some (toks, MOp acc) =>
      match opToken acc with
      | Some t => Some (toks ++ [t])%list
      | None => None
      end
  | _ => None
  end.

Definition lex (text : string) : option (list token) :=
  finish (feed (Some ([], MNormal)) text).

(** *** Syntax *)

Inductive expr :=
| EStr (s : string)
| EVar (x : string)
| EMember (e : expr) (name : string)
| ECall (f : expr) (args : list expr)
| ENot (e : expr)
| ETypeof (e : expr)
| EStrictNe (a b : expr)
| EFunction (params : list string) (body : list stmt)
with stmt :=
| SDeclare (mutable : bool) (x : string) (e : expr)
| SDestructure (bindings : list (string * string)) (e : expr)
| SAssign (target : expr) (e : expr)
| SExpr (e : expr)
| SIf (cond : expr) (thenBranch elseBranch : list stmt)
| SReturn (e : option expr).

(** *** The parser, by recursive descent

    Each function takes the number of nested calls it may still make. *)

Fixpoint parseParams (n : nat) (ts : list token) : option (list string * list token) :=
  match n with
  | O => None
  | S n' =>
      match ts with
      | TPunct PRParen :: ts' => Some ([], ts')
      | TIdent x :: TPunct PRParen :: ts' => Some ([x], ts')
      | TIdent x :: TPunct PComma :: ts' =>
          match parseParams n' ts' with
          | Some (rest, ts'') => Some (x :: rest, ts'')
          | None => None
          end
      | _ => None
      end
  end.

Fixpoint parseExpr (n : nat) (ts : list token) : option (expr * list token) :=
  match n with
  | O => None
  | S n' =>
      match parseUnary n' ts with
      | Some (a, TPunct PStrictNe :: ts') =>
          match parseUnary n' ts' with
          | Some (b, ts'') => Some (EStrictNe a b, ts'')
          | None => None
          end
      | other => other
      end
  end
with parseUnary (n : nat) (ts : list token) : option (expr * list token) :=
  match n with
  | O => None
  | S n' =>
      match ts with
      | TPunct PNot :: ts' =>
          match parseUnary n' ts' with
          | Some (e, ts'') => Some (ENot e, ts'')
          | None => None
          end
      | TKeyword KTypeof :: ts' =>
          match parseUnary n' ts' with
          | Some (e, ts'') => Some (ETypeof e, ts'')
          | None => None
          end
      | _ =>
          match parsePrimary n' ts with
          | Some (e, ts') => parsePostfix n' e ts'
          | None => None
          end
      end
  end
with parsePrimary (n : nat) (ts : list token) : option (expr * list token) :=
  match n with
  | O => None
  | S n' =>
      match ts with
      | TStr s :: ts' => Some (EStr s, ts')
      | TIdent x :: ts' => Some (EVar x, ts')
      | TKeyword KFunction :: TPunct PLParen :: ts' =>
          match parseParams n' ts' with
          | Some (params, TPunct PLBrace :: ts'') =>
              match parseStmts n' ts'' with
              | Some (body, TPunct PRBrace :: ts''') => Some (EFunction params body, ts''')
              | _ => None
              end
          | _ => None
          end
      | TPunct PLParen :: TPunct PRParen :: TPunct PArrow :: TPunct PLBrace :: ts' =>
          match parseStmts n' ts' with
          | Some (body, TPunct PRBrace :: ts'') => Some (EFunction [] body, ts'')
          | _ => None
          end
      | TPunct PLParen :: TIdent x :: TPunct PRParen :: TPunct PArrow
          :: TPunct PLBrace :: ts' =>
          match parseStmts n' ts' with
          | Some (body, TPunct PRBrace :: ts'') => Some (EFunction [x] body, ts'')
          | _ => None
          end
      | TPunct PLParen :: ts' =>
          match parseExpr n' ts' with
          | Some (e, TPunct PRParen :: ts'') => Some (e, ts'')
          | _ => None
          end
      | _ => None
      end
  end
with parsePostfix (n : nat) (e : expr) (ts : list token) : option (expr * list token) :=
  match n with
  | O => None
  | S n' =>
      match ts with
      | TPunct PDot :: TIdent name :: ts' => parsePostfix n' (EMember e name) ts'
      | TPunct PLParen :: ts' =>
          match parseArgs n' ts' with
          | Some (args, ts'') => parsePostfix n' (ECall e args) ts''
          | None => None
          end
      | _ => Some (e, ts)
      end
  end
with parseArgs (n : nat) (ts : list token) : option (list expr * list token) :=
  match n with
  | O => None
  | S n' =>
      match ts with
      | TPunct PRParen :: ts' => Some ([], ts')
      | _ =>
          match parseExpr n' ts with
          | Some (e, TPunct PComma :: ts') =>
              match parseArgs n' ts' with
              | Some (rest, ts'') => Some (e :: rest, ts'')
              | None => None
              end
          | Some (e, TPunct PRParen :: ts') => Some ([e], ts')
          | _ => None
          end
      end
  end
with parseStmt (n : nat) (ts : list token) : option (stmt * list token) :=
  match n with
  | O => None
  | S n' =>
      match ts with
      | TKeyword KConst :: TPunct PLBrace :: TIdent prop :: TPunct PColon :: TIdent x
          :: TPunct PRBrace :: TPunct PAssign :: ts' =>
          match parseExpr n' ts' with
          | Some (e, TPunct PSemi :: ts'') => Some (SDestructure [(prop, x)] e, ts'')
          | _ => None
          end
      | TKeyword KConst :: TIdent x :: TPunct PAssign :: ts' =>
          match parseExpr n' ts' with
          | Some (e, TPunct PSemi :: ts'') => Some (SDeclare false x e, ts'')
          | _ => None
          end
      | TKeyword KLet :: TIdent x :: TPunct PAssign :: ts' =>
          match parseExpr n' ts' with
          | Some (e, TPunct PSemi :: ts'') => Some (SDeclare true x e, ts'')
          | _ => None
          end
      | TKeyword KReturn :: TPunct PSemi :: ts' => Some (SReturn None, ts')
      | TKeyword KReturn :: ts' =>
          match parseExpr n' ts' with
          | Some (e, TPunct PSemi :: ts'') => Some (SReturn (Some e), ts'')
          | _ => None
          end
      | TKeyword KIf :: TPunct PLParen :: ts' =>
          match parseExpr n' ts' with
          | Some (c, TPunct PRParen :: ts'') =>
              match parseBody n' ts'' with
              | Some (thenBranch, TKeyword KElse :: ts''') =>
                  match parseBody n' ts''' with
                  | Some (elseBranch, ts'''') => Some (SIf c thenBranch elseBranch, ts'''')
                  | None => None
                  end
              | Some (thenBranch, ts''') => Some (SIf c thenBranch [], ts''')
              | None => None
              end
          | _ => None
          end
      | _ =>
          match parseExpr n' ts with
          | Some (target, TPunct PAssign :: ts') =>
              match parseExpr n' ts' with
              | Some (e, TPunct PSemi :: ts'') => Some (SAssign target e, ts'')
              | _ => None
              end
          | Some (e, TPunct PSemi :: ts') => Some (SExpr e, ts')
          | _ => None
          end
      end
  end
with parseBody (n : nat) (ts : list token) : option (list stmt * list token) :=
  match n with
  | O => None
  | S n' =>
      match ts with
      | TPunct PLBrace :: ts' =>
          match parseStmts n' ts' with
          | Some (body, TPunct PRBrace :: ts'') => Some (body, ts'')
          | _ => None
          end
      | _ =>
          match parseStmt n' ts with
          | Some (s, ts') => Some ([s], ts')
          | None => None
          end
      end
  end
with parseStmts (n : nat) (ts : list token) : option (list stmt * list token) :=
  match n with
  | O => None
  | S n' =>
      match ts with
      | [] => Some ([], [])
      | TPunct PRBrace :: _ => Some ([], ts)
      | _ =>
          match parseStmt n' ts with
          | Some (s, ts') =>
              match parseStmts n' ts' with
              | Some (rest, ts'') => Some (s :: rest, ts'')
              | None => None
              end
          | None => None
          end
      end
  end.

(** A program: statements up to the end of the text. *)
Definition parseProgram (ts : list token) : option (list stmt) :=
  match parseStmts (S (List.length ts) * 8) ts with
  | Some (program, []) => Some program
  | _ => None
  end.

Definition parse (text : string) : option (list stmt) :=
  match lex text with
  | Some ts => parseProgram ts
  | None => None
  end.

(** *** The page *)

(** A reference to an element: one found in the document, by its position,
    or one made by [createElement], by its rank among those. *)
Inductive elemRef :=
| Attached (position : nat)
| Created (index : nat).

Inductive hostObject := HDocument | HHead | HImport | HImportMeta | HHot | HRuntime.

Inductive value :=
| VUndefined
| VNull
| VStr (s : string)
| VBool (b : bool)
| VElem (r : elemRef)
| VObj (o : nat)
| VHost (h : hostObject)
| VMethod (h : hostObject) (name : string)
| VClosure (params : list string) (body : list stmt)
    (env : list (list (string * (bool * value)))).

(** A scope binds names: whether the name may be assigned ([let], a
    parameter) and its value.  The environment is the chain of scopes, the
    innermost first. *)
Definition Scope : Type := list (string * (bool * value)).
Definition Env : Type := list Scope.

(** An element made by [createElement]: still on its own, or attached at a
    position of the document. *)
Inductive slot :=
| Free (e : Emitted.Element)
| Appended (position : nat).

(** The calls that reached [__VUE_HMR_RUNTIME__]. *)
Inductive HmrCall :=
| Reload (id updated : value)
| CreateRecord (id component : value).

(** [document] is [None] where the runtime has no [document]; [hot] tells
    whether [import.meta.hot] is defined and [hmrRuntime] whether
    [__VUE_HMR_RUNTIME__] is; [objects] holds the properties of the plain
    objects, a value [VObj o] naming the one at rank [o]. *)
Record Page := {
  document : option Emitted.Document;
  created : list slot;
  hot : bool;
  hmrRuntime : bool;
  objects : list (gmap string value);
  accepted : list value;
  hmrCalls : list HmrCall }.

Definition withDocument (d : Emitted.Document) (p : Page) : Page :=
  {| document := Some d; created := created p; hot := hot p; hmrRuntime := hmrRuntime p;
     objects := objects p; accepted := accepted p; hmrCalls := hmrCalls p |}.

Definition withCreated (c : list slot) (p : Page) : Page :=
  {| document := document p; created := c; hot := hot p; hmrRuntime := hmrRuntime p;
     objects := objects p; accepted := accepted p; hmrCalls := hmrCalls p |}.

Definition withObjects (o : list (gmap string value)) (p : Page) : Page :=
  {| document := document p; created := created p; hot := hot p;
     hmrRuntime := hmrRuntime p; objects := o; accepted := accepted p;
     hmrCalls := hmrCalls p |}.

Definition withAccepted (a : list value) (p : Page) : Page :=
  {| document := document p; created := created p; hot := hot p;
     hmrRuntime := hmrRuntime p; objects := objects p; accepted := a;
     hmrCalls := hmrCalls p |}.

Definition withHmrCalls (c : list HmrCall) (p : Page) : Page :=
  {| document := document p; created := created p; hot := hot p;
     hmrRuntime := hmrRuntime p; objects := objects p; accepted := accepted p;
     hmrCalls := c |}.

(** *** Looking up *)

(** The position of the first element carrying the id. *)
Fixpoint findIndex (id : string) (doc : Emitted.Document) : option nat :=
  match doc with
  | [] => None
  | e :: rest =>
      if String.eqb (Emitted.elementId e) id then Some O
      else option_map S (findIndex id rest)
  end.

Fixpoint bound {A} (scope : list (string * A)) (name : string) : option A :=
  match scope with
  | [] => None
  | (k, v) :: rest => if String.eqb k name then Some v else bound rest name
  end.

Fixpoint rebind {A} (scope : list (string * A)) (name : string) (v : A)
    : list (string * A) :=
  match scope with
  | [] => []
  | (k, w) :: rest =>
      if String.eqb k name then (k, v) :: rest else (k, w) :: rebind rest name v
  end.

(** *** Elements *)

Definition elementAt (p : Page) (r : elemRef) : option Emitted.Element :=
  match r with
  | Attached i =>
      match document p with
      | Some doc => doc !! i
      | None => None
      end
  | Created k =>
      match created p !! k with
      | Some (Free e) => Some e
      | Some (Appended i) =>
          match document p with
          | Some doc => doc !! i
          | None => None
          end
      | None => None
      end
  end.

(** Changing an element in place: in the document when it is attached, on
    its own otherwise.  References are made by the page and nothing is ever
    removed from it, so a reference always has its element. *)
Definition onFree (f : Emitted.Element -> Emitted.Element) (s : slot) : slot :=
  match s with
  | Free e => Free (f e)
  | Appended i => Appended i
  end.

Definition updateElement (r : elemRef) (f : Emitted.Element -> Emitted.Element) (p : Page)
    : Page :=
  match r with
  | Attached i =>
      {| document := alter f i <$> document p; created := created p; hot := hot p;
         hmrRuntime := hmrRuntime p; objects := objects p; accepted := accepted p;
         hmrCalls := hmrCalls p |}
  | Created k =>
      {| document :=
           (fun doc => match created p !! k with
                       | Some (Appended i) => alter f i doc
                       | _ => doc
                       end) <$> document p;
         created := alter (onFree f) k (created p); hot := hot p;
         hmrRuntime := hmrRuntime p; objects := objects p; accepted := accepted p;
         hmrCalls := hmrCalls p |}
  end.

Definition setId (s : string) (e : Emitted.Element) : Emitted.Element :=
  {| Emitted.tagName := Emitted.tagName e; Emitted.elementId := s;
     Emitted.textContent := Emitted.textContent e |}.

Definition setText (s : string) (e : Emitted.Element) : Emitted.Element :=
  {| Emitted.tagName := Emitted.tagName e; Emitted.elementId := Emitted.elementId e;
     Emitted.textContent := s |}.

(** *** Values *)

Definition truthy (v : value) : bool :=
  match v with
  | VUndefined | VNull => false
  | VStr EmptyString => false
  | VBool b => b
  | _ => true
  end.

Definition typeOf (v : value) : string :=
  match v with
  | VUndefined => "undefined"
  | VNull => "object"
  | VStr _ => "string"
  | VBool _ => "boolean"
  | VElem _ | VObj _ | VHost _ => "object"
  | VMethod _ _ | VClosure _ _ _ => "function"
  end.

Definition isPrimitive (v : value) : bool :=
  match v with
  | VUndefined | VNull | VStr _ | VBool _ => true
  | _ => false
  end.

(** [a !== b], between primitive values. *)
Definition strictNe (a b : value) : option bool :=
  match a, b with
  | VStr x, VStr y => Some (negb (String.eqb x y))
  | VBool x, VBool y => Some (negb (Bool.eqb x y))
  | VUndefined, VUndefined | VNull, VNull => Some false
  | _, _ => if isPrimitive a && isPrimitive b then Some true else None
  end.

(** A name that is not bound by the program: a global of the page. *)
Definition globalValue (p : Page) (x : string) : option value :=
  if String.eqb x "document" then
    match document p with Some _ => Some (VHost HDocument) | None => None end
  else if String.eqb x "__VUE_HMR_RUNTIME__" then
    if hmrRuntime p then Some (VHost HRuntime) else None
  else if String.eqb x "import" then Some (VHost HImport)
  else None.

Fixpoint binding (env : Env) (x : string) : option (bool * value) :=
  match env with
  | [] => None
  | scope :: outer =>
      match bound scope x with
      | Some b => Some b
      | None => binding outer x
      end
  end.

Definition valueOf (p : Page) (env : Env) (x : string) : option value :=
  match binding env x with
  | Some (_, v) => Some v
  | None => globalValue p x
  end.

(** [v.name]; reading a property of [undefined] or [null] throws. *)
Definition getMember (p : Page) (v : value) (name : string) : option value :=
  match v with
  | VUndefined | VNull => None
  | VHost HDocument =>
      if String.eqb name "getElementById" || String.eqb name "createElement"
      then Some (VMethod HDocument name)
      else if String.eqb name "head" then Some (VHost HHead)
      else Some VUndefined
  | VHost HHead =>
      if String.eqb name "appendChild" then Some (VMethod HHead name) else Some VUndefined
  | VHost HImport =>
      if String.eqb name "meta" then Some (VHost HImportMeta) else None
  | VHost HImportMeta =>
      if String.eqb name "hot"
      then Some (if hot p then VHost HHot else VUndefined)
      else Some VUndefined
  | VHost HHot =>
      if String.eqb name "accept" then Some (VMethod HHot name) else Some VUndefined
  | VHost HRuntime =>
      if String.eqb name "reload" || String.eqb name "createRecord"
      then Some (VMethod HRuntime name)
      else Some VUndefined
  | VElem r =>
      match elementAt p r with
      | Some e =>
          if String.eqb name "id" then Some (VStr (Emitted.elementId e))
          else if String.eqb name "textContent" then Some (VStr (Emitted.textContent e))
          else Some VUndefined
      | None => None
      end
  | VObj o => Some (default VUndefined (objects p !! o ≫= lookup name))
  | VStr _ | VBool _ | VMethod _ _ | VClosure _ _ _ => Some VUndefined
  end.

(** [v.name = x], for elements and plain objects. *)
Definition setMember (p : Page) (v : value) (name : string) (x : value) : option Page :=
  match v with
  | VElem r =>
      match x with
      | VStr s =>
          if String.eqb name "id" then Some (updateElement r (setId s) p)
          else if String.eqb name "textContent" then Some (updateElement r (setText s) p)
          else None
      | _ => None
      end
  | VObj o => Some (withObjects (alter (insert name x) o (objects p)) p)
  | _ => None
  end.

(** A call of a method of the page.  [appendChild] puts a new element at
    the end of the document. *)
Definition callMethod (p : Page) (h : hostObject) (name : string) (args : list value)
    : option (value * Page) :=
  match h, args with
  | HDocument, [VStr id] =>
      if String.eqb name "getElementById" then
        match document p with
        | Some doc =>
            Some (match findIndex id doc with
                  | Some i => VElem (Attached i)
                  | None => VNull
                  end, p)
        | None => None
        end
      else if String.eqb name "createElement" then
        Some (VElem (Created (List.length (created p))),
              withCreated
                (created p ++ [Free {| Emitted.tagName := id;
                                       Emitted.elementId := EmptyString;
                                       Emitted.textContent := EmptyString |}])%list p)
      else None
  | HHead, [VElem (Created k)] =>
      if String.eqb name "appendChild" then
        match created p !! k, document p with
        | Some (Free e), Some doc =>
            Some (VElem (Created k),
                  withCreated (<[k := Appended (List.length doc)]> (created p))
                    (withDocument (doc ++ [e])%list p))
        | _, _ => None
        end
      else None
  | HHot, [callback] =>
      if String.eqb name "accept"
      then Some (VUndefined, withAccepted (accepted p ++ [callback])%list p)
      else None
  | HRuntime, [id; x] =>
      if String.eqb name "reload"
      then Some (VUndefined, withHmrCalls (hmrCalls p ++ [Reload id x])%list p)
      else if String.eqb name "createRecord"
      then Some (VUndefined, withHmrCalls (hmrCalls p ++ [CreateRecord id x])%list p)
      else None
  | _, _ => None
  end.

(** *** Running *)

Inductive completion :=
| Normal
| Returned (v : value).

(** The scope of a call: the parameters bound to the arguments, [undefined]
    where an argument is missing. *)
Fixpoint bindParams (params : list string) (args : list value) : Scope :=
  match params with
  | [] => []
  | x :: rest =>
      (x, (true, match args with a :: _ => a | [] => VUndefined end))
        :: bindParams rest (List.tl args)
  end.

(** A declaration adds to the innermost scope, where the name must be
    new. *)
Definition declare (x : string) (mutable : bool) (v : value) (env : Env) : option Env :=
  match env with
  | [] => Some [[(x, (mutable, v))]]
  | scope :: outer =>
      match bound scope x with
      | Some _ => None
      | None => Some (((x, (mutable, v)) :: scope) :: outer)
      end
  end.

(** Assigning a variable: the innermost binding of the name, which must not
    be a [const]. *)
Fixpoint assign (env : Env) (x : string) (v : value) : option Env :=
  match env with
  | [] => None
  | scope :: outer =>
      match bound scope x with
      | Some (true, _) => Some (rebind scope x (true, v) :: outer)
      | Some (false, _) => None
      | None =>
          match assign outer x v with
          | Some outer' => Some (scope :: outer')
          | None => None
          end
      end
  end.

(** [const { prop: x } = v]. *)
Fixpoint destructure (bindings : list (string * string)) (v : value) (env : Env) (p : Page)
    : option Env :=
  match bindings with
  | [] => Some env
  | (prop, x) :: rest =>
      match getMember p v prop with
      | Some w =>
          match declare x false w env with
          | Some env' => destructure rest v env' p
          | None => None
          end
      | None => None
      end
  end.

(** Expressions, calls and statements, each with the number of nested
    evaluations it may still make.  [typeof] of a name that is not bound is
    ["undefined"]; a function value keeps the environment it was made in; a
    block runs in a scope of its own. *)
Fixpoint eval (n : nat) (e : expr) (env : Env) (p : Page) : option (value * Page) :=
  match n with
  | O => None
  | S n' =>
      match e with
      | EStr s => Some (VStr s, p)
      | EVar x =>
          match valueOf p env x with
          | Some v => Some (v, p)
          | None => None
          end
      | EMember a name =>
          match eval n' a env p with
          | Some (v, p1) =>
              match getMember p1 v name with
              | Some w => Some (w, p1)
              | None => None
              end
          | None => None
          end
      | ECall (EMember a name) args =>
          match eval n' a env p with
          | Some (this, p1) =>
              match getMember p1 this name with
              | Some f =>
                  match evalArgs n' args env p1 with
                  | Some (vs, p2) => call n' f vs p2
                  | None => None
                  end
              | None => None
              end
          | None => None
          end
      | ECall f args =>
          match eval n' f env p with
          | Some (fv, p1) =>
              match evalArgs n' args env p1 with
              | Some (vs, p2) => call n' fv vs p2
              | None => None
              end
          | None => None
          end
      | ENot a =>
          match eval n' a env p with
          | Some (v, p1) => Some (VBool (negb (truthy v)), p1)
          | None => None
          end
      | ETypeof (EVar x) =>
          Some (VStr (match valueOf p env x with
                      | Some v => typeOf v
                      | None => "undefined"
                      end), p)
      | ETypeof a =>
          match eval n' a env p with
          | Some (v, p1) => Some (VStr (typeOf v), p1)
          | None => None
          end
      | EStrictNe a b =>
          match eval n' a env p with
          | Some (v, p1) =>
              match eval n' b env p1 with
              | Some (w, p2) =>
                  match strictNe v w with
                  | Some r => Some (VBool r, p2)
                  | None => None
                  end
              | None => None
              end
          | None => None
          end
      | EFunction params body => Some (VClosure params body env, p)
      end
  end
with evalArgs (n : nat) (args : list expr) (env : Env) (p : Page)
    : option (list value * Page) :=
  match n with
  | O => None
  | S n' =>
      match args with
      | [] => Some ([], p)
      | a :: rest =>
          match eval n' a env p with
          | Some (v, p1) =>
              match evalArgs n' rest env p1 with
              | Some (vs, p2) => Some (v :: vs, p2)
              | None => None
              end
          | None => None
          end
      end
  end
with call (n : nat) (f : value) (args : list value) (p : Page) : option (value * Page) :=
  match n with
  | O => None
  | S n' =>
      match f with
      | VMethod h name => callMethod p h name args
      | VClosure params body env =>
          match execAll n' body (bindParams params args :: env) p with
          | Some (Returned v, _, p1) => Some (v, p1)
          | Some (Normal, _, p1) => Some (VUndefined, p1)
          | None => None
          end
      | _ => None
      end
  end
with exec (n : nat) (s : stmt) (env : Env) (p : Page) : option (completion * Env * Page) :=
  match n with
  | O => None
  | S n' =>
      match s with
      | SDeclare mutable x e =>
          match eval n' e env p with
          | Some (v, p1) =>
              match declare x mutable v env with
              | Some env' => Some (Normal, env', p1)
              | None => None
              end
          | None => None
          end
      | SDestructure bindings e =>
          match eval n' e env p with
          | Some (v, p1) =>
              match destructure bindings v env p1 with
              | Some env' => Some (Normal, env', p1)
              | None => None
              end
          | None => None
          end
      | SAssign (EVar x) e =>
          match eval n' e env p with
          | Some (v, p1) =>
              match assign env x v with
              | Some env' => Some (Normal, env', p1)
              | None => None
              end
          | None => None
          end
      | SAssign (EMember a name) e =>
          match eval n' a env p with
          | Some (target, p1) =>
              match eval n' e env p1 with
              | Some (v, p2) =>
                  match setMember p2 target name v with
                  | Some p3 => Some (Normal, env, p3)
                  | None => None
                  end
              | None => None
              end
          | None => None
          end
      | SAssign _ _ => None
      | SExpr e =>
          match eval n' e env p with
          | Some (_, p1) => Some (Normal, env, p1)
          | None => None
          end
      | SIf c thenBranch elseBranch =>
          match eval n' c env p with
          | Some (v, p1) =>
              match (if truthy v
                     then execAll n' thenBranch ([] :: env) p1
                     else execAll n' elseBranch ([] :: env) p1) with
              | Some (c', env', p2) => Some (c', List.tl env', p2)
              | None => None
              end
          | None => None
          end
      | SReturn None => Some (Returned VUndefined, env, p)
      | SReturn (Some e) =>
          match eval n' e env p with
          | Some (v, p1) => Some (Returned v, env, p1)
          | None => None
          end
      end
  end
with execAll (n : nat) (ss : list stmt) (env : Env) (p : Page)
    : option (completion * Env * Page) :=
  match n with
  | O => None
  | S n' =>
      match ss with
      | [] => Some (Normal, env, p)
      | s :: rest =>
          match exec n' s env p with
          | Some (Normal, env1, p1) => execAll n' rest env1 p1
          | other => other
          end
      end
  end.

(** The depth of nesting granted to a run. *)
Definition fuel : nat := 64.

(** Running a text as a script: its statements in order, from bindings
    [env]. *)
Definition run (text : string) (env : Env) (p : Page) : option Page :=
  match parse text with
  | Some program =>
      match execAll fuel program env p with
      | Some (_, _, p') => Some p'
      | None => None
      end
  | None => None
  end.

(** Calling back a function the page was handed. *)
Definition invoke (callback : value) (args : list value) (p : Page) : option (value * Page) :=
  call fuel callback args p.

End MiniJs.

(** ** vize-wasm/index.js

    The module keeps two variables, [initialized] and [initPromise]; the
    promise changes state when the event loop settles the load started by
    [initWasm]. *)

Module Wasm.

Inductive PromiseState :=
| Pending
| Fulfilled
| Rejected (reason : string).

(** The module variables, with the number of calls made to [initWasm]. *)
Record State := {
  initialized : bool;
  initPromise : option PromiseState;
  initWasmCalls : nat }.

Definition start : State :=
  {| initialized := false; initPromise := None; initWasmCalls := 0 |}.

(** What the promise returned by [init] is bound to. *)
Inductive InitResult :=
| AlreadyResolved
| FollowsInitPromise.

Definition init (st : State) : State * InitResult :=
  if initialized st then (st, AlreadyResolved)
  else
    match initPromise st with
    | Some _ => (st, FollowsInitPromise)
    | None =>
        ({| initialized := false; initPromise := Some Pending;
            initWasmCalls := S (initWasmCalls st) |}, FollowsInitPromise)
    end.

Definition isInitialized (st : State) : bool := initialized st.

Definition notInitialized : string :=
  "WASM module not initialized. Call `await init()` first.".

Definition ensureInitialized (st : State) : outcome unit :=
  if negb (initialized st) then Throw notInitialized else Ok tt.

(** The load started by [initWasm] ends: on success the [then] callback sets
    [initialized]; on failure [initPromise] is rejected and nothing else
    changes. *)
Inductive Settlement :=
| LoadSucceeds
| LoadFails (reason : string).

Definition settle (how : Settlement) (st : State) : State :=
  match initPromise st with
  | Some Pending =>
      match how with
      | LoadSucceeds =>
          {| initialized := true; initPromise := Some Fulfilled;
             initWasmCalls := initWasmCalls st |}
      | LoadFails reason =>
          {| initialized := initialized st; initPromise := Some (Rejected reason);
             initWasmCalls := initWasmCalls st |}
      end
  | _ => st
  end.

Inductive Event :=
| CallInit
| Settles (how : Settlement).

Definition step (st : State) (ev : Event) : State :=
  match ev with
  | CallInit => fst (init st)
  | Settles how => settle how st
  end.

Definition run (events : list Event) (st : State) : State := fold_left step events st.

Section Exports.
(** Option objects and results cross the boundary untouched. *)
Variables Obj Result : Type.
Variable emptyObject : Obj.

(** An instance of the wasm [Compiler] class. *)
Record WasmCompiler := {
  inner_compile : string -> Obj -> outcome Result;
  inner_compileVapor : string -> Obj -> outcome Result;
  inner_parse : string -> Obj -> outcome Result;
  inner_parseSfc : string -> Obj -> outcome Result;
  inner_compileSfc : string -> Obj -> outcome Result;
  inner_compileCss : string -> Obj -> outcome Result;
  inner_free : outcome unit }.

(** What [vize_bindings.js] exports. *)
Record Bindings := {
  wasmCompile : string -> Obj -> outcome Result;
  wasmCompileVapor : string -> Obj -> outcome Result;
  wasmParseTemplate : string -> Obj -> outcome Result;
  wasmParseSfc : string -> Obj -> outcome Result;
  wasmCompileSfc : string -> Obj -> outcome Result;
  wasmCompileCss : string -> Obj -> outcome Result;
  newWasmCompiler : WasmCompiler }.

Variable b : Bindings.

(** An exported function: the guard, then the binding with [options = {}]
    as the default. *)
Definition guarded (f : string -> Obj -> outcome Result) (st : State)
    (input : string) (options : option Obj) : outcome Result :=
  match ensureInitialized st with
  | Throw e => Throw e
  | Ok _ => f input (default emptyObject options)
  end.

Definition compile := guarded (wasmCompile b).
Definition compileVapor := guarded (wasmCompileVapor b).
Definition parseTemplate := guarded (wasmParseTemplate b).
Definition parseSfc := guarded (wasmParseSfc b).
Definition compileSfc := guarded (wasmCompileSfc b).
Definition compileCss := guarded (wasmCompileCss b).

(** [new Compiler()]: the guard runs in the constructor only. *)
Definition newCompiler (st : State) : outcome WasmCompiler :=
  match ensureInitialized st with
  | Throw e => Throw e
  | Ok _ => Ok (newWasmCompiler b)
  end.

Definition Compiler_compile (inner : WasmCompiler) (template : string)
    (options : option Obj) : outcome Result :=
  inner_compile inner template (default emptyObject options).
Definition Compiler_compileVapor (inner : WasmCompiler) (template : string)
    (options : option Obj) : outcome Result :=
  inner_compileVapor inner template (default emptyObject options).
Definition Compiler_parse (inner : WasmCompiler) (template : string)
    (options : option Obj) : outcome Result :=
  inner_parse inner template (default emptyObject options).
Definition Compiler_parseSfc (inner : WasmCompiler) (source : string)
    (options : option Obj) : outcome Result :=
  inner_parseSfc inner source (default emptyObject options).
Definition Compiler_compileSfc (inner : WasmCompiler) (source : string)
    (options : option Obj) : outcome Result :=
  inner_compileSfc inner source (default emptyObject options).
Definition Compiler_compileCss (inner : WasmCompiler) (css_ : string)
    (options : option Obj) : outcome Result :=
  inner_compileCss inner css_ (default emptyObject options).
Definition Compiler_free (inner : WasmCompiler) : outcome unit := inner_free inner.
Definition Compiler_dispose (inner : WasmCompiler) : outcome unit := Compiler_free inner.

End Exports.

End Wasm.

(** ** More vocabulary *)

(** What the regular expression of [compileFile] asks of a text: an
    occurrence of [<style], then characters other than the closing angle
    bracket, then the word [scoped] standing alone. *)
Fixpoint lastCharOr (prev : ascii) (s : string) : ascii :=
  match s with
  | EmptyString => prev
  | String c s' => lastCharOr c s'
  end.

Definition noCloser (s : string) : bool :=
  JsString.allChars (fun c => negb (Ascii.eqb c ">")) s.

Definition standsAlone (prev : ascii) (mid post : string) : Prop :=
  noCloser mid = true
  /\ ScopedRegex.isWord (lastCharOr prev mid) = false
  /\ ScopedRegex.boundaryAfter post = true.

Definition hasScopedStyle (content : string) : Prop :=
  exists pre mid post,
    content = pre +:+ "<style" +:+ mid +:+ "scoped" +:+ post
    /\ standsAlone "e" mid post.

(** How the cache may differ after a hook call: an entry is as before or
    is an artifact compiled for its own path. *)
Definition cacheGrows (c c' : gmap string CompiledModule) : Prop :=
  forall p,
    c' !! p = c !! p
    \/ exists content result, c' !! p = Some (artifactOf p content result).

Definition cacheWellKeyed (c : gmap string CompiledModule) : Prop :=
  forall p a, c !! p = Some a -> scopeId a = generateScopeId p.

Definition registryBacked (s : Session) : Prop :=
  forall id path, virtualToReal s !! id = Some path -> is_Some (cache s !! path).

(** The states of the wasm module a run can be in: the load is started at
    most once, and [initialized] is set exactly when it has succeeded. *)
Definition wasmConsistent (st : Wasm.State) : Prop :=
  match Wasm.initPromise st with
  | None => Wasm.initWasmCalls st = 0 /\ Wasm.initialized st = false
  | Some Wasm.Fulfilled => Wasm.initWasmCalls st = 1 /\ Wasm.initialized st = true
  | Some _ => Wasm.initWasmCalls st = 1 /\ Wasm.initialized st = false
  end.

(** A change notification the plugin acts on. *)
Definition handles (options : VizeOptions) (file : string) : bool :=
  JsString.endsWith file ".vue" && filter options file.

(** The modules [handleHotUpdate] reports for a file. *)
Definition modulesOf (ctx : HmrContext) : option (list ModuleNode) :=
  match getModulesByFile (ctx_server ctx) (VIRTUAL_PREFIX +:+ ctx_file ctx) with
  | Some ms => Some ms
  | None => getModulesByFile (ctx_server ctx) (ctx_file ctx)
  end.

(** ** More scenes *)

Module Scenes.

(** A page under a dev server: hot reload and the framework's runtime are
    there, and the module's component is the one object of the page. *)
Definition browser : MiniJs.Page :=
  {| MiniJs.document := Some Sample.page; MiniJs.created := []; MiniJs.hot := true;
     MiniJs.hmrRuntime := true; MiniJs.objects := [empty]; MiniJs.accepted := [];
     MiniJs.hmrCalls := [] |}.

(** A host on which the native module is not installed. *)
Definition offline : Host :=
  {| require_native := Throw "Cannot find module '@vize/native'";
     readFileSync := Sample.readFile Sample.files;
     glob := fun _ _ _ => Ok Sample.found;
     path_isAbsolute := NodePath.isAbsolute;
     path_resolve := fun a b => NodePath.resolve "/app" [a; b];
     path_dirname := NodePath.dirname;
     path_normalize := NodePath.normalize |}.

(** A host on which the scan of the project fails. *)
Definition noScan : Host :=
  {| require_native := Ok Sample.compileSfc_;
     readFileSync := Sample.readFile Sample.files;
     glob := fun _ _ _ => Throw "EACCES: permission denied, scandir '/app'";
     path_isAbsolute := NodePath.isAbsolute;
     path_resolve := fun a b => NodePath.resolve "/app" [a; b];
     path_dirname := NodePath.dirname;
     path_normalize := NodePath.normalize |}.

(** A module without a default export, with css. *)
Definition noExport : CompiledModule :=
  {| code := "export const answer = 42"; css := Some ".a{color:red}";
     scopeId := "c0cc6f12"; hasScoped := false |}.

(** Bindings that give the input back. *)
Definition echoCompiler : Wasm.WasmCompiler unit string :=
  {| Wasm.inner_compile := fun input _ => Ok input;
     Wasm.inner_compileVapor := fun input _ => Ok input;
     Wasm.inner_parse := fun input _ => Ok input;
     Wasm.inner_parseSfc := fun input _ => Ok input;
     Wasm.inner_compileSfc := fun input _ => Ok input;
     Wasm.inner_compileCss := fun input _ => Ok input;
     Wasm.inner_free := Ok tt |}.

Definition echo : Wasm.Bindings unit string :=
  {| Wasm.wasmCompile := fun input _ => Ok input;
     Wasm.wasmCompileVapor := fun input _ => Ok input;
     Wasm.wasmParseTemplate := fun input _ => Ok input;
     Wasm.wasmParseSfc := fun input _ => Ok input;
     Wasm.wasmCompileSfc := fun input _ => Ok input;
     Wasm.wasmCompileCss := fun input _ => Ok input;
     Wasm.newWasmCompiler := echoCompiler |}.

Definition devServer : ViteDevServer :=
  {| getModulesByFile := fun file =>
       if String.eqb file (VIRTUAL_PREFIX +:+ "/app/src/B.vue")
       then Some [ModuleNodeOf (VIRTUAL_PREFIX +:+ "/app/src/B.vue")]
       else if String.eqb file "/app/src/A.vue"
       then Some [ModuleNodeOf "/app/src/A.vue"]
       else None |}.

(** The editor saved [A.vue] with a template that does not close. *)
Definition brokenEdit : HmrContext :=
  {| ctx_file := "/app/src/A.vue"; ctx_server := devServer;
     ctx_read := Ok "<template><div></template>" |}.

(** The editor saved [B.vue] with a new colour. *)
Definition goodEdit : HmrContext :=
  {| ctx_file := "/app/src/B.vue"; ctx_server := devServer;
     ctx_read := Ok "<template><p/></template><style scoped>.a{color:blue}</style>" |}.

(** [B.vue] changed and could not be read back. *)
Definition failedRead : HmrContext :=
  {| ctx_file := "/app/src/B.vue"; ctx_server := devServer;
     ctx_read := Throw "EBUSY: resource busy or locked" |}.

(** A change outside the component files. *)
Definition otherEdit : HmrContext :=
  {| ctx_file := "/app/src/main.ts"; ctx_server := devServer;
     ctx_read := Ok "export {}" |}.

End Scenes.

(** * Properties *)

(** ** Strings *)

Section StringFacts.
Import JsString.

Lemma append_cons c (a b : string) : String c a +:+ b = String c (a +:+ b).
Proof. reflexivity. Qed.

Lemma append_empty_l (b : string) : EmptyString +:+ b = b.
Proof. reflexivity. Qed.

Lemma append_empty_r (a : string) : a +:+ EmptyString = a.
Proof. induction a as [|c a IH]; [reflexivity|]. rewrite append_cons, IH. reflexivity. Qed.

Lemma append_assoc (a b c : string) : (a +:+ b) +:+ c = a +:+ (b +:+ c).
Proof.
  induction a as [|x a IH]; [reflexivity|].
  rewrite !append_cons, IH. reflexivity.
Qed.


Lemma prefix_append (p s : string) : String.prefix p (p +:+ s) = true.
Proof.
  induction p as [|x p IH]; [destruct s; reflexivity|].
  rewrite append_cons. simpl. destruct (ascii_dec x x); [exact IH|congruence].
Qed.

Lemma prefix_split (p s : string) :
  String.prefix p s = true -> s = p +:+ drop (String.length p) s.
Proof.
  revert s. induction p as [|x p IH]; intros s H; [reflexivity|].
  destruct s as [|y s]; simpl in H; [discriminate|].
  destruct (ascii_dec x y) as [->|]; [|discriminate].
  rewrite append_cons. simpl. f_equal. apply IH, H.
Qed.

Lemma drop_append (p s : string) : drop (String.length p) (p +:+ s) = s.
Proof. induction p as [|x p IH]; [reflexivity|]. rewrite append_cons. exact IH. Qed.

Lemma take_append (p s : string) : take (String.length p) (p +:+ s) = p.
Proof.
  induction p as [|x p IH]; [reflexivity|].
  rewrite append_cons. simpl. rewrite IH. reflexivity.
Qed.

Lemma drop_drop (n m : nat) (s : string) : drop n (drop m s) = drop (m + n) s.
Proof.
  revert s. induction m as [|m IH]; intros s; [reflexivity|].
  destruct s as [|c s]; [destruct n; reflexivity|]. simpl. apply IH.
Qed.

Lemma indexOf_prefix (s p : string) : String.prefix p s = true -> indexOf s p = Some 0.
Proof. intros H. destruct s; cbn [indexOf]; rewrite H; reflexivity. Qed.

(** [indexOf] finds the leftmost occurrence. *)
Lemma indexOf_leftmost (p pre post : string) :
  (forall pre' post', pre +:+ p +:+ post = pre' +:+ p +:+ post' ->
                      String.length pre <= String.length pre') ->
  indexOf (pre +:+ p +:+ post) p = Some (String.length pre).
Proof.
  induction pre as [|c pre IH]; intros Hmin.
  - rewrite append_empty_l. apply indexOf_prefix, prefix_append.
  - rewrite append_cons.
    assert (Hno : String.prefix p (String c (pre +:+ p +:+ post)) = false).
    { destruct (String.prefix p (String c (pre +:+ p +:+ post))) eqn:E; [|reflexivity].
      apply prefix_split in E.
      specialize (Hmin EmptyString (drop (String.length p) (String c (pre +:+ p +:+ post)))).
      rewrite append_empty_l, append_cons in Hmin. specialize (Hmin E).
      simpl in Hmin. lia. }
    cbn [indexOf]. rewrite Hno, IH; [reflexivity|].
    intros pre' post' E.
    specialize (Hmin (String c pre') post'). rewrite !append_cons in Hmin.
    specialize (Hmin (f_equal (String c) E)). simpl in Hmin. lia.
Qed.

Lemma indexOf_occurrence (s p : string) (i : nat) :
  indexOf s p = Some i ->
  s = take i s +:+ p +:+ drop (i + String.length p) s.
Proof.
  revert i. induction s as [|c s IH]; intros i H; cbn [indexOf] in H.
  - destruct (String.prefix p EmptyString) eqn:E; [|discriminate].
    injection H as <-. apply prefix_split in E. exact E.
  - destruct (String.prefix p (String c s)) eqn:E.
    + injection H as <-. apply prefix_split in E. exact E.
    + destruct (indexOf s p) as [j|] eqn:Ej; [|discriminate].
      injection H as <-. simpl. rewrite append_cons. f_equal. apply IH. reflexivity.
Qed.

Lemma indexOf_minimal (s p : string) :
  forall (i : nat) (pre' post' : string),
    indexOf s p = Some i ->
    s = pre' +:+ p +:+ post' ->
    i <= String.length pre'.
Proof.
  induction s as [|c s IH]; intros i pre' post' Hi Hs.
  - destruct pre' as [|c' pre']; [|discriminate].
    rewrite append_empty_l in Hs. rewrite indexOf_prefix in Hi.
    + injection Hi as <-. simpl. lia.
    + rewrite Hs. apply prefix_append.
  - destruct pre' as [|c' pre'].
    + rewrite append_empty_l in Hs. rewrite indexOf_prefix in Hi.
      * injection Hi as <-. lia.
      * rewrite Hs. apply prefix_append.
    + rewrite append_cons in Hs. injection Hs as <- Hs.
      cbn [indexOf] in Hi.
      destruct (String.prefix p (String c s)); [injection Hi as <-; lia|].
      destruct (indexOf s p) as [j|] eqn:Ej; [|discriminate].
      injection Hi as <-. simpl. apply le_n_S. eapply IH; [reflexivity|exact Hs].
Qed.

Lemma replace_leftmost (p r pre post : string) :
  (forall pre' post', pre +:+ p +:+ post = pre' +:+ p +:+ post' ->
                      String.length pre <= String.length pre') ->
  replace (pre +:+ p +:+ post) p r = pre +:+ r +:+ post.
Proof.
  intros Hmin. unfold replace. rewrite (indexOf_leftmost _ _ _ Hmin).
  rewrite take_append. rewrite <- drop_drop, drop_append, drop_append. reflexivity.
Qed.

Lemma includes_occurrence (pre p post : string) : includes (pre +:+ p +:+ post) p = true.
Proof.
  unfold includes. induction pre as [|c pre IH].
  - rewrite append_empty_l. rewrite indexOf_prefix; [reflexivity|apply prefix_append].
  - rewrite append_cons. cbn [indexOf].
    destruct (String.prefix p (String c (pre +:+ p +:+ post))); [reflexivity|].
    destruct (indexOf (pre +:+ p +:+ post) p); [reflexivity|discriminate].
Qed.

Lemma hexDigit_isHexDigit (n : Z) : isHexDigit (hexDigit n) = true.
Proof.
  unfold hexDigit.
  repeat match goal with
         | |- context [match ?x with _ => _ end] => destruct x
         end; reflexivity.
Qed.

End StringFacts.

(** ** The library models on documented inputs *)

Example normalize_doc :
  NodePath.normalize "/foo/bar//baz/asdf/quux/.." = "/foo/bar/baz/asdf".
Proof. reflexivity. Qed.

Example dirname_doc : NodePath.dirname "/foo/bar/baz/asdf/quux" = "/foo/bar/baz/asdf".
Proof. reflexivity. Qed.

Example resolve_doc_relative :
  NodePath.resolve "/home" ["/foo/bar"; "./baz"] = "/foo/bar/baz".
Proof. reflexivity. Qed.

Example resolve_doc_absolute :
  NodePath.resolve "/home" ["/foo/bar"; "/tmp/file/"] = "/tmp/file".
Proof. reflexivity. Qed.

Example scoped_style_detected :
  List.map ScopedRegex.test
    ["<style scoped>"; "<style lang=scss scoped>"; "<template/><style scoped>";
     "<style unscoped>"; "<style>scoped"; "<stylescoped>"; "<style scoped_x>"]
  = [true; true; true; false; false; false; false].
Proof. reflexivity. Qed.

Example stringify_escapes :
  JsString.JSON_stringify (".a{content:'" +:+ LF +:+ "'}")
  = String JsString.dquote (".a{content:'\n'}" +:+ String JsString.dquote EmptyString).
Proof. reflexivity. Qed.

(** ** ScopeIdentity *)

(** The digest on the test vectors of the standard (one block, the empty
    message, two blocks). *)
Example hexDigest_abc :
  Sha256.hexDigest "abc"
  = "ba7816bf8f01cfea414140de5dae2223b00361a396177a9cb410ff61f20015ad".
Proof. vm_compute. reflexivity. Qed.

Example hexDigest_empty :
  Sha256.hexDigest EmptyString
  = "e3b0c44298fc1c149afbf4c8996fb92427ae41e4649b934ca495991b7852b855".
Proof. vm_compute. reflexivity. Qed.

Example hexDigest_two_blocks :
  Sha256.hexDigest "abcdbcdecdefdefgefghfghighijhijkijkljklmklmnlmnomnopnopq"
  = "248d6a61d20638b8e5c026930c3e6039a33ce45964ff2167f6ecedd419db06c1".
Proof. vm_compute. reflexivity. Qed.

Example generateScopeId_B : generateScopeId "/app/src/B.vue" = "5db57e12".
Proof. vm_compute. reflexivity. Qed.

Lemma generateScopeId_hex8 (filename : string) :
  generateScopeId filename = Sha256.hex8 (Sha256.ha (Sha256.hash filename)).
Proof.
  unfold generateScopeId, Sha256.hexDigest.
  generalize (Sha256.hash filename). intros h.
  unfold Sha256.hex8 at 1. rewrite !append_cons. reflexivity.
Qed.

(** ** Running the session monad *)

Lemma forEach_log {A} (l : list A) (g : A -> LogEvent) (s : Session) :
  forEach l (fun x => log (g x)) s
  = ({| compileSfc := compileSfc s; cache := cache s;
        virtualToReal := virtualToReal s; isProduction := isProduction s;
        root := root s; server := server s;
        console := (console s ++ List.map g l)%list |}, Ok tt).
Proof.
  revert s. induction l as [|x l IH]; intros s.
  - simpl. unfold ret. rewrite app_nil_r. destruct s; reflexivity.
  - simpl. unfold bind, log, modify. rewrite IH. simpl.
    rewrite <- app_assoc. reflexivity.
Qed.

Lemma bind_ret {A B} (a : A) (k : A -> M B) (s : Session) : bind (ret a) k s = k a s.
Proof. reflexivity. Qed.

Lemma bind_get {B} (k : Session -> M B) (s : Session) : bind get k s = k s s.
Proof. reflexivity. Qed.

Lemma bind_modify {B} (f : Session -> Session) (k : unit -> M B) (s : Session) :
  bind (modify f) k s = k tt (f s).
Proof. reflexivity. Qed.

Lemma bind_log {B} (e : LogEvent) (k : unit -> M B) (s : Session) :
  bind (log e) k s = k tt (add_log e s).
Proof. reflexivity. Qed.

Lemma bind_lift_Ok {A B} (a : A) (k : A -> M B) (s : Session) :
  bind (lift (Ok a)) k s = k a s.
Proof. reflexivity. Qed.

Lemma bind_lift_Throw {A B} (e : string) (k : A -> M B) (s : Session) :
  bind (lift (Throw e)) k s = (s, Throw e).
Proof. reflexivity. Qed.

Lemma bind_throw {A B} (e : string) (k : A -> M B) (s : Session) :
  bind (throw e) k s = (s, Throw e).
Proof. reflexivity. Qed.

Lemma bind_forEach_log {A B} (l : list A) (g : A -> LogEvent) (k : unit -> M B)
    (s : Session) :
  bind (forEach l (fun x => log (g x))) k s
  = k tt {| compileSfc := compileSfc s; cache := cache s;
            virtualToReal := virtualToReal s; isProduction := isProduction s;
            root := root s; server := server s;
            console := (console s ++ List.map g l)%list |}.
Proof. unfold bind. rewrite forEach_log. reflexivity. Qed.

Ltac run_monad :=
  repeat first
    [ rewrite bind_ret | rewrite bind_get | rewrite bind_modify | rewrite bind_log
    | rewrite bind_lift_Ok | rewrite bind_lift_Throw | rewrite bind_throw
    | rewrite bind_forEach_log ];
  cbv beta.

Lemma loadNative_fields (h : Host) (s : Session) :
  let s' := fst (loadNative h s) in
  cache s' = cache s /\ virtualToReal s' = virtualToReal s
  /\ isProduction s' = isProduction s /\ root s' = root s
  /\ server s' = server s /\ console s' = console s.
Proof.
  unfold loadNative, bind, get, modify, ret, throw.
  destruct (compileSfc s); [simpl; auto 10|].
  destruct (require_native h); simpl; auto 10.
Qed.

Lemma nativeOf_loadNative (h : Host) (s : Session) :
  nativeOf h (fst (loadNative h s)) = nativeOf h s.
Proof.
  unfold nativeOf, loadNative, bind, get, modify, ret, throw.
  destruct (compileSfc s) eqn:E; simpl; [rewrite E; reflexivity|].
  destruct (require_native h) eqn:R; simpl; [reflexivity|].
  rewrite E. reflexivity.
Qed.

Lemma nativeOf_compileSfc (h : Host) (s s' : Session) :
  compileSfc s = compileSfc s' -> nativeOf h s = nativeOf h s'.
Proof.
  intros E. unfold nativeOf, loadNative, bind, get. rewrite E.
  destruct (compileSfc s'); [reflexivity|].
  destruct (require_native h); reflexivity.
Qed.

(** [compileFile], run. *)
Lemma compileFile_run (h : Host) (filePath : string) (o : CompileFileOptions)
    (source : option string) (s : Session) :
  let s1 := fst (loadNative h s) in
  compileFile h filePath o source s
  = match nativeOf h s with
    | Throw e => (s1, Throw e)
    | Ok compile =>
        match readSource h filePath source with
        | Throw e => (s1, Throw e)
        | Ok content =>
            match compile content (napiOptions filePath o content) with
            | Throw e => (s1, Throw e)
            | Ok result =>
                ({| compileSfc := compileSfc s1;
                    cache := <[filePath := artifactOf filePath content result]> (cache s);
                    virtualToReal := virtualToReal s; isProduction := isProduction s;
                    root := root s; server := server s;
                    console := (console s ++ compileLogs filePath result)%list |},
                 Ok (artifactOf filePath content result))
            end
        end
    end.
Proof.
  intros s1.
  destruct (loadNative_fields h s) as (Hc1 & Hv1 & Hp1 & Hr1 & Hs1 & Hl1).
  fold s1 in Hc1, Hv1, Hp1, Hr1, Hs1, Hl1.
  unfold compileFile, nativeOf. unfold bind at 1. subst s1.
  destruct (loadNative h s) as [s1 [compile|e]]; simpl in *; [|reflexivity].
  destruct (readSource h filePath source) as [content|e]; run_monad; [|reflexivity].
  destruct (compile content (napiOptions filePath o content)) as [result|e];
    run_monad; [|reflexivity].
  unfold compileLogs, artifactOf.
  destruct (0 <? List.length (errors result))%nat;
    destruct (0 <? List.length (warnings result))%nat eqn:W;
    run_monad; unfold ret, set_cache, add_log; simpl;
    rewrite ?Hc1, ?Hv1, ?Hp1, ?Hr1, ?Hs1, ?Hl1, <- ?app_assoc; try reflexivity.
  all: apply Nat.ltb_ge in W; destruct (warnings result); [|simpl in W; lia];
    simpl; rewrite ?app_nil_r; reflexivity.
Qed.

(** A compile attempt that reaches the compiler's result writes the cache. *)
Lemma compileFile_returns (h : Host) (filePath : string) (o : CompileFileOptions)
    (source : option string) (s : Session) compile content result :
  nativeOf h s = Ok compile ->
  readSource h filePath source = Ok content ->
  compile content (napiOptions filePath o content) = Ok result ->
  compileFile h filePath o source s
  = ({| compileSfc := compileSfc (fst (loadNative h s));
        cache := <[filePath := artifactOf filePath content result]> (cache s);
        virtualToReal := virtualToReal s; isProduction := isProduction s;
        root := root s; server := server s;
        console := (console s ++ compileLogs filePath result)%list |},
     Ok (artifactOf filePath content result)).
Proof. intros Hn Hr Hc. rewrite compileFile_run, Hn, Hr, Hc. reflexivity. Qed.

(** A compile attempt that throws leaves everything but the loaded binding
    as it was. *)
Lemma compileFile_throws (h : Host) (filePath : string) (o : CompileFileOptions)
    (source : option string) (s : Session) (e : string) :
  snd (compileFile h filePath o source s) = Throw e ->
  fst (compileFile h filePath o source s) = fst (loadNative h s).
Proof.
  rewrite compileFile_run.
  destruct (nativeOf h s) as [compile|e1]; [|reflexivity].
  destruct (readSource h filePath source) as [content|e2]; [|reflexivity].
  destruct (compile content (napiOptions filePath o content)) as [result|e3];
    [discriminate|reflexivity].
Qed.

(** Whether and what a compile attempt returns depends on the session only
    through the compiler binding. *)
Lemma compileFile_outcome (h : Host) (filePath : string) (o : CompileFileOptions)
    (source : option string) (s : Session) :
  snd (compileFile h filePath o source s)
  = match nativeOf h s with
    | Throw e => Throw e
    | Ok compile =>
        match readSource h filePath source with
        | Throw e => Throw e
        | Ok content =>
            match compile content (napiOptions filePath o content) with
            | Throw e => Throw e
            | Ok result => Ok (artifactOf filePath content result)
            end
        end
    end.
Proof.
  rewrite compileFile_run.
  destruct (nativeOf h s) as [compile|e1]; [|reflexivity].
  destruct (readSource h filePath source) as [content|e2]; [|reflexivity].
  destruct (compile content (napiOptions filePath o content)); reflexivity.
Qed.

(** What a compile attempt leaves alone. *)
Lemma compileFile_frame (h : Host) (filePath : string) (o : CompileFileOptions)
    (source : option string) (s : Session) :
  sameSetup h s (fst (compileFile h filePath o source s)).
Proof.
  unfold sameSetup. rewrite compileFile_run.
  destruct (loadNative_fields h s) as (Hc1 & Hv1 & Hp1 & Hr1 & Hs1 & Hl1).
  pose proof (nativeOf_loadNative h s) as Hn.
  assert (Hk : forall c v p r sv l,
             nativeOf h {| compileSfc := compileSfc (fst (loadNative h s)); cache := c;
                           virtualToReal := v; isProduction := p; root := r;
                           server := sv; console := l |}
             = nativeOf h s).
  { intros. rewrite <- Hn. apply nativeOf_compileSfc. reflexivity. }
  destruct (nativeOf h s) as [compile|e1] eqn:En; [|simpl; auto 10].
  destruct (readSource h filePath source) as [content|e2]; [|simpl; auto 10].
  destruct (compile content (napiOptions filePath o content)) as [result|e3];
    [|simpl; auto 10].
  simpl. rewrite Hk. auto 10.
Qed.

Lemma sameSetup_refl (h : Host) (s : Session) : sameSetup h s s.
Proof. unfold sameSetup. auto 10. Qed.

Lemma sameSetup_trans (h : Host) (s1 s2 s3 : Session) :
  sameSetup h s1 s2 -> sameSetup h s2 s3 -> sameSetup h s1 s3.
Proof.
  unfold sameSetup. intros (A1 & A2 & A3 & A4 & A5) (B1 & B2 & B3 & B4 & B5).
  repeat split; congruence.
Qed.

Lemma sameSetup_add_log (h : Host) (e : LogEvent) (s : Session) :
  sameSetup h s (add_log e s).
Proof.
  unfold sameSetup, add_log. simpl. repeat split.
  apply nativeOf_compileSfc. reflexivity.
Qed.

Lemma compileFile_ok_cache (h : Host) (filePath : string) (o : CompileFileOptions)
    (source : option string) (s s1 : Session) (compiled : CompiledModule) :
  compileFile h filePath o source s = (s1, Ok compiled) ->
  cache s1 = <[filePath := compiled]> (cache s).
Proof.
  rewrite compileFile_run.
  destruct (nativeOf h s) as [compile|e1]; [|discriminate].
  destruct (readSource h filePath source) as [content|e2]; [|discriminate].
  destruct (compile content (napiOptions filePath o content)) as [result|e3];
    [|discriminate].
  intros E. injection E as <- <-. reflexivity.
Qed.

Lemma compileFile_throw_cache (h : Host) (filePath : string) (o : CompileFileOptions)
    (source : option string) (s s1 : Session) (e : string) :
  compileFile h filePath o source s = (s1, Throw e) ->
  cache s1 = cache s.
Proof.
  intros E.
  pose proof (compileFile_throws h filePath o source s e) as H.
  rewrite E in H. simpl in H. rewrite H by reflexivity.
  apply loadNative_fields.
Qed.

(** ** The startup pass *)

Section StartupPass.
Variable options : VizeOptions.
Variable h : Host.

Lemma attemptThrows_sameSetup (s s' : Session) (file : string) :
  sameSetup h s s' ->
  attemptThrows options h s' file = attemptThrows options h s file.
Proof.
  intros (_ & Hp & _ & _ & Hn). unfold attemptThrows.
  rewrite !compileFile_outcome, Hn. unfold compileOptions. rewrite Hp. reflexivity.
Qed.

Lemma compileAllLoop_cons (file : string) (rest : list string) (sc ec : nat) (s : Session) :
  compileAllLoop options h (file :: rest) sc ec s
  = match compileFile h file (compileOptions options s) None s with
    | (s1, Ok _) => compileAllLoop options h rest (S sc) ec s1
    | (s1, Throw e) =>
        compileAllLoop options h rest sc (S ec) (add_log (FailedToCompile file e) s1)
    end.
Proof.
  cbn [compileAllLoop]. unfold bind at 1. unfold tryCatch. rewrite bind_get.
  unfold bind at 1.
  destruct (compileFile h file (compileOptions options s) None s) as [s1 [c|e]];
    reflexivity.
Qed.

Lemma compileAllLoop_run (files : list string) :
  forall (s : Session) (sc ec : nat),
    NoDup files ->
    (forall f, f ∈ files -> cache s !! f = None) ->
    let r := compileAllLoop options h files sc ec s in
    let T := List.length (List.filter (attemptThrows options h s) files) in
    snd r = Ok (sc + (List.length files - T), ec + T)
    /\ size (cache (fst r)) = size (cache s) + (List.length files - T)
    /\ (forall f, f ∈ files -> attemptThrows options h s f = false ->
                  is_Some (cache (fst r) !! f))
    /\ (forall f, f ∉ files \/ attemptThrows options h s f = true ->
                  cache (fst r) !! f = cache s !! f)
    /\ sameSetup h s (fst r).
Proof.
  induction files as [|file rest IH]; intros s sc ec Hnd Hfresh.
  - simpl. rewrite !Nat.add_0_r. repeat split; auto using sameSetup_refl.
    intros f Hf. inversion Hf.
  - apply NoDup_cons in Hnd as [Hnotin Hnd].
    cbv zeta. rewrite compileAllLoop_cons.
    assert (HT : forall s', sameSetup h s s' ->
               List.filter (attemptThrows options h s') rest
               = List.filter (attemptThrows options h s) rest).
    { intros s' Hs'. apply List.filter_ext. intros f.
      apply attemptThrows_sameSetup, Hs'. }
    pose proof (List.filter_length_le (attemptThrows options h s) rest) as Hle.
    pose proof (compileFile_frame h file (compileOptions options s) None s) as Hframe.
    destruct (compileFile h file (compileOptions options s) None s)
      as [s1 [c|e]] eqn:E; simpl in Hframe.
    + assert (Hthrow : attemptThrows options h s file = false)
        by (unfold attemptThrows; rewrite E; reflexivity).
      pose proof (compileFile_ok_cache _ _ _ _ _ _ _ E) as Hcache.
      assert (Hfresh1 : forall f, f ∈ rest -> cache s1 !! f = None).
      { intros f Hf. rewrite Hcache, lookup_insert_ne by (intros ->; contradiction).
        apply Hfresh. right. exact Hf. }
      destruct (IH s1 (S sc) ec Hnd Hfresh1) as (R1 & R2 & R3 & R4 & R5).
      rewrite (HT s1 Hframe) in R1, R2. simpl List.filter. rewrite Hthrow.
      simpl List.length.
      assert (Hsize : size (cache s1) = S (size (cache s))).
      { rewrite Hcache. apply map_size_insert_None, Hfresh. left. }
      split; [|split; [|split; [|split]]].
      * rewrite R1. f_equal. f_equal; lia.
      * rewrite R2, Hsize. lia.
      * intros f Hf Hok. apply elem_of_cons in Hf as [->|Hf].
        -- rewrite R4 by (left; exact Hnotin). rewrite Hcache, lookup_insert_eq. eauto.
        -- apply R3; [exact Hf|]. rewrite (attemptThrows_sameSetup s); assumption.
      * intros f Hf.
        assert (Hne : f <> file).
        { intros ->. destruct Hf as [Hf|Hf]; [apply Hf; left|congruence]. }
        rewrite R4, Hcache, lookup_insert_ne; [reflexivity|congruence|].
        destruct Hf as [Hf|Hf]; [left; intros Hin; apply Hf; right; exact Hin|].
        right. rewrite (attemptThrows_sameSetup s); assumption.
      * eapply sameSetup_trans; eassumption.
    + assert (Hthrow : attemptThrows options h s file = true)
        by (unfold attemptThrows; rewrite E; reflexivity).
      pose proof (compileFile_throw_cache _ _ _ _ _ _ _ E) as Hcache.
      set (s2 := add_log (FailedToCompile file e) s1).
      assert (Hframe2 : sameSetup h s s2).
      { eapply sameSetup_trans; [exact Hframe|apply sameSetup_add_log]. }
      assert (Hcache2 : cache s2 = cache s) by exact Hcache.
      assert (Hfresh2 : forall f, f ∈ rest -> cache s2 !! f = None).
      { intros f Hf. rewrite Hcache2. apply Hfresh. right. exact Hf. }
      destruct (IH s2 sc (S ec) Hnd Hfresh2) as (R1 & R2 & R3 & R4 & R5).
      rewrite (HT s2 Hframe2) in R1, R2. simpl List.filter. rewrite Hthrow.
      simpl List.length.
      split; [|split; [|split; [|split]]].
      * rewrite R1. f_equal. f_equal; lia.
      * rewrite R2, Hcache2. lia.
      * intros f Hf Hok. apply elem_of_cons in Hf as [->|Hf]; [congruence|].
        apply R3; [exact Hf|]. rewrite (attemptThrows_sameSetup s); assumption.
      * intros f Hf. destruct (decide (f ∈ rest)) as [Hin|Hout].
        -- destruct (attemptThrows options h s f) eqn:Hf'.
           ++ rewrite R4, Hcache2; [reflexivity|].
              right. rewrite (attemptThrows_sameSetup s); assumption.
           ++ destruct Hf as [Hf|Hf]; [|discriminate].
              exfalso. apply Hf. right. exact Hin.
        -- rewrite R4, Hcache2; [reflexivity|left; exact Hout].
      * eapply sameSetup_trans; eassumption.
Qed.

Lemma compileAllLoop_frame (files : list string) :
  forall (s : Session) (sc ec : nat),
    sameSetup h s (fst (compileAllLoop options h files sc ec s)).
Proof.
  induction files as [|file rest IH]; intros s sc ec; [apply sameSetup_refl|].
  rewrite compileAllLoop_cons.
  pose proof (compileFile_frame h file (compileOptions options s) None s) as Hframe.
  destruct (compileFile h file (compileOptions options s) None s) as [s1 [c|e]];
    simpl in Hframe.
  - eapply sameSetup_trans; [exact Hframe|apply IH].
  - eapply sameSetup_trans; [exact Hframe|].
    eapply sameSetup_trans; [apply sameSetup_add_log|apply IH].
Qed.

Lemma compileAll_run (s : Session) (files : list string) :
  glob h (scanPatterns_ options) (root s) (ignorePatterns_ options) = Ok files ->
  let s0 := add_log (PreCompiling (List.length files)) s in
  let r := compileAllLoop options h files 0 0 s0 in
  forall counts, snd r = Ok counts ->
  compileAll options h s
  = (add_log (PreCompilationComplete (fst counts) (snd counts)) (fst r), Ok tt).
Proof.
  intros Hglob s0 r counts Hr. unfold compileAll.
  rewrite bind_get, Hglob, bind_lift_Ok, bind_log. fold s0.
  unfold bind at 1. fold r. destruct r as [s1 o]. simpl in Hr. subst o.
  reflexivity.
Qed.

Lemma compileAll_frame (s : Session) : sameSetup h s (fst (compileAll options h s)).
Proof.
  unfold compileAll. rewrite bind_get.
  destruct (glob h (scanPatterns_ options) (root s) (ignorePatterns_ options))
    as [files|e]; [|apply sameSetup_refl].
  rewrite bind_lift_Ok, bind_log. unfold bind at 1.
  pose proof (compileAllLoop_frame files
                (add_log (PreCompiling (List.length files)) s) 0 0) as Hloop.
  destruct (compileAllLoop options h files 0 0
              (add_log (PreCompiling (List.length files)) s)) as [s1 [counts|e]];
    simpl in Hloop |- *.
  - eapply sameSetup_trans; [apply sameSetup_add_log|].
    eapply sameSetup_trans; [exact Hloop|apply sameSetup_add_log].
  - eapply sameSetup_trans; [apply sameSetup_add_log|exact Hloop].
Qed.

Lemma handleHotUpdate_frame (ctx : HmrContext) (s : Session) :
  sameSetup h s (fst (handleHotUpdate options h ctx s)).
Proof.
  unfold handleHotUpdate.
  destruct (JsString.endsWith (ctx_file ctx) ".vue" && filter options (ctx_file ctx));
    [|apply sameSetup_refl].
  unfold bind at 1. unfold tryCatch.
  destruct (ctx_read ctx) as [source|e].
  - rewrite bind_lift_Ok, bind_get. unfold bind at 1.
    pose proof (compileFile_frame h (ctx_file ctx) (compileOptions options s)
                  (Some source) s) as Hframe.
    destruct (compileFile h (ctx_file ctx) (compileOptions options s) (Some source) s)
      as [s1 [c|e]]; simpl in Hframe.
    + rewrite bind_get. destruct (root s1).
      * simpl. eapply sameSetup_trans; [exact Hframe|apply sameSetup_add_log].
      * simpl. eapply sameSetup_trans; [exact Hframe|apply sameSetup_add_log].
    + simpl. eapply sameSetup_trans; [exact Hframe|apply sameSetup_add_log].
  - rewrite bind_lift_Throw. simpl. apply sameSetup_add_log.
Qed.

End StartupPass.

(** ** The registry *)

Lemma resolveVuePath_state (h : Host) (id : string) (importer : option string)
    (s : Session) :
  fst (resolveVuePath h id importer s) = s.
Proof.
  unfold resolveVuePath. rewrite bind_get.
  destruct (path_isAbsolute h id); [reflexivity|].
  destruct (JsString.truthy importer); [reflexivity|].
  destruct (root s); reflexivity.
Qed.

Lemma registryInvariant_insert (table : gmap string string) (resolved : string) :
  registryInvariant table ->
  registryInvariant (<[VIRTUAL_PREFIX +:+ resolved := resolved]> table).
Proof.
  intros Hinv id path. rewrite lookup_insert.
  destruct (decide (VIRTUAL_PREFIX +:+ resolved = id)) as [<-|Hne].
  - intros [= <-]. split.
    + apply prefix_append.
    + unfold JsString.sliceFrom. rewrite drop_append. reflexivity.
  - apply Hinv.
Qed.

Lemma resolveId_registry (h : Host) (id : string) (importer : option string)
    (s : Session) :
  registryInvariant (virtualToReal s) ->
  registryInvariant (virtualToReal (fst (resolveId h id importer s))).
Proof.
  intros Hinv. unfold resolveId.
  destruct (JsString.includes id "?vue&type=style"); [exact Hinv|].
  destruct (JsString.endsWith id ".vue"); [|exact Hinv].
  unfold bind at 1.
  pose proof (resolveVuePath_state h id importer s) as Hs.
  destruct (resolveVuePath h id importer s) as [s1 [resolved|e]]; simpl in Hs; subst s1;
    [|exact Hinv].
  rewrite bind_get.
  destruct (cache s !! resolved); [|exact Hinv].
  rewrite bind_modify. simpl. apply registryInvariant_insert, Hinv.
Qed.

Lemma runHook_registry (options : VizeOptions) (h : Host) (c : HookCall) (s : Session) :
  registryInvariant (virtualToReal s) ->
  registryInvariant (virtualToReal (runHook options h c s)).
Proof.
  intros Hinv. destruct c as [rc|d| |id importer|id|ctx]; simpl.
  - exact Hinv.
  - exact Hinv.
  - unfold buildStart. destruct (compileAll_frame options h s) as (-> & _). exact Hinv.
  - apply resolveId_registry, Hinv.
  - exact Hinv.
  - destruct (handleHotUpdate_frame options h ctx s) as (-> & _). exact Hinv.
Qed.

Lemma registryInvariant_empty : registryInvariant ∅.
Proof. intros id path H. rewrite lookup_empty in H. discriminate. Qed.

(** ** CompileInvoker and CompileCache *)

(** C1 (as amended).  When the native compiler returns a result,
    [compileFile] returns the artifact built from it and replaces the cache
    entry of the path with that artifact, whether or not the result's error
    list is empty: a non-empty list is printed and nothing more.  The cache
    is left as it was exactly when the attempt throws (the binding does not
    load, the file cannot be read, the compiler throws). *)
Theorem compileFile_cache_update (h : Host) (filePath : string)
    (o : CompileFileOptions) (source : option string) (s : Session) :
  (forall compile content result,
      nativeOf h s = Ok compile ->
      readSource h filePath source = Ok content ->
      compile content (napiOptions filePath o content) = Ok result ->
      snd (compileFile h filePath o source s) = Ok (artifactOf filePath content result)
      /\ cache (fst (compileFile h filePath o source s))
         = <[filePath := artifactOf filePath content result]> (cache s)
      /\ (errors result <> [] ->
          In (CompilationError filePath (String.concat LF (errors result)))
             (console (fst (compileFile h filePath o source s)))))
  /\ (forall e,
         snd (compileFile h filePath o source s) = Throw e ->
         cache (fst (compileFile h filePath o source s)) = cache s).
Proof.
  split.
  - intros compile content result Hn Hr Hc.
    rewrite (compileFile_returns _ _ _ _ _ _ _ _ Hn Hr Hc). simpl.
    split; [reflexivity|split; [reflexivity|]].
    intros Herr. apply in_or_app. right. unfold compileLogs.
    destruct (errors result) as [|e1 rest]; [congruence|]. simpl. left. reflexivity.
  - intros e He.
    destruct (compileFile h filePath o source s) as [s1 r] eqn:E. simpl in He. subst r.
    simpl. eapply compileFile_throw_cache, E.
Qed.

Lemma compileFile_cache_update_witness :
  cache (fst (compileFile Sample.project "/app/src/Broken.vue" Sample.devOptions None
                Sample.configured))
  = <["/app/src/Broken.vue" :=
        artifactOf "/app/src/Broken.vue" "<template><div></template>" Sample.brokenResult]>
      (cache Sample.configured)
  /\ cache (fst (compileFile Sample.project "/app/src/Gone.vue" Sample.devOptions None
                   Sample.configured))
     = cache Sample.configured.
Proof.
  split.
  - apply (proj1 (compileFile_cache_update Sample.project "/app/src/Broken.vue"
                    Sample.devOptions None Sample.configured)
             Sample.compileSfc_ "<template><div></template>" Sample.brokenResult);
      reflexivity.
  - apply (proj2 (compileFile_cache_update Sample.project "/app/src/Gone.vue"
                    Sample.devOptions None Sample.configured)
             "ENOENT: no such file or directory, open '/app/src/Gone.vue'").
    reflexivity.
Defined.

(** C1 as stated fails: compiling [Broken.vue], for which the compiler
    returns one error, creates the cache entry the path did not have. *)
Lemma compileFile_errors_counterexample :
  ~ (forall (h : Host) (filePath : string) (o : CompileFileOptions)
            (source : option string) (s : Session) compile content result,
        nativeOf h s = Ok compile ->
        readSource h filePath source = Ok content ->
        compile content (napiOptions filePath o content) = Ok result ->
        errors result <> [] ->
        cache (fst (compileFile h filePath o source s)) !! filePath
        = cache s !! filePath).
Proof.
  intros H.
  specialize (H Sample.project "/app/src/Broken.vue" Sample.devOptions None
                Sample.configured Sample.compileSfc_ "<template><div></template>"
                Sample.brokenResult eq_refl eq_refl eq_refl).
  assert (Herr : errors Sample.brokenResult <> []) by discriminate.
  specialize (H Herr).
  rewrite (compileFile_returns Sample.project "/app/src/Broken.vue" Sample.devOptions
             None Sample.configured Sample.compileSfc_ "<template><div></template>"
             Sample.brokenResult eq_refl eq_refl eq_refl) in H.
  simpl in H. rewrite lookup_insert_eq in H. discriminate.
Qed.

(** C2 (as amended).  After the startup pass over [N] distinct discovered
    files, started on an empty cache, in which [T] files' compile attempts
    throw, the cache holds exactly [N - T] entries: one for each file whose
    attempt returned, the files whose result carries compile errors
    included.  The pass reports [N - T] successes and [T] failures. *)
Theorem buildStart_cache_population (options : VizeOptions) (h : Host) (s : Session)
    (files : list string) :
  cache s = ∅ ->
  NoDup files ->
  glob h (scanPatterns_ options) (root s) (ignorePatterns_ options) = Ok files ->
  let s' := fst (buildStart options h s) in
  let T := List.length (List.filter (attemptThrows options h s) files) in
  size (cache s') = List.length files - T
  /\ (forall f, is_Some (cache s' !! f)
                <-> f ∈ files /\ attemptThrows options h s f = false)
  /\ exists printed,
       console s' = (printed ++ [PreCompilationComplete (List.length files - T) T])%list.
Proof.
  intros Hempty Hnd Hglob s' T.
  set (s0 := add_log (PreCompiling (List.length files)) s).
  assert (Hs0 : sameSetup h s s0) by apply sameSetup_add_log.
  assert (Hfresh : forall f, f ∈ files -> cache s0 !! f = None).
  { intros f _. change (cache s0) with (cache s). rewrite Hempty. apply lookup_empty. }
  destruct (compileAllLoop_run options h files s0 0 0 Hnd Hfresh)
    as (R1 & R2 & R3 & R4 & R5).
  assert (HT : List.filter (attemptThrows options h s0) files
               = List.filter (attemptThrows options h s) files).
  { apply List.filter_ext. intros f. apply attemptThrows_sameSetup, Hs0. }
  rewrite HT in R1, R2. fold T in R1, R2.
  pose proof (compileAll_run options h s files Hglob _ R1) as Hrun.
  cbv zeta in Hrun. fold s0 in Hrun.
  subst s'. unfold buildStart. rewrite Hrun. simpl fst. simpl snd.
  change (cache (add_log ?e ?x)) with (cache x).
  split; [|split].
  - rewrite R2. change (cache s0) with (cache s). rewrite Hempty, map_size_empty. lia.
  - intros f. split.
    + intros Hsome. destruct (decide (f ∈ files)) as [Hin|Hout].
      * split; [exact Hin|].
        destruct (attemptThrows options h s f) eqn:Hf; [|reflexivity].
        rewrite R4 in Hsome
          by (right; rewrite (attemptThrows_sameSetup options h s); assumption).
        change (cache s0) with (cache s) in Hsome.
        rewrite Hempty, lookup_empty in Hsome. destruct Hsome; discriminate.
      * rewrite R4 in Hsome by (left; exact Hout).
        change (cache s0) with (cache s) in Hsome.
        rewrite Hempty, lookup_empty in Hsome. destruct Hsome; discriminate.
    + intros [Hin Hf]. apply R3; [exact Hin|].
      rewrite (attemptThrows_sameSetup options h s); assumption.
  - eexists. unfold add_log at 1. simpl. reflexivity.
Qed.

Lemma buildStart_cache_population_witness :
  size (cache Sample.started) = 4 - 1.
Proof.
  refine (proj1 (buildStart_cache_population Sample.options Sample.project
                   Sample.configured Sample.found _ _ _)).
  - reflexivity.
  - apply (bool_decide_unpack _). vm_compute. exact I.
  - reflexivity.
Defined.

(** C2 as stated fails: of the two files of [smallProject] one has a
    compile error reported, and the cache holds two entries after the
    pass. *)
Lemma buildStart_errors_counterexample :
  ~ (forall (options : VizeOptions) (h : Host) (s : Session) (files : list string),
        cache s = ∅ ->
        console s = [] ->
        NoDup files ->
        glob h (scanPatterns_ options) (root s) (ignorePatterns_ options) = Ok files ->
        let s' := fst (buildStart options h s) in
        size (cache s')
        = List.length files
          - List.length (List.filter isCompilationError (console s'))).
Proof.
  intros H.
  specialize (H Sample.options Sample.smallProject Sample.configured
                ["/app/src/A.vue"; "/app/src/Broken.vue"] eq_refl eq_refl).
  assert (Hnd : NoDup ["/app/src/A.vue"; "/app/src/Broken.vue"]).
  { apply (bool_decide_unpack _). vm_compute. exact I. }
  specialize (H Hnd eq_refl). vm_compute in H. discriminate.
Qed.

(** ** Resolution *)

(** C3 (as amended).  [resolveId] hands an id that contains the style query
    marker back unchanged.  For every other id it returns null when the id
    does not end in [.vue], and when it ends in [.vue] and the resolved path
    has no cache entry; it returns a virtual id, the prefix followed by the
    resolved path, only when that path has a cache entry. *)
Theorem resolveId_answers (h : Host) (id : string) (importer : option string)
    (s : Session) :
  (JsString.includes id "?vue&type=style" = true ->
   resolveId h id importer s = (s, Ok (Some id)))
  /\ (JsString.includes id "?vue&type=style" = false ->
      JsString.endsWith id ".vue" = false ->
      resolveId h id importer s = (s, Ok None))
  /\ (JsString.includes id "?vue&type=style" = false ->
      forall resolved,
        snd (resolveVuePath h id importer s) = Ok resolved ->
        cache s !! resolved = None ->
        resolveId h id importer s = (s, Ok None))
  /\ (JsString.includes id "?vue&type=style" = false ->
      forall virtualId,
        snd (resolveId h id importer s) = Ok (Some virtualId) ->
        exists resolved,
          JsString.endsWith id ".vue" = true
          /\ snd (resolveVuePath h id importer s) = Ok resolved
          /\ is_Some (cache s !! resolved)
          /\ virtualId = VIRTUAL_PREFIX +:+ resolved).
Proof.
  pose proof (resolveVuePath_state h id importer s) as Hstate.
  unfold resolveId. split; [|split; [|split]].
  - intros ->. reflexivity.
  - intros -> ->. reflexivity.
  - intros -> resolved Hres Hnone.
    destruct (JsString.endsWith id ".vue"); [|reflexivity].
    unfold bind at 1.
    destruct (resolveVuePath h id importer s) as [s1 r]. simpl in Hstate, Hres.
    subst s1 r. rewrite bind_get, Hnone. reflexivity.
  - intros -> virtualId.
    destruct (JsString.endsWith id ".vue"); [|discriminate].
    unfold bind at 1.
    destruct (resolveVuePath h id importer s) as [s1 [resolved|e]];
      simpl in Hstate; subst s1; [|discriminate].
    rewrite bind_get.
    destruct (cache s !! resolved) as [compiled|] eqn:Hc; [|discriminate].
    rewrite bind_modify. simpl. intros [= <-].
    exists resolved. rewrite Hc. eauto.
Qed.

Lemma resolveId_answers_witness :
  resolveId Sample.project Sample.styleRequest None Sample.started
  = (Sample.started, Ok (Some Sample.styleRequest))
  /\ resolveId Sample.project "./main.ts" (Some "/app/src/A.vue") Sample.started
     = (Sample.started, Ok None)
  /\ resolveId Sample.project "/app/src/Missing.vue" None Sample.started
     = (Sample.started, Ok None)
  /\ exists resolved,
       JsString.endsWith "./B.vue" ".vue" = true
       /\ snd (resolveVuePath Sample.project "./B.vue" (Some "/app/src/A.vue")
                 Sample.started) = Ok resolved
       /\ is_Some (cache Sample.started !! resolved)
       /\ VIRTUAL_PREFIX +:+ "/app/src/B.vue" = VIRTUAL_PREFIX +:+ resolved.
Proof.
  split; [|split; [|split]].
  - apply (proj1 (resolveId_answers Sample.project Sample.styleRequest None
                    Sample.started)).
    reflexivity.
  - apply (proj1 (proj2 (resolveId_answers Sample.project "./main.ts"
                           (Some "/app/src/A.vue") Sample.started)));
      reflexivity.
  - apply (proj1 (proj2 (proj2 (resolveId_answers Sample.project "/app/src/Missing.vue"
                                  None Sample.started)))
             eq_refl "/app/src/Missing.vue");
      vm_compute; reflexivity.
  - apply (proj2 (proj2 (proj2 (resolveId_answers Sample.project "./B.vue"
                                  (Some "/app/src/A.vue") Sample.started)))
             eq_refl (VIRTUAL_PREFIX +:+ "/app/src/B.vue")).
    vm_compute. reflexivity.
Defined.

(** C3 as stated fails: a style request does not end in [.vue] and is
    answered with the id, not with null. *)
Lemma resolveId_style_counterexample :
  ~ (forall (h : Host) (id : string) (importer : option string) (s : Session),
        JsString.endsWith id ".vue" = false ->
        snd (resolveId h id importer s) = Ok None).
Proof.
  intros H.
  specialize (H Sample.project Sample.styleRequest None Sample.started eq_refl).
  unfold resolveId in H.
  change (JsString.includes Sample.styleRequest "?vue&type=style") with true in H.
  discriminate.
Qed.

(** ** The registry *)

Lemma reachable_registryInvariant (options : VizeOptions) (s : Session) :
  reachable options s -> registryInvariant (virtualToReal s).
Proof.
  induction 1 as [|h c s _ IH].
  - apply registryInvariant_empty.
  - apply runHook_registry, IH.
Qed.

Lemma realPathOf_strips (table : gmap string string) (id : string) :
  registryInvariant table ->
  realPathOf table id = JsString.sliceFrom id (String.length VIRTUAL_PREFIX).
Proof.
  intros Hinv. unfold realPathOf.
  destruct (table !! id) as [path|] eqn:E; [|reflexivity].
  simpl. apply Hinv in E as [_ ->]. reflexivity.
Qed.

(** C4.  In every session a host can reach, for every path with a cache
    entry, the virtual id formed from the path resolves back to the path:
    by the table with the prefix-stripping fallback, and so through
    [toRealPath]. *)
Theorem virtual_id_round_trip (options : VizeOptions) (s : Session) (path : string) :
  reachable options s ->
  is_Some (cache s !! path) ->
  realPathOf (virtualToReal s) (VIRTUAL_PREFIX +:+ path) = path
  /\ toRealPath (virtualToReal s) (VIRTUAL_PREFIX +:+ path) = path.
Proof.
  intros Hreach _.
  assert (H : realPathOf (virtualToReal s) (VIRTUAL_PREFIX +:+ path) = path).
  { rewrite realPathOf_strips by (eapply reachable_registryInvariant, Hreach).
    unfold JsString.sliceFrom. apply drop_append. }
  split; [exact H|].
  unfold toRealPath, JsString.startsWith. rewrite prefix_append. exact H.
Qed.

Lemma virtual_id_round_trip_witness :
  realPathOf (virtualToReal Sample.resolved) (VIRTUAL_PREFIX +:+ "/app/src/B.vue")
  = "/app/src/B.vue"
  /\ toRealPath (virtualToReal Sample.resolved) (VIRTUAL_PREFIX +:+ "/app/src/B.vue")
     = "/app/src/B.vue".
Proof.
  apply (virtual_id_round_trip Sample.options Sample.resolved "/app/src/B.vue").
  - unfold Sample.resolved. do 3 apply reachable_step. apply reachable_initial.
  - vm_compute. eexists. reflexivity.
Defined.

(** C8.  The registry invariant holds in every session a host can reach
    and every hook call keeps it: each key of the virtual-to-real table is
    the prefix followed by the path it maps to, so that looking an id up in
    the table and stripping its prefix give the same path whenever the id
    is in the table. *)
Theorem registry_invariant (options : VizeOptions) (s : Session) :
  reachable options s ->
  (forall id path,
      virtualToReal s !! id = Some path ->
      JsString.startsWith id VIRTUAL_PREFIX = true
      /\ path = JsString.sliceFrom id (String.length VIRTUAL_PREFIX)
      /\ id = VIRTUAL_PREFIX +:+ path)
  /\ (forall h c, registryInvariant (virtualToReal (runHook options h c s))).
Proof.
  intros Hreach.
  pose proof (reachable_registryInvariant options s Hreach) as Hinv.
  split.
  - intros id path Hid. destruct (Hinv id path Hid) as [Hpre ->].
    split; [exact Hpre|split; [reflexivity|]].
    apply prefix_split in Hpre. exact Hpre.
  - intros h c. apply runHook_registry, Hinv.
Qed.

Lemma registry_invariant_witness :
  virtualToReal Sample.resolved !! (VIRTUAL_PREFIX +:+ "/app/src/B.vue")
  = Some "/app/src/B.vue"
  /\ JsString.startsWith (VIRTUAL_PREFIX +:+ "/app/src/B.vue") VIRTUAL_PREFIX = true
  /\ "/app/src/B.vue"
     = JsString.sliceFrom (VIRTUAL_PREFIX +:+ "/app/src/B.vue")
         (String.length VIRTUAL_PREFIX).
Proof.
  assert (Hreach : reachable Sample.options Sample.resolved).
  { unfold Sample.resolved. do 3 apply reachable_step. apply reachable_initial. }
  assert (Hlookup : virtualToReal Sample.resolved !! (VIRTUAL_PREFIX +:+ "/app/src/B.vue")
                    = Some "/app/src/B.vue") by (vm_compute; reflexivity).
  destruct (proj1 (registry_invariant Sample.options Sample.resolved Hreach)
              _ _ Hlookup) as (H1 & H2 & _).
  split; [exact Hlookup|split; [exact H1|exact H2]].
Defined.

(** ** Style requests *)

(** C9.  [load] never answers a style request (an id containing the style
    query marker) with null.  With [realPath] the path the request resolves
    to (the text before the first question mark, decoded when it is a
    virtual id), the answer is the cached css when the cache has an
    artifact for [realPath] whose css is not empty, and the empty string in
    every other case. *)
Theorem load_style_query (s : Session) (id : string) :
  JsString.includes id "?vue&type=style" = true ->
  let realPath := toRealPath (virtualToReal s) (JsString.beforeFirst "?" id) in
  load s id <> LoadNull
  /\ (forall compiled text,
         cache s !! realPath = Some compiled ->
         css compiled = Some text -> text <> EmptyString ->
         load s id = LoadText text)
  /\ (cache s !! realPath = None -> load s id = LoadText EmptyString)
  /\ (forall compiled,
         cache s !! realPath = Some compiled ->
         css compiled = None \/ css compiled = Some EmptyString ->
         load s id = LoadText EmptyString).
Proof.
  intros Hq realPath. unfold load. rewrite Hq. fold realPath.
  split; [|split; [|split]].
  - destruct (cache s !! realPath) as [compiled|]; [|discriminate].
    destruct (JsString.truthy (css compiled)); discriminate.
  - intros compiled text -> Hcss Hne. rewrite Hcss.
    destruct text; [congruence|reflexivity].
  - intros ->. reflexivity.
  - intros compiled -> [-> | ->]; reflexivity.
Qed.

Lemma load_style_query_witness :
  load Sample.started Sample.styleRequest = LoadText ".a{color:red}"
  /\ load Sample.started "/app/src/A.vue?vue&type=style&index=0" = LoadText EmptyString
  /\ load Sample.started "/app/src/Missing.vue?vue&type=style&index=0" = LoadText EmptyString.
Proof.
  split; [|split].
  - apply (proj1 (proj2 (load_style_query Sample.started Sample.styleRequest eq_refl))
             {| code := "export default { name: 'C' }"; css := Some ".a{color:red}";
                scopeId := "5db57e12"; hasScoped := true |});
      [vm_compute; reflexivity|reflexivity|discriminate].
  - apply (proj2 (proj2 (proj2 (load_style_query Sample.started
                                  "/app/src/A.vue?vue&type=style&index=0" eq_refl)))
             {| code := "export default { name: 'C' }"; css := None;
                scopeId := "d3fe23a7"; hasScoped := false |});
      [vm_compute; reflexivity|left; reflexivity].
  - apply (proj1 (proj2 (proj2 (load_style_query Sample.started
                                  "/app/src/Missing.vue?vue&type=style&index=0" eq_refl)))).
    vm_compute. reflexivity.
Defined.

(** ** OutputSynthesizer *)

Lemma generateOutput_parts (compiled : CompiledModule) (isProduction_ isDev : bool) :
  generateOutput compiled isProduction_ isDev
  = (stylePreamble compiled +:+ moduleBody compiled)
    +:+ hmrPostscript compiled isProduction_ isDev.
Proof.
  unfold generateOutput, stylePreamble, moduleBody, hmrPostscript.
  destruct (JsString.includes (code compiled) "export default");
    destruct (JsString.truthy (css compiled));
    destruct (negb isProduction_ && isDev);
    cbn [andb]; rewrite ?append_empty_r, ?append_empty_l; reflexivity.
Qed.

(** C10.  When the artifact's code contains [export default], with [pre]
    the text before its first occurrence and [post] the text after it,
    [generateOutput] replaces that occurrence alone by the local binding
    and appends one re-export statement: [post], and with it every later
    occurrence of the marker, is carried over as it is. *)
Theorem generateOutput_rewrites_first_export (compiled : CompiledModule)
    (isProduction_ isDev : bool) (pre post : string) :
  code compiled = pre +:+ "export default" +:+ post ->
  (forall pre' post',
      code compiled = pre' +:+ "export default" +:+ post' ->
      String.length pre <= String.length pre') ->
  moduleBody compiled
  = pre +:+ "const _sfc_main =" +:+ post +:+ LF +:+ "export default _sfc_main;"
  /\ generateOutput compiled isProduction_ isDev
     = (stylePreamble compiled
        +:+ (pre +:+ "const _sfc_main =" +:+ post +:+ LF +:+ "export default _sfc_main;"))
       +:+ hmrPostscript compiled isProduction_ isDev.
Proof.
  intros Hcode Hfirst.
  assert (Hbody : moduleBody compiled
                  = pre +:+ "const _sfc_main =" +:+ post
                    +:+ LF +:+ "export default _sfc_main;").
  { unfold moduleBody. rewrite Hcode in *.
    rewrite includes_occurrence, (replace_leftmost _ _ _ _ Hfirst).
    rewrite !append_assoc. reflexivity. }
  split; [exact Hbody|]. rewrite generateOutput_parts, Hbody. reflexivity.
Qed.

Lemma generateOutput_rewrites_first_export_witness :
  moduleBody Sample.twoExports
  = "const a = 1; " +:+ "const _sfc_main =" +:+ " { note: 'export default' }"
    +:+ LF +:+ "export default _sfc_main;".
Proof.
  refine (proj1 (generateOutput_rewrites_first_export Sample.twoExports false true
                   "const a = 1; " " { note: 'export default' }" _ _)).
  - reflexivity.
  - intros pre' post' H.
    apply (indexOf_minimal (code Sample.twoExports) "export default" 13 pre' post');
      [reflexivity|exact H].
Defined.

(** *** The document *)

Section StyleElements.
Import Emitted.








End StyleElements.

(** *** Reading the emitted text *)

Section Reading.
Import MiniJs.

Lemma feed_append (l : lexer) (a b : string) : feed l (a +:+ b) = feed (feed l a) b.
Proof.
  revert l. induction a as [|c a IH]; intros l; [reflexivity|].
  rewrite append_cons. cbn [feed]. apply IH.
Qed.

Lemma feed_escape (c : ascii) (toks : list token) (acc rest : string) :
  feed (Some (toks, MString JsString.dquote acc)) (JsString.jsonEscape c +:+ rest)
  = feed (Some (toks, MString JsString.dquote (snoc acc c))) rest.
Proof.
  destruct c as [b0 b1 b2 b3 b4 b5 b6 b7].
  destruct b0, b1, b2, b3, b4, b5, b6, b7; reflexivity.
Qed.

Lemma feed_escapeAll (s : string) (toks : list token) (acc rest : string) :
  feed (Some (toks, MString JsString.dquote acc)) (JsString.jsonEscapeAll s +:+ rest)
  = feed (Some (toks, MString JsString.dquote (acc +:+ s))) rest.
Proof.
  revert acc. induction s as [|c s IH]; intros acc.
  - rewrite append_empty_r. reflexivity.
  - cbn [JsString.jsonEscapeAll]. rewrite append_assoc, feed_escape, IH.
    unfold snoc. rewrite append_assoc. reflexivity.
Qed.

(** A literal written by [JSON.stringify] is read as one string token, whose
    value is the string the literal was made from. *)
Lemma feed_stringify (s : string) (toks : list token) (rest : string) :
  feed (Some (toks, MNormal)) (JsString.JSON_stringify s +:+ rest)
  = feed (Some ((toks ++ [TStr s])%list, MNormal)) rest.
Proof.
  unfold JsString.JSON_stringify. rewrite append_cons, append_assoc.
  cbn [feed]. change (step (Some (toks, MNormal)) JsString.dquote)
    with (Some (toks, MString JsString.dquote EmptyString)).
  rewrite feed_escapeAll. reflexivity.
Qed.

End Reading.

(** Reading the literal text in front of the lexer. *)
Ltac feed_literal :=
  match goal with
  | |- context [MiniJs.feed ?l (String ?c ?lit +:+ ?rest)] =>
      let r := eval vm_compute in (MiniJs.feed l (String c lit)) in
      rewrite (feed_append l (String c lit) rest);
      change (MiniJs.feed l (String c lit)) with r
  end.

(** Running a program on a page of which only the shape is known: what
    depends on the contents of the page is left as it stands. *)
Ltac run_script :=
  cbv -[MiniJs.findIndex lookup insert alter list_lookup list_alter list_insert
        app List.length mbind default MiniJs.onFree MiniJs.setId MiniJs.setText].


(** *** Running the emitted text *)

Section Running.
Import MiniJs.




Lemma lookup_alter_same {A} (f : A -> A) (l : list A) (i : nat) :
  alter f i l !! i = f <$> l !! i.
Proof.
  revert i. induction l as [|x l IH]; intros [|i]; try reflexivity. apply IH.
Qed.

(** The [__hmrId] an object carries once it has been given one. *)
Lemma hmrId_assigned (hmrId : string) (component : nat) (objs : list (gmap string value)) :
  is_Some (objs !! component) ->
  default VUndefined
    (alter (insert "__hmrId" (VStr hmrId)) component objs !! component
     ≫= lookup "__hmrId")
  = VStr hmrId.
Proof.
  intros [props Hprops]. rewrite lookup_alter_same, Hprops. cbn.
  rewrite lookup_insert_eq. reflexivity.
Qed.




(** The hot-reload postscript as the parser reads it. *)
Lemma parse_hmrBlock (hmrId : string) :
  parse (hmrBlock (JsString.JSON_stringify hmrId))
  = Some
      [SIf (EMember (EMember (EVar "import") "meta") "hot")
         [SAssign (EMember (EVar "_sfc_main") "__hmrId") (EStr hmrId);
          SExpr
            (ECall
               (EMember (EMember (EMember (EVar "import") "meta") "hot") "accept")
               [EFunction ["mod"]
                  [SIf (ENot (EVar "mod")) [SReturn None] [];
                   SDestructure [("default", "updated")] (EVar "mod");
                   SIf (EStrictNe (ETypeof (EVar "__VUE_HMR_RUNTIME__")) (EStr "undefined"))
                     [SExpr
                        (ECall (EMember (EVar "__VUE_HMR_RUNTIME__") "reload")
                           [EMember (EVar "_sfc_main") "__hmrId"; EVar "updated"])]
                     []]]);
          SIf (EStrictNe (ETypeof (EVar "__VUE_HMR_RUNTIME__")) (EStr "undefined"))
            [SExpr
               (ECall (EMember (EVar "__VUE_HMR_RUNTIME__") "createRecord")
                  [EMember (EVar "_sfc_main") "__hmrId"; EVar "_sfc_main"])]
            []]
         []].
Proof.
  unfold parse, lex, hmrBlock.
  feed_literal. rewrite feed_stringify.
  vm_compute. reflexivity.
Qed.

(** One run of the hot-reload postscript in a module whose [_sfc_main] is
    the object [component], and what the callback it registers does when it
    is called back later. *)
Lemma run_hmrBlock (hmrId : string) (component : nat) (page : Page) :
  exists callback,
    run (hmrBlock (JsString.JSON_stringify hmrId))
      [[("_sfc_main", (false, VObj component))]] page
    = Some (if hot page
            then
              {| document := document page; created := created page; hot := true;
                 hmrRuntime := hmrRuntime page;
                 objects := alter (insert "__hmrId" (VStr hmrId)) component (objects page);
                 accepted := (accepted page ++ [callback])%list;
                 hmrCalls :=
                   if hmrRuntime page
                   then (hmrCalls page
                         ++ [CreateRecord
                               (default VUndefined
                                  (alter (insert "__hmrId" (VStr hmrId)) component
                                     (objects page) !! component ≫= lookup "__hmrId"))
                               (VObj component)])%list
                   else hmrCalls page |}
            else page)
    /\ (forall updatedModule later,
           truthy updatedModule = false ->
           invoke callback [updatedModule] later = Some (VUndefined, later))
    /\ (forall m later,
           invoke callback [VObj m] later
           = Some (VUndefined,
                   if hmrRuntime later
                   then withHmrCalls
                          (hmrCalls later
                           ++ [Reload
                                 (default VUndefined
                                    (objects later !! component ≫= lookup "__hmrId"))
                                 (default VUndefined
                                    (objects later !! m ≫= lookup "default"))])%list
                          later
                   else later)).
Proof.
  unfold run. rewrite parse_hmrBlock.
  eexists. split; [|split].
  - destruct page as [doc cr [|] [|] objs acc calls]; run_script; reflexivity.
  - intros updatedModule [doc cr h rt objs acc calls] Hfalsy.
    destruct updatedModule as [| |[|c s]|[|]| | | | |]; try discriminate Hfalsy;
      reflexivity.
  - intros m [doc cr h [|] objs acc calls]; run_script; reflexivity.
Qed.

End Running.

(** An artifact whose css is the empty string is treated like one without
    css: nothing is put before the module text. *)
Example generateOutput_empty_css :
  generateOutput {| code := "export default {}"; css := Some EmptyString;
                    scopeId := "c0cc6f12"; hasScoped := false |} true false
  = "const _sfc_main = {}" +:+ LF +:+ "export default _sfc_main;".
Proof. reflexivity. Qed.





(** C6.  [generateOutput] appends the hot-reload block exactly when the
    build is not a production build, a dev server is active and the
    artifact's code contains [export default]; otherwise nothing follows
    the module text.  Run in a module whose [_sfc_main] is a component
    object, the text of the block does nothing where [import.meta.hot] is
    not defined.  Where it is, the block gives the component the artifact's
    scopeId as its [__hmrId], hands one callback to [import.meta.hot.accept]
    and, when the framework's runtime is there, registers the component
    with [createRecord] under the scopeId, leaving the document alone.
    Called back with an absent module ([undefined], [null] or any other
    falsy value) the callback returns with the page as it was; called back
    with a module, it hands the module's default export to [reload] under
    the component's [__hmrId] when the runtime is there, and does nothing
    when it is not. *)
Theorem generateOutput_hot_reload (compiled : CompiledModule)
    (isProduction_ isDev : bool) :
  generateOutput compiled isProduction_ isDev
  = (if negb isProduction_ && isDev
        && JsString.includes (code compiled) "export default"
     then (stylePreamble compiled +:+ moduleBody compiled)
          +:+ hmrBlock (JsString.JSON_stringify (scopeId compiled))
     else stylePreamble compiled +:+ moduleBody compiled)
  /\ (exists before after,
         hmrBlock (JsString.JSON_stringify (scopeId compiled))
         = before +:+ "_sfc_main.__hmrId = "
           +:+ JsString.JSON_stringify (scopeId compiled) +:+ ";" +:+ after)
  /\ String.length (hmrBlock (JsString.JSON_stringify (scopeId compiled))) > 0
  /\ (forall (component : nat) (page : MiniJs.Page),
         MiniJs.hot page = false ->
         MiniJs.run (hmrBlock (JsString.JSON_stringify (scopeId compiled)))
           [[("_sfc_main", (false, MiniJs.VObj component))]] page
         = Some page)
  /\ (forall (component : nat) (page : MiniJs.Page),
         MiniJs.hot page = true ->
         is_Some (MiniJs.objects page !! component) ->
         exists page' callback,
           MiniJs.run (hmrBlock (JsString.JSON_stringify (scopeId compiled)))
             [[("_sfc_main", (false, MiniJs.VObj component))]] page
           = Some page'
           /\ MiniJs.getMember page' (MiniJs.VObj component) "__hmrId"
              = Some (MiniJs.VStr (scopeId compiled))
           /\ MiniJs.accepted page' = (MiniJs.accepted page ++ [callback])%list
           /\ MiniJs.hmrCalls page'
              = (MiniJs.hmrCalls page
                 ++ if MiniJs.hmrRuntime page
                    then [MiniJs.CreateRecord (MiniJs.VStr (scopeId compiled))
                            (MiniJs.VObj component)]
                    else [])%list
           /\ MiniJs.document page' = MiniJs.document page
           /\ (forall updatedModule later,
                  MiniJs.truthy updatedModule = false ->
                  MiniJs.invoke callback [updatedModule] later
                  = Some (MiniJs.VUndefined, later))
           /\ (forall m later hmrId updated,
                  MiniJs.getMember later (MiniJs.VObj component) "__hmrId" = Some hmrId ->
                  MiniJs.getMember later (MiniJs.VObj m) "default" = Some updated ->
                  MiniJs.invoke callback [MiniJs.VObj m] later
                  = Some (MiniJs.VUndefined,
                          if MiniJs.hmrRuntime later
                          then MiniJs.withHmrCalls
                                 (MiniJs.hmrCalls later
                                  ++ [MiniJs.Reload hmrId updated])%list later
                          else later))).
Proof.
  split; [|split; [|split; [|split]]].
  - rewrite generateOutput_parts. unfold hmrPostscript.
    destruct (negb isProduction_ && isDev
              && JsString.includes (code compiled) "export default");
      [reflexivity|apply append_empty_r].
  - exists (LF +:+ "if (import.meta.hot) {" +:+ LF +:+ "  "). eexists. reflexivity.
  - unfold hmrBlock. rewrite append_cons. simpl. lia.
  - intros component page Hhot.
    destruct (run_hmrBlock (scopeId compiled) component page) as (callback & Hrun & _).
    rewrite Hrun, Hhot. reflexivity.
  - intros component page Hhot Hcomponent.
    destruct (run_hmrBlock (scopeId compiled) component page)
      as (callback & Hrun & Habsent & Hmodule).
    rewrite Hhot, (hmrId_assigned _ _ _ Hcomponent) in Hrun.
    eexists. exists callback. split; [exact Hrun|].
    split.
    { unfold MiniJs.getMember. cbn [MiniJs.objects].
      rewrite (hmrId_assigned _ _ _ Hcomponent). reflexivity. }
    split; [reflexivity|].
    split.
    { cbn [MiniJs.hmrCalls]. destruct (MiniJs.hmrRuntime page);
        [reflexivity|symmetry; apply app_nil_r]. }
    split; [reflexivity|].
    split; [exact Habsent|].
    intros m later hmrId updated [= <-] [= <-]. apply Hmodule.
Qed.

Lemma generateOutput_hot_reload_witness :
  exists page' callback,
    MiniJs.run (hmrBlock (JsString.JSON_stringify (scopeId Sample.artifact)))
      [[("_sfc_main", (false, MiniJs.VObj 0))]] Scenes.browser
    = Some page'
    /\ MiniJs.accepted page' = [callback]
    /\ MiniJs.hmrCalls page'
       = [MiniJs.CreateRecord (MiniJs.VStr "c0cc6f12") (MiniJs.VObj 0)]
    /\ MiniJs.invoke callback [MiniJs.VNull] page' = Some (MiniJs.VUndefined, page').
Proof.
  destruct (proj2 (proj2 (proj2 (proj2
              (generateOutput_hot_reload Sample.artifact false true))))
              0 Scenes.browser eq_refl (ex_intro _ _ eq_refl))
    as (page' & callback & Hrun & _ & Haccepted & Hcalls & _ & Habsent & _).
  exists page', callback.
  split; [exact Hrun|]. split; [exact Haccepted|]. split; [exact Hcalls|].
  apply Habsent. reflexivity.
Defined.

(** ** ScopeIdentity *)

(** C7.  [generateScopeId] is a function of the path string alone: its
    result is eight characters long, each a hexadecimal digit, and two calls
    on the same path return the same string. *)
Theorem generateScopeId_deterministic (filename : string) :
  String.length (generateScopeId filename) = 8
  /\ JsString.allChars JsString.isHexDigit (generateScopeId filename) = true
  /\ (forall filename', filename' = filename ->
                        generateScopeId filename' = generateScopeId filename).
Proof.
  split; [|split].
  - rewrite generateScopeId_hex8. reflexivity.
  - rewrite generateScopeId_hex8. unfold Sha256.hex8. cbn [JsString.allChars].
    rewrite !hexDigit_isHexDigit. reflexivity.
  - intros filename' ->. reflexivity.
Qed.

Lemma generateScopeId_deterministic_witness :
  String.length (generateScopeId "/app/src/B.vue") = 8
  /\ JsString.allChars JsString.isHexDigit (generateScopeId "/app/src/B.vue") = true
  /\ generateScopeId "/app/src/B.vue" = generateScopeId "/app/src/B.vue".
Proof.
  destruct (generateScopeId_deterministic "/app/src/B.vue") as (H1 & H2 & H3).
  split; [exact H1|split; [exact H2|]]. apply H3. reflexivity.
Defined.

(** * Further properties of the plugin *)

(** ** The native binding *)

(** X1.  Once [loadNative] has returned a compiler function, every later
    call returns that same function and leaves the session alone, whatever
    the host would answer to [require] by then. *)
Theorem loadNative_reuses_binding (h h' : Host) (s : Session) (f : CompileSfcFn) :
  snd (loadNative h s) = Ok f ->
  loadNative h' (fst (loadNative h s)) = (fst (loadNative h s), Ok f).
Proof.
  unfold loadNative, bind, get, modify, ret, throw.
  destruct (compileSfc s) as [g|] eqn:E; simpl.
  - intros [= <-]. rewrite E. reflexivity.
  - destruct (require_native h) as [g|e]; simpl; [|discriminate].
    intros [= <-]. reflexivity.
Qed.

Lemma loadNative_reuses_binding_witness :
  loadNative (Sample.host [] []) (fst (loadNative Sample.project initial))
  = (fst (loadNative Sample.project initial), Ok Sample.compileSfc_).
Proof. apply loadNative_reuses_binding. reflexivity. Defined.

(** X2.  A failed load is not remembered: [loadNative] throws the wrapped
    message, the session is as before with no binding stored, and a later
    call on a host where the module loads succeeds. *)
Theorem loadNative_failure_not_cached (h : Host) (s : Session) (e : string) :
  snd (loadNative h s) = Throw e ->
  fst (loadNative h s) = s
  /\ compileSfc s = None
  /\ (exists cause,
         require_native h = Throw cause
         /\ e = "Failed to load @vize/native. Make sure it's installed and built:"
                +:+ LF +:+ cause)
  /\ (forall h' g, require_native h' = Ok g -> snd (loadNative h' s) = Ok g).
Proof.
  unfold loadNative, bind, get, modify, ret, throw.
  destruct (compileSfc s) as [g|] eqn:E; simpl; [discriminate|].
  destruct (require_native h) as [g|cause]; simpl; [discriminate|].
  intros [= <-]. split; [reflexivity|split; [reflexivity|split]].
  - exists cause. split; reflexivity.
  - intros h' g ->. reflexivity.
Qed.

Lemma loadNative_failure_not_cached_witness :
  fst (loadNative Scenes.offline initial) = initial
  /\ snd (loadNative Sample.project initial) = Ok Sample.compileSfc_.
Proof.
  destruct (loadNative_failure_not_cached Scenes.offline initial
              ("Failed to load @vize/native. Make sure it's installed and built:"
               +:+ LF +:+ "Cannot find module '@vize/native'") eq_refl)
    as (H1 & _ & _ & H4).
  split; [exact H1|]. apply H4. reflexivity.
Defined.

(** ** One compile attempt *)

(** X3.  When a source text is handed to [compileFile], the file system is
    not consulted: two hosts that load the same binding give the same
    result and the same session, however their files differ.  The empty
    text counts as a source. *)
Theorem compileFile_source_override (h h' : Host) (filePath : string)
    (o : CompileFileOptions) (text : string) (s : Session) :
  require_native h = require_native h' ->
  compileFile h filePath o (Some text) s = compileFile h' filePath o (Some text) s.
Proof.
  intros Heq. destruct h, h'. simpl in Heq. subst. reflexivity.
Qed.

Lemma compileFile_source_override_witness :
  compileFile Sample.project "/app/src/Gone.vue" Sample.devOptions
    (Some "<template/>") Sample.configured
  = compileFile (Sample.host [] []) "/app/src/Gone.vue" Sample.devOptions
      (Some "<template/>") Sample.configured.
Proof. apply compileFile_source_override. reflexivity. Defined.

(** X4.  A compile attempt touches no cache entry but the one of its path,
    and removes none: every path that had an entry still has one. *)
Theorem compileFile_touches_one_entry (h : Host) (filePath : string)
    (o : CompileFileOptions) (source : option string) (s : Session) (other : string) :
  let s' := fst (compileFile h filePath o source s) in
  (other <> filePath -> cache s' !! other = cache s !! other)
  /\ (is_Some (cache s !! other) -> is_Some (cache s' !! other)).
Proof.
  intros s'. subst s'.
  destruct (compileFile h filePath o source s) as [s1 [c|e]] eqn:E; simpl.
  - rewrite (compileFile_ok_cache _ _ _ _ _ _ _ E). split.
    + intros Hne. apply lookup_insert_ne. congruence.
    + intros Hsome. destruct (decide (filePath = other)) as [->|Hne].
      * rewrite lookup_insert_eq. eauto.
      * rewrite lookup_insert_ne by exact Hne. exact Hsome.
  - rewrite (compileFile_throw_cache _ _ _ _ _ _ _ E). split; auto.
Qed.

Lemma compileFile_touches_one_entry_witness :
  cache (fst (compileFile Sample.project "/app/src/A.vue" Sample.devOptions
                (Some "<template><div></template>") Sample.started))
    !! "/app/src/B.vue"
  = cache Sample.started !! "/app/src/B.vue".
Proof.
  apply (proj1 (compileFile_touches_one_entry Sample.project "/app/src/A.vue"
                  Sample.devOptions (Some "<template><div></template>")
                  Sample.started "/app/src/B.vue")).
  discriminate.
Defined.

(** X5.  Compiling the same path from the same source twice in a row gives
    the same artifact (or the same failure) both times, and the second
    attempt leaves the cache as the first left it. *)
Theorem compileFile_twice (h : Host) (filePath : string) (o : CompileFileOptions)
    (source : option string) (s : Session) :
  let first := compileFile h filePath o source s in
  let second := compileFile h filePath o source (fst first) in
  snd second = snd first /\ cache (fst second) = cache (fst first).
Proof.
  cbv zeta.
  pose proof (compileFile_frame h filePath o source s) as (_ & _ & _ & _ & Hn).
  assert (Hout : snd (compileFile h filePath o source
                        (fst (compileFile h filePath o source s)))
                 = snd (compileFile h filePath o source s)).
  { rewrite !compileFile_outcome, Hn. reflexivity. }
  split; [exact Hout|].
  destruct (compileFile h filePath o source s) as [s1 r1] eqn:E1. simpl in *.
  destruct (compileFile h filePath o source s1) as [s2 r2] eqn:E2. simpl in *.
  subst r2. destruct r1 as [c|e].
  - rewrite (compileFile_ok_cache _ _ _ _ _ _ _ E2),
      (compileFile_ok_cache _ _ _ _ _ _ _ E1).
    apply insert_insert_eq.
  - apply (compileFile_throw_cache _ _ _ _ _ _ _ E2).
Qed.

(** ** Scoped-style detection *)

Section ScopedDetection.
Import JsString ScopedRegex.

Lemma scopedAfter_eq (prev : ascii) (s : string) :
  scopedAfter prev s
  = (negb (isWord prev) && startsWith s "scoped" && boundaryAfter (drop 6 s))
    || match s with
       | EmptyString => false
       | String c s' => if Ascii.eqb c ">" then false else scopedAfter c s'
       end.
Proof. destruct s; reflexivity. Qed.

Lemma test_eq (s : string) :
  test s
  = (startsWith s "<style" && scopedAfter "e" (drop 6 s))
    || match s with
       | EmptyString => false
       | String _ s' => test s'
       end.
Proof. destruct s; reflexivity. Qed.

Lemma scopedAfter_sound (s : string) :
  forall prev, scopedAfter prev s = true ->
               exists mid post, s = mid +:+ "scoped" +:+ post /\ standsAlone prev mid post.
Proof.
  induction s as [|c s IH]; intros prev H; rewrite scopedAfter_eq in H;
    apply orb_true_iff in H as [H|H].
  - apply andb_true_iff in H as [H Hb]. apply andb_true_iff in H as [Hw Hp].
    exists EmptyString, (drop 6 EmptyString). split.
    + rewrite append_empty_l. exact (prefix_split "scoped" EmptyString Hp).
    + split; [reflexivity|split; [apply negb_true_iff, Hw|exact Hb]].
  - discriminate.
  - apply andb_true_iff in H as [H Hb]. apply andb_true_iff in H as [Hw Hp].
    exists EmptyString, (drop 6 (String c s)). split.
    + rewrite append_empty_l. exact (prefix_split "scoped" (String c s) Hp).
    + split; [reflexivity|split; [apply negb_true_iff, Hw|exact Hb]].
  - destruct (Ascii.eqb c ">") eqn:Ec; [discriminate|].
    destruct (IH c H) as (mid & post & -> & Hn & Hw & Hb).
    exists (String c mid), post. split; [reflexivity|].
    split; [|split; [exact Hw|exact Hb]].
    unfold noCloser. cbn [allChars]. rewrite Ec. exact Hn.
Qed.

Lemma scopedAfter_complete (mid post : string) :
  forall prev, standsAlone prev mid post ->
               scopedAfter prev (mid +:+ "scoped" +:+ post) = true.
Proof.
  induction mid as [|c mid IH]; intros prev (Hn & Hw & Hb); rewrite scopedAfter_eq.
  - rewrite append_empty_l. apply orb_true_iff. left.
    unfold startsWith. rewrite prefix_append.
    change 6 with (String.length "scoped"). rewrite drop_append.
    simpl in Hw. rewrite Hw, Hb. reflexivity.
  - apply orb_true_iff. right. rewrite append_cons.
    unfold noCloser in Hn. cbn [allChars] in Hn. apply andb_true_iff in Hn as [Hc Hn].
    apply negb_true_iff in Hc. rewrite Hc. apply IH.
    split; [exact Hn|split; [exact Hw|exact Hb]].
Qed.

(** X6.  The scoped-style test of [compileFile] accepts a source text
    exactly when it holds [<style], followed by any characters other than
    the closing angle bracket, followed by the word [scoped] with no word
    character right before or right after it. *)
Theorem scoped_test_exact (content : string) :
  test content = true <-> hasScopedStyle content.
Proof.
  split.
  - induction content as [|c content IH]; intros H; rewrite test_eq in H;
      apply orb_true_iff in H as [H|H].
    + apply andb_true_iff in H as [Hp _]. discriminate.
    + discriminate.
    + apply andb_true_iff in H as [Hp Ha].
      apply scopedAfter_sound in Ha as (mid & post & E & Hs).
      exists EmptyString, mid, post. split; [|exact Hs].
      rewrite append_empty_l, <- E. exact (prefix_split "<style" _ Hp).
    + destruct (IH H) as (pre & mid & post & -> & Hs).
      exists (String c pre), mid, post. split; [reflexivity|exact Hs].
  - intros (pre & mid & post & -> & Hs).
    induction pre as [|c pre IH]; rewrite test_eq; apply orb_true_iff.
    + left. rewrite append_empty_l. unfold startsWith. rewrite prefix_append.
      change 6 with (String.length "<style"). rewrite drop_append.
      apply scopedAfter_complete, Hs.
    + right. rewrite append_cons. exact IH.
Qed.

End ScopedDetection.

(** ** What the hooks do to the cache and to the registry *)

Lemma cacheGrows_refl (c : gmap string CompiledModule) : cacheGrows c c.
Proof. intros p. left. reflexivity. Qed.

Lemma cacheGrows_trans (c1 c2 c3 : gmap string CompiledModule) :
  cacheGrows c1 c2 -> cacheGrows c2 c3 -> cacheGrows c1 c3.
Proof.
  intros H12 H23 p. destruct (H23 p) as [E|E]; [|right; exact E].
  rewrite E. apply H12.
Qed.

Lemma cacheGrows_is_Some (c c' : gmap string CompiledModule) (p : string) :
  cacheGrows c c' -> is_Some (c !! p) -> is_Some (c' !! p).
Proof.
  intros H Hs. destruct (H p) as [E|(content & result & E)]; rewrite E; eauto.
Qed.

Lemma cacheGrows_wellKeyed (c c' : gmap string CompiledModule) :
  cacheGrows c c' -> cacheWellKeyed c -> cacheWellKeyed c'.
Proof.
  intros H Hk p a Ha. destruct (H p) as [E|(content & result & E)].
  - apply Hk. rewrite <- E. exact Ha.
  - rewrite E in Ha. injection Ha as <-. reflexivity.
Qed.

Lemma compileFile_cacheGrows (h : Host) (filePath : string) (o : CompileFileOptions)
    (source : option string) (s : Session) :
  cacheGrows (cache s) (cache (fst (compileFile h filePath o source s))).
Proof.
  rewrite compileFile_run.
  destruct (loadNative_fields h s) as (Hc & _).
  destruct (nativeOf h s) as [compile|e1]; [|simpl; rewrite Hc; apply cacheGrows_refl].
  destruct (readSource h filePath source) as [content|e2];
    [|simpl; rewrite Hc; apply cacheGrows_refl].
  destruct (compile content (napiOptions filePath o content)) as [result|e3];
    [|simpl; rewrite Hc; apply cacheGrows_refl].
  simpl. intros p. destruct (decide (filePath = p)) as [<-|Hne].
  - right. exists content, result. apply lookup_insert_eq.
  - left. apply lookup_insert_ne, Hne.
Qed.

Lemma compileFile_touches_other (h : Host) (filePath : string) (o : CompileFileOptions)
    (source : option string) (s : Session) (other : string) :
  other <> filePath ->
  cache (fst (compileFile h filePath o source s)) !! other = cache s !! other.
Proof.
  intros Hne.
  destruct (compileFile h filePath o source s) as [s1 [c|e]] eqn:E; simpl.
  - rewrite (compileFile_ok_cache _ _ _ _ _ _ _ E). apply lookup_insert_ne. congruence.
  - rewrite (compileFile_throw_cache _ _ _ _ _ _ _ E). reflexivity.
Qed.

Lemma compileAllLoop_cacheGrows (options : VizeOptions) (h : Host) (files : list string) :
  forall (s : Session) (sc ec : nat),
    cacheGrows (cache s) (cache (fst (compileAllLoop options h files sc ec s))).
Proof.
  induction files as [|file rest IH]; intros s sc ec; [apply cacheGrows_refl|].
  rewrite compileAllLoop_cons.
  pose proof (compileFile_cacheGrows h file (compileOptions options s) None s) as Hg.
  destruct (compileFile h file (compileOptions options s) None s) as [s1 [c|e]];
    simpl in Hg; (eapply cacheGrows_trans; [exact Hg|]).
  - apply IH.
  - apply (IH (add_log (FailedToCompile file e) s1)).
Qed.

Lemma compileAll_cacheGrows (options : VizeOptions) (h : Host) (s : Session) :
  cacheGrows (cache s) (cache (fst (compileAll options h s))).
Proof.
  unfold compileAll. rewrite bind_get.
  destruct (glob h (scanPatterns_ options) (root s) (ignorePatterns_ options))
    as [files|e]; [|apply cacheGrows_refl].
  rewrite bind_lift_Ok, bind_log. unfold bind at 1.
  pose proof (compileAllLoop_cacheGrows options h files
                (add_log (PreCompiling (List.length files)) s) 0 0) as Hloop.
  destruct (compileAllLoop options h files 0 0
              (add_log (PreCompiling (List.length files)) s)) as [s1 [counts|e]];
    simpl in Hloop |- *; exact Hloop.
Qed.

(** [handleHotUpdate], run. *)
Lemma handleHotUpdate_run (options : VizeOptions) (h : Host) (ctx : HmrContext)
    (s : Session) :
  handleHotUpdate options h ctx s
  = if handles options (ctx_file ctx) then
      (match ctx_read ctx with
       | Throw e => add_log (ReCompilationFailed (ctx_file ctx) e) s
       | Ok source =>
           match compileFile h (ctx_file ctx) (compileOptions options s) (Some source) s with
           | (s1, Ok _) =>
               match root s1 with
               | Some r => add_log (ReCompiled r (ctx_file ctx)) s1
               | None =>
                   add_log (ReCompilationFailed (ctx_file ctx)
                              "TypeError [ERR_INVALID_ARG_TYPE]") s1
               end
           | (s1, Throw e) => add_log (ReCompilationFailed (ctx_file ctx) e) s1
           end
       end, Ok (modulesOf ctx))
    else (s, Ok None).
Proof.
  unfold handleHotUpdate, handles.
  destruct (JsString.endsWith (ctx_file ctx) ".vue" && filter options (ctx_file ctx));
    [|reflexivity].
  unfold bind at 1. unfold tryCatch.
  destruct (ctx_read ctx) as [source|e].
  - rewrite bind_lift_Ok, bind_get. unfold bind at 1.
    destruct (compileFile h (ctx_file ctx) (compileOptions options s) (Some source) s)
      as [s1 [c|e]]; [|reflexivity].
    rewrite bind_get. destruct (root s1); reflexivity.
  - rewrite bind_lift_Throw. reflexivity.
Qed.

Lemma handleHotUpdate_cacheGrows (options : VizeOptions) (h : Host) (ctx : HmrContext)
    (s : Session) :
  cacheGrows (cache s) (cache (fst (handleHotUpdate options h ctx s))).
Proof.
  rewrite handleHotUpdate_run.
  destruct (handles options (ctx_file ctx)); [|apply cacheGrows_refl].
  destruct (ctx_read ctx) as [source|e]; [|apply cacheGrows_refl].
  pose proof (compileFile_cacheGrows h (ctx_file ctx) (compileOptions options s)
                (Some source) s) as Hg.
  destruct (compileFile h (ctx_file ctx) (compileOptions options s) (Some source) s)
    as [s1 [c|e]]; simpl in Hg; [destruct (root s1)|]; exact Hg.
Qed.

Lemma resolveId_cache (h : Host) (id : string) (importer : option string) (s : Session) :
  cache (fst (resolveId h id importer s)) = cache s.
Proof.
  unfold resolveId.
  destruct (JsString.includes id "?vue&type=style"); [reflexivity|].
  destruct (JsString.endsWith id ".vue"); [|reflexivity].
  unfold bind at 1.
  pose proof (resolveVuePath_state h id importer s) as Hs.
  destruct (resolveVuePath h id importer s) as [s1 [resolved|e]]; simpl in Hs; subst s1;
    [|reflexivity].
  rewrite bind_get. destruct (cache s !! resolved); reflexivity.
Qed.

Lemma runHook_cacheGrows (options : VizeOptions) (h : Host) (c : HookCall) (s : Session) :
  cacheGrows (cache s) (cache (runHook options h c s)).
Proof.
  destruct c as [rc|d| |id importer|id|ctx]; simpl.
  - apply cacheGrows_refl.
  - apply cacheGrows_refl.
  - apply compileAll_cacheGrows.
  - rewrite resolveId_cache. apply cacheGrows_refl.
  - apply cacheGrows_refl.
  - apply handleHotUpdate_cacheGrows.
Qed.

Lemma reachable_cacheWellKeyed (options : VizeOptions) (s : Session) :
  reachable options s -> cacheWellKeyed (cache s).
Proof.
  induction 1 as [|h c s _ IH].
  - intros p a H. simpl in H. rewrite lookup_empty in H. discriminate.
  - eapply cacheGrows_wellKeyed; [apply runHook_cacheGrows|exact IH].
Qed.

(** [resolveId], run. *)
Lemma resolveId_run (h : Host) (id : string) (importer : option string) (s : Session) :
  resolveId h id importer s
  = if JsString.includes id "?vue&type=style" then (s, Ok (Some id))
    else if JsString.endsWith id ".vue" then
      match snd (resolveVuePath h id importer s) with
      | Throw e => (s, Throw e)
      | Ok resolved =>
          match cache s !! resolved with
          | Some _ =>
              (set_virtualToReal
                 (<[VIRTUAL_PREFIX +:+ resolved := resolved]> (virtualToReal s)) s,
               Ok (Some (VIRTUAL_PREFIX +:+ resolved)))
          | None => (s, Ok None)
          end
      end
    else (s, Ok None).
Proof.
  unfold resolveId.
  destruct (JsString.includes id "?vue&type=style"); [reflexivity|].
  destruct (JsString.endsWith id ".vue"); [|reflexivity].
  unfold bind at 1.
  pose proof (resolveVuePath_state h id importer s) as Hs.
  destruct (resolveVuePath h id importer s) as [s1 [resolved|e]]; simpl in Hs; subst s1;
    [|reflexivity].
  rewrite bind_get. simpl. destruct (cache s !! resolved); reflexivity.
Qed.

(** The registry after [resolveId]: as before, or with the entry of the
    returned virtual id. *)
Lemma resolveId_registry_step (h : Host) (id : string) (importer : option string)
    (s : Session) :
  virtualToReal (fst (resolveId h id importer s)) = virtualToReal s
  \/ exists resolved,
       is_Some (cache s !! resolved)
       /\ snd (resolveId h id importer s) = Ok (Some (VIRTUAL_PREFIX +:+ resolved))
       /\ virtualToReal (fst (resolveId h id importer s))
          = <[VIRTUAL_PREFIX +:+ resolved := resolved]> (virtualToReal s).
Proof.
  rewrite resolveId_run.
  destruct (JsString.includes id "?vue&type=style"); [left; reflexivity|].
  destruct (JsString.endsWith id ".vue"); [|left; reflexivity].
  destruct (snd (resolveVuePath h id importer s)) as [resolved|e]; [|left; reflexivity].
  destruct (cache s !! resolved) as [a|] eqn:E; [|left; reflexivity].
  right. exists resolved. rewrite E. split; [eauto|]. split; reflexivity.
Qed.

Lemma runHook_registry_step (options : VizeOptions) (h : Host) (c : HookCall)
    (s : Session) :
  virtualToReal (runHook options h c s) = virtualToReal s
  \/ exists resolved,
       is_Some (cache s !! resolved)
       /\ virtualToReal (runHook options h c s)
          = <[VIRTUAL_PREFIX +:+ resolved := resolved]> (virtualToReal s).
Proof.
  destruct c as [rc|d| |id importer|id|ctx]; simpl.
  - left. reflexivity.
  - left. reflexivity.
  - left. unfold buildStart. apply compileAll_frame.
  - destruct (resolveId_registry_step h id importer s) as [E|(r & H1 & _ & H3)];
      [left; exact E|right; eauto].
  - left. reflexivity.
  - left. apply handleHotUpdate_frame.
Qed.

Lemma runHook_registryBacked (options : VizeOptions) (h : Host) (c : HookCall)
    (s : Session) :
  registryBacked s -> registryBacked (runHook options h c s).
Proof.
  intros Hb id path Hid.
  pose proof (runHook_cacheGrows options h c s) as Hg.
  destruct (runHook_registry_step options h c s) as [E|(resolved & Hc & E)];
    rewrite E in Hid.
  - eapply cacheGrows_is_Some; [exact Hg|]. eapply Hb, Hid.
  - rewrite lookup_insert in Hid.
    destruct (decide (VIRTUAL_PREFIX +:+ resolved = id)) as [_|_].
    + injection Hid as <-. eapply cacheGrows_is_Some; [exact Hg|exact Hc].
    + eapply cacheGrows_is_Some; [exact Hg|]. eapply Hb, Hid.
Qed.

Lemma reachable_registryBacked (options : VizeOptions) (s : Session) :
  reachable options s -> registryBacked s.
Proof.
  induction 1 as [|h c s _ IH].
  - intros id path H. simpl in H. rewrite lookup_empty in H. discriminate.
  - apply runHook_registryBacked, IH.
Qed.

(** X7.  In every session a host can reach, the artifact cached for a path
    carries the scope id of that path, eight hexadecimal digits: whatever
    content a file is recompiled from, its scope id and with it the
    hot-reload id and the style element id stay the same. *)
Theorem cache_scope_ids (options : VizeOptions) (s : Session) (path : string)
    (compiled : CompiledModule) :
  reachable options s ->
  cache s !! path = Some compiled ->
  scopeId compiled = generateScopeId path
  /\ String.length (scopeId compiled) = 8.
Proof.
  intros Hreach Hc.
  pose proof (reachable_cacheWellKeyed options s Hreach path compiled Hc) as ->.
  split; [reflexivity|]. rewrite generateScopeId_hex8. reflexivity.
Qed.

Lemma cache_scope_ids_witness :
  scopeId (artifactOf "/app/src/B.vue"
             "<template><p/></template><style scoped>.a{color:red}</style>"
             {| res_code := "export default { name: 'C' }";
                res_css := Some ".a{color:red}"; errors := []; warnings := [] |})
  = generateScopeId "/app/src/B.vue".
Proof.
  refine (proj1 (cache_scope_ids Sample.options Sample.resolved "/app/src/B.vue" _ _ _)).
  - unfold Sample.resolved. do 3 apply reachable_step. apply reachable_initial.
  - vm_compute. reflexivity.
Defined.

(** X8.  No hook call evicts: a path that has a cache entry before a hook
    call has one after it. *)
Theorem cache_never_evicts (options : VizeOptions) (h : Host) (c : HookCall)
    (s : Session) (path : string) :
  is_Some (cache s !! path) ->
  is_Some (cache (runHook options h c s) !! path).
Proof.
  intros Hsome. destruct c as [rc|d| |id importer|id|ctx]; simpl.
  - exact Hsome.
  - exact Hsome.
  - eapply cacheGrows_is_Some; [apply compileAll_cacheGrows|exact Hsome].
  - rewrite resolveId_cache. exact Hsome.
  - exact Hsome.
  - eapply cacheGrows_is_Some; [apply handleHotUpdate_cacheGrows|exact Hsome].
Qed.

Lemma cache_never_evicts_witness :
  is_Some (cache (runHook Sample.options Scenes.offline
                    (CallHandleHotUpdate Scenes.brokenEdit) Sample.started)
             !! "/app/src/A.vue").
Proof.
  apply cache_never_evicts. vm_compute. eexists. reflexivity.
Defined.

(** X9.  In every session a host can reach, each virtual id of the registry
    maps to a path that has a cache entry, and a hook call neither removes
    nor changes a registry entry. *)
Theorem registry_names_cached_paths (options : VizeOptions) (s : Session)
    (id path : string) :
  reachable options s ->
  virtualToReal s !! id = Some path ->
  is_Some (cache s !! path)
  /\ forall h c, virtualToReal (runHook options h c s) !! id = Some path.
Proof.
  intros Hreach Hid. split.
  - eapply reachable_registryBacked; eassumption.
  - intros h c.
    destruct (runHook_registry_step options h c s) as [E|(resolved & _ & E)];
      rewrite E; [exact Hid|].
    rewrite lookup_insert.
    destruct (decide (VIRTUAL_PREFIX +:+ resolved = id)) as [<-|_]; [|exact Hid].
    destruct (reachable_registryInvariant options s Hreach _ _ Hid) as [_ ->].
    unfold JsString.sliceFrom. rewrite drop_append. reflexivity.
Qed.

Lemma registry_names_cached_paths_witness :
  is_Some (cache Sample.resolved !! "/app/src/B.vue").
Proof.
  refine (proj1 (registry_names_cached_paths Sample.options Sample.resolved
                   (VIRTUAL_PREFIX +:+ "/app/src/B.vue") "/app/src/B.vue" _ _)).
  - unfold Sample.resolved. do 3 apply reachable_step. apply reachable_initial.
  - vm_compute. reflexivity.
Defined.

(** ** Resolving and loading *)

(** X10.  A virtual id that [resolveId] returns for a component import can
    be loaded right away: [load] answers it with the output synthesized
    from the artifact cached for the resolved path (provided the resolved
    path does not itself contain the style query marker). *)
Theorem resolved_id_loads (h : Host) (id : string) (importer : option string)
    (s : Session) (virtualId : string) :
  JsString.includes id "?vue&type=style" = false ->
  snd (resolveId h id importer s) = Ok (Some virtualId) ->
  JsString.includes virtualId "?vue&type=style" = false ->
  exists resolved compiled,
    virtualId = VIRTUAL_PREFIX +:+ resolved
    /\ cache s !! resolved = Some compiled
    /\ load (fst (resolveId h id importer s)) virtualId
       = LoadModule (generateOutput compiled (default false (isProduction s))
                       (match server s with Some _ => true | None => false end)).
Proof.
  intros Hid. rewrite resolveId_run, Hid.
  destruct (JsString.endsWith id ".vue"); [|discriminate].
  destruct (snd (resolveVuePath h id importer s)) as [resolved|e]; [|discriminate].
  destruct (cache s !! resolved) as [compiled|] eqn:Hc; [|discriminate].
  simpl. intros [= <-] Hv. exists resolved, compiled.
  split; [reflexivity|split; [exact Hc|]].
  unfold load. rewrite Hv. unfold JsString.startsWith. rewrite prefix_append.
  unfold realPathOf. simpl. rewrite lookup_insert_eq. simpl. rewrite Hc. reflexivity.
Qed.

Lemma resolved_id_loads_witness :
  exists resolved compiled,
    VIRTUAL_PREFIX +:+ "/app/src/B.vue" = VIRTUAL_PREFIX +:+ resolved
    /\ cache Sample.started !! resolved = Some compiled
    /\ load (fst (resolveId Sample.project "./B.vue" (Some "/app/src/A.vue")
                    Sample.started))
         (VIRTUAL_PREFIX +:+ "/app/src/B.vue")
       = LoadModule (generateOutput compiled
                       (default false (isProduction Sample.started))
                       (match server Sample.started with
                        | Some _ => true
                        | None => false
                        end)).
Proof.
  apply (resolved_id_loads Sample.project "./B.vue" (Some "/app/src/A.vue")
           Sample.started (VIRTUAL_PREFIX +:+ "/app/src/B.vue"));
    vm_compute; reflexivity.
Defined.

(** X11.  [resolveId] throws in one situation only: a [.vue] id that is not
    absolute, given without an importer (or with an empty one), before
    [configResolved] has set the root.  Once the root is set it always
    returns. *)
Theorem resolveId_throws_only_unconfigured (h : Host) (id : string)
    (importer : option string) (s : Session) (e : string) :
  snd (resolveId h id importer s) = Throw e ->
  root s = None
  /\ path_isAbsolute h id = false
  /\ JsString.truthy importer = false
  /\ JsString.endsWith id ".vue" = true
  /\ JsString.includes id "?vue&type=style" = false.
Proof.
  rewrite resolveId_run.
  destruct (JsString.includes id "?vue&type=style"); [discriminate|].
  destruct (JsString.endsWith id ".vue"); [|discriminate].
  unfold resolveVuePath. rewrite bind_get.
  destruct (path_isAbsolute h id); [simpl; destruct (cache s !! _); discriminate|].
  destruct (JsString.truthy importer); [simpl; destruct (cache s !! _); discriminate|].
  destruct (root s); [simpl; destruct (cache s !! _); discriminate|].
  intros _. auto 10.
Qed.

Lemma resolveId_throws_only_unconfigured_witness :
  root initial = None /\ path_isAbsolute Sample.project "./A.vue" = false.
Proof.
  destruct (resolveId_throws_only_unconfigured Sample.project "./A.vue" None initial
              "TypeError [ERR_INVALID_ARG_TYPE]" eq_refl) as (H1 & H2 & _).
  split; [exact H1|exact H2].
Defined.

(** X12.  In every session a host can reach, an import made from a virtual
    module resolves exactly as the same import made from the real file
    behind it. *)
Theorem resolveVuePath_virtual_importer (options : VizeOptions) (h : Host)
    (id path : string) (s : Session) :
  reachable options s ->
  path <> EmptyString ->
  JsString.startsWith path VIRTUAL_PREFIX = false ->
  resolveVuePath h id (Some (VIRTUAL_PREFIX +:+ path)) s
  = resolveVuePath h id (Some path) s.
Proof.
  intros Hreach Hne Hpre. unfold resolveVuePath. rewrite !bind_get.
  destruct (path_isAbsolute h id); [reflexivity|].
  assert (Ht : JsString.truthy (Some path) = true)
    by (destruct path; [congruence|reflexivity]).
  rewrite Ht. change (JsString.truthy (Some (VIRTUAL_PREFIX +:+ path))) with true.
  cbv iota. cbn [default from_option]. unfold Datatypes.id.
  unfold toRealPath. rewrite Hpre.
  unfold JsString.startsWith. rewrite prefix_append.
  rewrite realPathOf_strips by (eapply reachable_registryInvariant, Hreach).
  unfold JsString.sliceFrom. rewrite drop_append. reflexivity.
Qed.

Lemma resolveVuePath_virtual_importer_witness :
  resolveVuePath Sample.project "./B.vue" (Some (VIRTUAL_PREFIX +:+ "/app/src/A.vue"))
    Sample.resolved
  = resolveVuePath Sample.project "./B.vue" (Some "/app/src/A.vue") Sample.resolved.
Proof.
  apply (resolveVuePath_virtual_importer Sample.options).
  - unfold Sample.resolved. do 3 apply reachable_step. apply reachable_initial.
  - discriminate.
  - reflexivity.
Defined.

Lemma beforeFirst_append (c : ascii) (a b : string) :
  JsString.allChars (fun x => negb (Ascii.eqb x c)) a = true ->
  JsString.beforeFirst c (a +:+ String c b) = a.
Proof.
  induction a as [|x a IH]; intros H.
  - rewrite append_empty_l. simpl. rewrite Ascii.eqb_refl. reflexivity.
  - cbn [JsString.allChars] in H. apply andb_true_iff in H as [Hx Ha].
    apply negb_true_iff in Hx. rewrite append_cons. simpl. rewrite Hx, IH by exact Ha.
    reflexivity.
Qed.

(** X13.  In every session a host can reach, a style request gets the same
    answer whether it names the component by its real path or by its
    virtual id. *)
Theorem load_style_virtual_or_real (options : VizeOptions) (s : Session)
    (path rest : string) :
  reachable options s ->
  JsString.allChars (fun x => negb (Ascii.eqb x "?")) path = true ->
  JsString.startsWith path VIRTUAL_PREFIX = false ->
  load s ((VIRTUAL_PREFIX +:+ path) +:+ "?vue&type=style" +:+ rest)
  = load s (path +:+ "?vue&type=style" +:+ rest).
Proof.
  intros Hreach Hq Hpre. unfold load.
  rewrite !includes_occurrence.
  change ("?vue&type=style" +:+ rest) with (String "?" ("vue&type=style" +:+ rest)).
  rewrite (beforeFirst_append "?" path) by exact Hq.
  rewrite (beforeFirst_append "?" (VIRTUAL_PREFIX +:+ path)).
  - unfold toRealPath. rewrite Hpre.
    unfold JsString.startsWith. rewrite prefix_append.
    rewrite realPathOf_strips by (eapply reachable_registryInvariant, Hreach).
    unfold JsString.sliceFrom. rewrite drop_append. reflexivity.
  - unfold VIRTUAL_PREFIX. rewrite !append_cons, append_empty_l.
    cbn [JsString.allChars]. rewrite Hq. reflexivity.
Qed.

Lemma load_style_virtual_or_real_witness :
  load Sample.resolved
    ((VIRTUAL_PREFIX +:+ "/app/src/B.vue") +:+ "?vue&type=style" +:+ "&index=0")
  = load Sample.resolved ("/app/src/B.vue" +:+ "?vue&type=style" +:+ "&index=0").
Proof.
  apply (load_style_virtual_or_real Sample.options).
  - unfold Sample.resolved. do 3 apply reachable_step. apply reachable_initial.
  - reflexivity.
  - reflexivity.
Defined.

(** ** Change notifications *)

(** X14.  [handleHotUpdate] never throws, and what it returns is decided by
    the notification alone: for a file it handles (a [.vue] file the filter
    accepts), the modules the module graph has under the virtual id, else
    those under the file path, else nothing; for any other file nothing,
    and then the session is untouched.  Whether the recompilation worked
    makes no difference to the answer. *)
Theorem handleHotUpdate_reports (options : VizeOptions) (h : Host) (ctx : HmrContext)
    (s : Session) :
  snd (handleHotUpdate options h ctx s)
  = Ok (if handles options (ctx_file ctx) then modulesOf ctx else None)
  /\ (handles options (ctx_file ctx) = false ->
      fst (handleHotUpdate options h ctx s) = s)
  /\ (forall h' s', snd (handleHotUpdate options h' ctx s')
                    = snd (handleHotUpdate options h ctx s)).
Proof.
  split; [|split].
  - rewrite handleHotUpdate_run. destruct (handles options (ctx_file ctx)); reflexivity.
  - intros Hh. rewrite handleHotUpdate_run, Hh. reflexivity.
  - intros h' s'. rewrite !handleHotUpdate_run.
    destruct (handles options (ctx_file ctx)); reflexivity.
Qed.

Lemma handleHotUpdate_reports_witness :
  fst (handleHotUpdate Sample.options Sample.project Scenes.otherEdit Sample.started)
  = Sample.started.
Proof.
  apply (proj1 (proj2 (handleHotUpdate_reports Sample.options Sample.project
                         Scenes.otherEdit Sample.started))).
  reflexivity.
Defined.


(** X15.  A change notification for a handled file whose new content can be
    read and for which the compiler returns replaces the cache entry of the
    file with the artifact compiled from the content handed over by the
    host, not from the file on disk; the other entries stay. *)
Theorem handleHotUpdate_replaces_entry (options : VizeOptions) (h : Host)
    (ctx : HmrContext) (s : Session) compile source result :
  handles options (ctx_file ctx) = true ->
  ctx_read ctx = Ok source ->
  nativeOf h s = Ok compile ->
  compile source (napiOptions (ctx_file ctx) (compileOptions options s) source)
  = Ok result ->
  cache (fst (handleHotUpdate options h ctx s))
  = <[ctx_file ctx := artifactOf (ctx_file ctx) source result]> (cache s).
Proof.
  intros Hh Hr Hn Hc. rewrite handleHotUpdate_run, Hh, Hr.
  rewrite (compileFile_returns h (ctx_file ctx) (compileOptions options s) (Some source)
             s compile source result Hn eq_refl Hc).
  cbv iota. cbn [root]. destruct (root s); reflexivity.
Qed.

Lemma handleHotUpdate_replaces_entry_witness :
  cache (fst (handleHotUpdate Sample.options Sample.project Scenes.goodEdit
                Sample.started))
  = <["/app/src/B.vue" :=
        artifactOf "/app/src/B.vue"
          "<template><p/></template><style scoped>.a{color:blue}</style>"
          {| res_code := "export default { name: 'C' }";
             res_css := Some ".a{color:red}"; errors := []; warnings := [] |}]>
      (cache Sample.started).
Proof.
  apply (handleHotUpdate_replaces_entry Sample.options Sample.project Scenes.goodEdit
           Sample.started Sample.compileSfc_); reflexivity.
Defined.

(** X16.  When the new content cannot be read, or the compile attempt
    throws, a change notification leaves the cache as it was, prints the
    failure and still reports the affected modules: the stale artifact
    keeps being served. *)
Theorem handleHotUpdate_failure_keeps_cache (options : VizeOptions) (h : Host)
    (ctx : HmrContext) (s : Session) (e : string) :
  handles options (ctx_file ctx) = true ->
  ctx_read ctx = Throw e
  \/ (exists source,
         ctx_read ctx = Ok source
         /\ snd (compileFile h (ctx_file ctx) (compileOptions options s) (Some source) s)
            = Throw e) ->
  let s' := fst (handleHotUpdate options h ctx s) in
  cache s' = cache s
  /\ In (ReCompilationFailed (ctx_file ctx) e) (console s')
  /\ snd (handleHotUpdate options h ctx s) = Ok (modulesOf ctx).
Proof.
  intros Hh Hfail s'. subst s'. rewrite handleHotUpdate_run, Hh.
  destruct Hfail as [Hr|(source & Hr & Hc)]; rewrite Hr.
  - simpl. split; [reflexivity|split; [|reflexivity]].
    apply in_or_app. right. left. reflexivity.
  - destruct (compileFile h (ctx_file ctx) (compileOptions options s) (Some source) s)
      as [s1 r] eqn:E. simpl in Hc. subst r. simpl.
    split; [exact (compileFile_throw_cache _ _ _ _ _ _ _ E)|split; [|reflexivity]].
    apply in_or_app. right. left. reflexivity.
Qed.

Lemma handleHotUpdate_failure_keeps_cache_witness :
  cache (fst (handleHotUpdate Sample.options Sample.project Scenes.failedRead
                Sample.started))
  = cache Sample.started.
Proof.
  refine (proj1 (handleHotUpdate_failure_keeps_cache Sample.options Sample.project
                   Scenes.failedRead Sample.started "EBUSY: resource busy or locked"
                   _ _)).
  - reflexivity.
  - left. reflexivity.
Defined.

(** ** The startup pass on any file list *)

Lemma compileFile_console (h : Host) (filePath : string) (o : CompileFileOptions)
    (source : option string) (s : Session) :
  exists printed,
    console (fst (compileFile h filePath o source s)) = (console s ++ printed)%list.
Proof.
  rewrite compileFile_run.
  destruct (loadNative_fields h s) as (_ & _ & _ & _ & _ & Hl).
  destruct (nativeOf h s) as [compile|e1];
    [|exists []; simpl; rewrite Hl, app_nil_r; reflexivity].
  destruct (readSource h filePath source) as [content|e2];
    [|exists []; simpl; rewrite Hl, app_nil_r; reflexivity].
  destruct (compile content (napiOptions filePath o content)) as [result|e3];
    [|exists []; simpl; rewrite Hl, app_nil_r; reflexivity].
  eexists. reflexivity.
Qed.

Lemma compileAllLoop_any (options : VizeOptions) (h : Host) (files : list string) :
  forall (s : Session) (sc ec : nat),
    let r := compileAllLoop options h files sc ec s in
    exists sc' ec' printed,
      snd r = Ok (sc', ec')
      /\ sc' + ec' = sc + ec + List.length files
      /\ console (fst r) = (console s ++ printed)%list
      /\ (forall f, f ∈ files -> attemptThrows options h s f = false ->
                    is_Some (cache (fst r) !! f))
      /\ (forall f, f ∉ files -> cache (fst r) !! f = cache s !! f)
      /\ sameSetup h s (fst r).
Proof.
  induction files as [|file rest IH]; intros s sc ec; cbv zeta.
  - exists sc, ec, []. simpl. rewrite app_nil_r.
    split; [reflexivity|split; [lia|split; [reflexivity|split; [|split]]]].
    + intros f Hf. inversion Hf.
    + reflexivity.
    + apply sameSetup_refl.
  - rewrite compileAllLoop_cons.
    pose proof (compileFile_frame h file (compileOptions options s) None s) as Hframe.
    pose proof (compileFile_cacheGrows h file (compileOptions options s) None s) as Hgrow.
    destruct (compileFile_console h file (compileOptions options s) None s)
      as [printed1 Hcon].
    pose proof (compileFile_touches_other h file (compileOptions options s) None s)
      as Hother.
    destruct (compileFile h file (compileOptions options s) None s)
      as [s1 [c|e]] eqn:E; simpl in Hframe, Hgrow, Hcon, Hother.
    + destruct (IH s1 (S sc) ec) as (sc' & ec' & printed & R1 & R2 & R3 & R4 & R5 & R6).
      exists sc', ec', (printed1 ++ printed)%list.
      split; [exact R1|split; [simpl; lia|split; [|split; [|split]]]].
      * rewrite R3, Hcon, app_assoc. reflexivity.
      * intros f Hf Hok. apply elem_of_cons in Hf as [->|Hf].
        -- eapply cacheGrows_is_Some;
             [apply (compileAllLoop_cacheGrows options h rest s1 (S sc) ec)|].
           rewrite (compileFile_ok_cache _ _ _ _ _ _ _ E), lookup_insert_eq. eauto.
        -- apply R4; [exact Hf|].
           rewrite (attemptThrows_sameSetup options h s); assumption.
      * intros f Hf. rewrite R5 by (intros Hin; apply Hf; right; exact Hin).
        apply Hother. intros ->. apply Hf. left.
      * eapply sameSetup_trans; eassumption.
    + set (s2 := add_log (FailedToCompile file e) s1).
      assert (Hframe2 : sameSetup h s s2)
        by (eapply sameSetup_trans; [exact Hframe|apply sameSetup_add_log]).
      destruct (IH s2 sc (S ec)) as (sc' & ec' & printed & R1 & R2 & R3 & R4 & R5 & R6).
      exists sc', ec', (printed1 ++ [FailedToCompile file e] ++ printed)%list.
      split; [exact R1|split; [simpl; lia|split; [|split; [|split]]]].
      * rewrite R3. unfold s2, add_log. simpl. rewrite Hcon, <- !app_assoc. reflexivity.
      * intros f Hf Hok. apply elem_of_cons in Hf as [->|Hf].
        -- unfold attemptThrows in Hok. rewrite E in Hok. discriminate.
        -- apply R4; [exact Hf|].
           rewrite (attemptThrows_sameSetup options h s); assumption.
      * intros f Hf. rewrite R5 by (intros Hin; apply Hf; right; exact Hin).
        change (cache s2) with (cache s1).
        apply Hother. intros ->. apply Hf. left.
      * eapply sameSetup_trans; eassumption.
Qed.

(** X17.  The startup pass fails as a whole only when the scan itself
    fails, and then changes nothing.  Otherwise it returns, whatever happens
    to the single files: it prints how many files it found, then one count
    of successes and one of failures that add up to that number; every
    listed file whose attempt returned has a cache entry afterwards, and
    the entries of paths not listed are untouched. *)
Theorem buildStart_isolates_failures (options : VizeOptions) (h : Host) (s : Session) :
  (forall e,
      glob h (scanPatterns_ options) (root s) (ignorePatterns_ options) = Throw e ->
      buildStart options h s = (s, Throw e))
  /\ (forall files,
         glob h (scanPatterns_ options) (root s) (ignorePatterns_ options) = Ok files ->
         let s' := fst (buildStart options h s) in
         snd (buildStart options h s) = Ok tt
         /\ (exists printed sc ec,
                console s'
                = (console s ++ [PreCompiling (List.length files)] ++ printed
                   ++ [PreCompilationComplete sc ec])%list
                /\ sc + ec = List.length files)
         /\ (forall f, f ∈ files -> attemptThrows options h s f = false ->
                       is_Some (cache s' !! f))
         /\ (forall f, f ∉ files -> cache s' !! f = cache s !! f)).
Proof.
  split.
  - intros e Hglob. unfold buildStart, compileAll. rewrite bind_get, Hglob. reflexivity.
  - intros files Hglob s'.
    set (s0 := add_log (PreCompiling (List.length files)) s).
    destruct (compileAllLoop_any options h files s0 0 0)
      as (sc & ec & printed & R1 & R2 & R3 & R4 & R5 & R6).
    pose proof (compileAll_run options h s files Hglob _ R1) as Hrun.
    cbv zeta in Hrun. fold s0 in Hrun.
    subst s'. unfold buildStart. rewrite Hrun. simpl fst. simpl snd.
    split; [reflexivity|split; [|split]].
    + exists printed, sc, ec. split; [|simpl in R2; exact R2].
      unfold add_log at 1. simpl. rewrite R3. unfold s0, add_log. simpl.
      rewrite <- !app_assoc. reflexivity.
    + intros f Hf Hok. change (cache (add_log ?e ?x)) with (cache x).
      apply R4; [exact Hf|].
      rewrite (attemptThrows_sameSetup options h s); [exact Hok|].
      apply sameSetup_add_log.
    + intros f Hf. change (cache (add_log ?e ?x)) with (cache x).
      rewrite R5 by exact Hf. reflexivity.
Qed.

Lemma buildStart_isolates_failures_witness :
  buildStart Sample.options Scenes.noScan Sample.configured
  = (Sample.configured, Throw "EACCES: permission denied, scandir '/app'")
  /\ snd (buildStart Sample.options Sample.project Sample.configured) = Ok tt.
Proof.
  split.
  - apply (proj1 (buildStart_isolates_failures Sample.options Scenes.noScan
                    Sample.configured)).
    reflexivity.
  - apply (proj2 (buildStart_isolates_failures Sample.options Sample.project
                    Sample.configured) Sample.found).
    reflexivity.
Defined.

(** ** The filter *)



(** ** More on the synthesized output *)

Lemma includes_intro (s a p b : string) :
  s = a +:+ p +:+ b -> JsString.includes s p = true.
Proof. intros ->. apply includes_occurrence. Qed.

Lemma includes_indexOf (s p : string) :
  JsString.includes s p = true -> exists i, JsString.indexOf s p = Some i.
Proof. unfold JsString.includes. destruct (JsString.indexOf s p); [eauto|discriminate]. Qed.

(** The marker is looked for in the text of the code, whatever it is part
    of there: a module whose first [export default] stands in a comment has
    that one rewritten, its export is left as it was and is followed by a
    second one, and the hot-reload block names a [_sfc_main] that no
    statement binds. *)
Example generateOutput_marker_in_comment :
  generateOutput {| code := "/* export default */ export default {}"; css := None;
                    scopeId := "c0cc6f12"; hasScoped := false |} false true
  = "/* const _sfc_main = */ export default {}" +:+ LF +:+ "export default _sfc_main;"
    +:+ hmrBlock (JsString.JSON_stringify "c0cc6f12").
Proof. reflexivity. Qed.

(** X19.  A property of the returned text.  When the code holds
    [export default], the returned text holds the words [const _sfc_main =]
    and, on a line of its own, [export default _sfc_main;]; the hot-reload
    block, which names [_sfc_main], is added in that case only, so whenever
    it is there these words are there too.  When the code holds no
    [export default], the module text is passed through as it is, even
    under a dev server: only the style preamble, if any, is put before
    it. *)
Theorem generateOutput_binding (compiled : CompiledModule) (isProduction_ isDev : bool) :
  (JsString.includes (code compiled) "export default" = true ->
   JsString.includes (generateOutput compiled isProduction_ isDev) "const _sfc_main ="
   = true
   /\ JsString.includes (generateOutput compiled isProduction_ isDev)
        (LF +:+ "export default _sfc_main;")
      = true)
  /\ (hmrPostscript compiled isProduction_ isDev <> EmptyString ->
      JsString.includes (generateOutput compiled isProduction_ isDev) "const _sfc_main ="
      = true)
  /\ (JsString.includes (code compiled) "export default" = false ->
      generateOutput compiled isProduction_ isDev
      = stylePreamble compiled +:+ code compiled).
Proof.
  assert (Hdef : JsString.includes (code compiled) "export default" = true ->
                 JsString.includes (generateOutput compiled isProduction_ isDev)
                   "const _sfc_main =" = true
                 /\ JsString.includes (generateOutput compiled isProduction_ isDev)
                      (LF +:+ "export default _sfc_main;") = true).
  { intros Hinc. rewrite generateOutput_parts. unfold moduleBody. rewrite Hinc.
    destruct (includes_indexOf _ _ Hinc) as [i Hi]. unfold JsString.replace. rewrite Hi.
    split.
    - apply (includes_intro _
               (stylePreamble compiled +:+ JsString.take i (code compiled)) _
               (JsString.drop (i + String.length "export default") (code compiled)
                +:+ LF +:+ "export default _sfc_main;"
                +:+ hmrPostscript compiled isProduction_ isDev)).
      rewrite !append_assoc. reflexivity.
    - apply (includes_intro _
               (stylePreamble compiled +:+ JsString.take i (code compiled)
                +:+ "const _sfc_main ="
                +:+ JsString.drop (i + String.length "export default") (code compiled)) _
               (hmrPostscript compiled isProduction_ isDev)).
      rewrite !append_assoc. reflexivity. }
  split; [exact Hdef|split].
  - intros Hhmr. apply Hdef. unfold hmrPostscript in Hhmr.
    destruct (JsString.includes (code compiled) "export default"); [reflexivity|].
    rewrite andb_false_r in Hhmr. congruence.
  - intros Hinc. rewrite generateOutput_parts. unfold moduleBody, hmrPostscript.
    rewrite Hinc, andb_false_r. apply append_empty_r.
Qed.

Lemma generateOutput_binding_witness :
  JsString.includes (generateOutput Sample.artifact false true) "const _sfc_main =" = true
  /\ generateOutput Scenes.noExport false true
     = stylePreamble Scenes.noExport +:+ code Scenes.noExport.
Proof.
  split.
  - apply (proj1 (proj2 (generateOutput_binding Sample.artifact false true))).
    vm_compute. discriminate.
  - apply (proj2 (proj2 (generateOutput_binding Scenes.noExport false true))).
    reflexivity.
Defined.

(** ** The emitted string literals *)

Lemma valueOfBody_escape (c : ascii) (tail : string) :
  JsLiteral.valueOfBody (JsString.jsonEscape c +:+ tail)
  = option_map (String c) (JsLiteral.valueOfBody tail).
Proof.
  destruct c as [b0 b1 b2 b3 b4 b5 b6 b7].
  destruct b0, b1, b2, b3, b4, b5, b6, b7; reflexivity.
Qed.

(** X20.  The string literals [generateOutput] writes with [JSON.stringify]
    (the css, the style element id, the hot-reload id) read back as the
    very strings they were made from: no character of the css can end the
    literal early or change its value. *)
Theorem stringify_reads_back (text : string) :
  JsLiteral.valueOf (JsString.JSON_stringify text) = Some text.
Proof.
  unfold JsString.JSON_stringify, JsLiteral.valueOf.
  change (Ascii.eqb JsString.dquote JsString.dquote) with true. cbv iota.
  induction text as [|c text IH].
  - reflexivity.
  - cbn [JsString.jsonEscapeAll]. rewrite append_assoc, valueOfBody_escape, IH.
    reflexivity.
Qed.

(** ** The wasm module *)

Section WasmModule.
Import Wasm.

Lemma step_consistent (st : State) (ev : Event) :
  wasmConsistent st -> wasmConsistent (step st ev).
Proof.
  unfold wasmConsistent, step, init, settle.
  destruct st as [i p n]. destruct ev as [|how]; simpl;
    destruct i; destruct p as [[| |r]|]; try destruct how; simpl;
    intros [H1 H2]; subst; try discriminate; split; reflexivity.
Qed.

Lemma run_consistent (events : list Event) :
  forall st, wasmConsistent st -> wasmConsistent (run events st).
Proof.
  induction events as [|ev events IH]; intros st H; [exact H|].
  apply IH, step_consistent, H.
Qed.

Lemma start_consistent : wasmConsistent start.
Proof. split; reflexivity. Qed.

Lemma step_keeps_initialized (st : State) (ev : Event) :
  wasmConsistent st -> initialized st = true -> step st ev = st.
Proof.
  unfold wasmConsistent. destruct st as [i p n]. simpl. intros Hc ->.
  destruct ev as [|how]; [reflexivity|].
  unfold settle. simpl. destruct p as [[| |r]|]; try reflexivity.
  destruct Hc as [_ Hc]. discriminate.
Qed.

Lemma run_keeps_initialized (events : list Event) :
  forall st, wasmConsistent st -> initialized st = true -> run events st = st.
Proof.
  induction events as [|ev events IH]; intros st Hc Hi; [reflexivity|].
  simpl. rewrite (step_keeps_initialized st ev Hc Hi). apply IH; assumption.
Qed.

Lemma run_without_success (events : list Event) :
  forall st,
    initialized st = false ->
    (forall ev, In ev events -> ev <> Settles LoadSucceeds) ->
    initialized (run events st) = false.
Proof.
  induction events as [|ev events IH]; intros st Hi Hno; [exact Hi|].
  simpl. apply IH.
  - destruct ev as [|how].
    + simpl. unfold init. rewrite Hi. destruct (initPromise st); [exact Hi|reflexivity].
    + simpl. unfold settle. destruct (initPromise st) as [[| |r]|]; try exact Hi.
      destruct how; [|exact Hi]. exfalso. apply (Hno (Settles LoadSucceeds)); [left|];
        reflexivity.
  - intros ev' Hin. apply Hno. right. exact Hin.
Qed.

(** X21.  However often and in whatever order [init] is called and the load
    settles, [initWasm] is called at most once: calls made while the load is
    pending, or after it has ended, reuse the first call's promise.  And
    [isInitialized] answers true exactly when that load has succeeded. *)
Theorem wasm_loads_once (events : list Event) :
  let st := run events start in
  initWasmCalls st <= 1
  /\ (isInitialized st = true <-> initPromise st = Some Fulfilled)
  /\ (initPromise st <> None -> fst (init st) = st).
Proof.
  intros st. pose proof (run_consistent events start start_consistent) as Hc.
  fold st in Hc. unfold wasmConsistent, isInitialized, init in *.
  destruct st as [i p n]. simpl in *.
  destruct p as [[| |r]|]; destruct Hc as [-> ->]; simpl.
  - split; [lia|split; [split; discriminate|reflexivity]].
  - split; [lia|split; [split; reflexivity|reflexivity]].
  - split; [lia|split; [split; discriminate|reflexivity]].
  - split; [lia|split; [split; discriminate|congruence]].
Qed.

Section Calls.
Variables Obj Result : Type.
Variable emptyObject : Obj.
Variable b : Bindings Obj Result.

(** X22.  As long as no load has succeeded, every exported function and the
    [Compiler] constructor throw the not-initialized error, without calling
    into the bindings: calling [init] is not enough, its promise must have
    been fulfilled. *)
Theorem wasm_exports_guarded (events : list Event) (input : string)
    (options : option Obj) :
  (forall ev, In ev events -> ev <> Settles LoadSucceeds) ->
  let st := run events start in
  compile Obj Result emptyObject b st input options = Throw notInitialized
  /\ compileVapor Obj Result emptyObject b st input options = Throw notInitialized
  /\ parseTemplate Obj Result emptyObject b st input options = Throw notInitialized
  /\ parseSfc Obj Result emptyObject b st input options = Throw notInitialized
  /\ compileSfc Obj Result emptyObject b st input options = Throw notInitialized
  /\ compileCss Obj Result emptyObject b st input options = Throw notInitialized
  /\ newCompiler Obj Result b st = Throw notInitialized.
Proof.
  intros Hno st.
  assert (Hi : initialized st = false)
    by (apply run_without_success; [reflexivity|exact Hno]).
  unfold compile, compileVapor, parseTemplate, parseSfc, compileSfc, compileCss,
    newCompiler, guarded, ensureInitialized.
  rewrite Hi. simpl. auto 10.
Qed.

(** X23.  Once the module is initialized it stays so whatever happens next,
    and from then on every exported function hands its input and its
    options (the empty object when none are given) to the binding and
    returns the binding's result, a thrown error included; further calls of
    [init] resolve at once. *)
Theorem wasm_initialized_forwards (events later : list Event) (input : string)
    (options : option Obj) :
  initialized (run events start) = true ->
  let st := run later (run events start) in
  st = run events start
  /\ init st = (st, AlreadyResolved)
  /\ compile Obj Result emptyObject b st input options
     = wasmCompile Obj Result b input (default emptyObject options)
  /\ compileVapor Obj Result emptyObject b st input options
     = wasmCompileVapor Obj Result b input (default emptyObject options)
  /\ parseTemplate Obj Result emptyObject b st input options
     = wasmParseTemplate Obj Result b input (default emptyObject options)
  /\ parseSfc Obj Result emptyObject b st input options
     = wasmParseSfc Obj Result b input (default emptyObject options)
  /\ compileSfc Obj Result emptyObject b st input options
     = wasmCompileSfc Obj Result b input (default emptyObject options)
  /\ compileCss Obj Result emptyObject b st input options
     = wasmCompileCss Obj Result b input (default emptyObject options)
  /\ newCompiler Obj Result b st = Ok (newWasmCompiler Obj Result b).
Proof.
  intros Hi st.
  assert (Hst : st = run events start).
  { apply run_keeps_initialized; [|exact Hi].
    apply run_consistent, start_consistent. }
  rewrite Hst.
  unfold compile, compileVapor, parseTemplate, parseSfc, compileSfc, compileCss,
    newCompiler, guarded, ensureInitialized, init.
  rewrite Hi. simpl. auto 10.
Qed.

End Calls.

Lemma wasm_exports_guarded_witness :
  compileSfc unit string tt Scenes.echo (run [CallInit; CallInit] start)
    "<template/>" None
  = Throw notInitialized.
Proof.
  refine (proj1 (proj2 (proj2 (proj2 (proj2
           (wasm_exports_guarded unit string tt Scenes.echo [CallInit; CallInit]
              "<template/>" None _)))))).
  intros ev [<-|[<-|[]]]; discriminate.
Defined.

Lemma wasm_initialized_forwards_witness :
  compileSfc unit string tt Scenes.echo
    (run [CallInit; Settles (LoadFails "late")]
       (run [CallInit; CallInit; Settles LoadSucceeds] start))
    "<template/>" None
  = Ok "<template/>".
Proof.
  refine (proj1 (proj2 (proj2 (proj2 (proj2 (proj2 (proj2
           (wasm_initialized_forwards unit string tt Scenes.echo
              [CallInit; CallInit; Settles LoadSucceeds]
              [CallInit; Settles (LoadFails "late")] "<template/>" None _)))))))).
  reflexivity.
Defined.

(** X24.  A load that fails is final: [initPromise] stays rejected with the
    first failure's reason, [initialized] stays false, [initWasm] is never
    called again, and every later call of [init] returns that rejected
    promise. *)
Theorem wasm_failed_load_is_final (reason : string) (later : list Event) :
  let st := run later (run [CallInit; Settles (LoadFails reason)] start) in
  st = run [CallInit; Settles (LoadFails reason)] start
  /\ initialized st = false
  /\ initPromise st = Some (Rejected reason)
  /\ initWasmCalls st = 1
  /\ init st = (st, FollowsInitPromise).
Proof.
  cbv zeta.
  assert (H : run later (run [CallInit; Settles (LoadFails reason)] start)
              = run [CallInit; Settles (LoadFails reason)] start).
  { induction later as [|ev later IH]; [reflexivity|].
    simpl in *. destruct ev as [|how]; exact IH. }
  rewrite H. simpl. auto 10.
Qed.

End WasmModule.

(** ** The startup pass without the native module *)

Lemma loadNative_missing (h : Host) (s : Session) (cause : string) :
  compileSfc s = None ->
  require_native h = Throw cause ->
  loadNative h s
  = (s, Throw ("Failed to load @vize/native. Make sure it's installed and built:"
               +:+ LF +:+ cause)).
Proof.
  intros Hc Hr. unfold loadNative. rewrite bind_get, Hc, Hr. reflexivity.
Qed.

Lemma compileFile_missing (h : Host) (filePath : string) (o : CompileFileOptions)
    (source : option string) (s : Session) (cause : string) :
  compileSfc s = None ->
  require_native h = Throw cause ->
  compileFile h filePath o source s
  = (s, Throw ("Failed to load @vize/native. Make sure it's installed and built:"
               +:+ LF +:+ cause)).
Proof.
  intros Hc Hr. unfold compileFile. unfold bind at 1.
  rewrite (loadNative_missing h s cause Hc Hr). reflexivity.
Qed.

Lemma add_logs_fields (events : list LogEvent) :
  forall s,
    let s' := fold_left (fun acc e => add_log e acc) events s in
    compileSfc s' = compileSfc s /\ cache s' = cache s
    /\ console s' = (console s ++ events)%list.
Proof.
  induction events as [|e events IH]; intros s; cbv zeta.
  - simpl. rewrite app_nil_r. auto.
  - simpl. destruct (IH (add_log e s)) as (H1 & H2 & H3).
    rewrite H1, H2, H3. simpl. rewrite <- app_assoc. auto.
Qed.

Lemma compileAllLoop_missing (options : VizeOptions) (h : Host) (cause : string)
    (files : list string) :
  require_native h = Throw cause ->
  forall (s : Session) (sc ec : nat),
    compileSfc s = None ->
    compileAllLoop options h files sc ec s
    = (fold_left (fun acc e => add_log e acc)
         (List.map (fun f =>
                      FailedToCompile f
                        ("Failed to load @vize/native. Make sure it's installed and built:"
                         +:+ LF +:+ cause)) files) s,
       Ok (sc, ec + List.length files)).
Proof.
  intros Hr. induction files as [|file rest IH]; intros s sc ec Hc.
  - simpl. rewrite Nat.add_0_r. reflexivity.
  - rewrite compileAllLoop_cons, (compileFile_missing h file _ None s cause Hc Hr).
    rewrite IH by exact Hc.
    cbn [List.map fold_left List.length]. rewrite Nat.add_succ_r. reflexivity.
Qed.

(** X25.  When the native module cannot be loaded, the startup pass does
    not abort: every file fails with the load error, the pass returns and
    reports no success and as many failures as there are files, one printed
    line per file, and the cache is left as it was. *)
Theorem buildStart_without_binding (options : VizeOptions) (h : Host) (s : Session)
    (cause : string) (files : list string) :
  compileSfc s = None ->
  require_native h = Throw cause ->
  glob h (scanPatterns_ options) (root s) (ignorePatterns_ options) = Ok files ->
  let s' := fst (buildStart options h s) in
  snd (buildStart options h s) = Ok tt
  /\ cache s' = cache s
  /\ compileSfc s' = None
  /\ console s'
     = (console s ++ [PreCompiling (List.length files)]
        ++ List.map (fun f =>
                       FailedToCompile f
                         ("Failed to load @vize/native. Make sure it's installed and built:"
                          +:+ LF +:+ cause)) files
        ++ [PreCompilationComplete 0 (List.length files)])%list.
Proof.
  intros Hc Hr Hglob s'.
  pose proof (compileAllLoop_missing options h cause files Hr
                (add_log (PreCompiling (List.length files)) s) 0 0 Hc) as Hloop.
  pose proof (compileAll_run options h s files Hglob (0, List.length files)) as Hrun.
  cbv zeta in Hrun. rewrite Hloop in Hrun. specialize (Hrun eq_refl).
  subst s'. unfold buildStart. rewrite Hrun. simpl fst. simpl snd.
  destruct (add_logs_fields
              (List.map (fun f =>
                           FailedToCompile f
                             ("Failed to load @vize/native. Make sure it's installed and built:"
                              +:+ LF +:+ cause)) files)
              (add_log (PreCompiling (List.length files)) s)) as (H1 & H2 & H3).
  split; [reflexivity|split; [|split]].
  - change (cache (add_log ?e ?x)) with (cache x). rewrite H2. reflexivity.
  - change (compileSfc (add_log ?e ?x)) with (compileSfc x). rewrite H1. exact Hc.
  - unfold add_log at 1. simpl. rewrite H3. simpl. rewrite <- !app_assoc. reflexivity.
Qed.

Lemma buildStart_without_binding_witness :
  cache (fst (buildStart Sample.options Scenes.offline Sample.configured))
  = cache Sample.configured.
Proof.
  refine (proj1 (proj2 (buildStart_without_binding Sample.options Scenes.offline
                          Sample.configured "Cannot find module '@vize/native'"
                          Sample.found _ _ _)));
    reflexivity.
Defined.

(** ** From a change to the next load *)


